(** * Aya Wallet MCP server: dispatcher, DeFi aggregator and SaucerSwap quote

    A shallow embedding of the request dispatcher of [src/index.ts], of
    [DeFiAggregator.findBestRate] with its quote helpers and of
    [SaucerSwapTools.getQuote], together with the part of the JavaScript
    run time those functions rely on (IEEE-754 binary64 numbers,
    [parseFloat], [Number.prototype.toFixed], [Array.prototype.sort],
    [typeof] and truthiness).  The classes around them follow: the
    logger, the configuration manager and the start of the process, the
    ledger tools, the swap and liquidity transactions of
    [SaucerSwapTools] and the other operations of the aggregator. *)

From Stdlib Require Import ZArith QArith Qround Qabs Lia Lqa List Bool.
From Stdlib Require Import Ascii String DecimalString Permutation Sorted.
From Stdlib Require Import SpecFloat.
Import ListNotations.

Set Warnings "-register-all".

Local Open Scope Z_scope.

(** ** JavaScript numbers

    A JavaScript number is an IEEE-754 binary64 value.  Every finite
    binary64 value is an integer multiple of [2^-1074], so a finite number
    is stored as that integer: [Fin k] stands for [k * 2^-1074].  The
    arithmetic operations are the IEEE ones: the exact rational result
    rounded to the nearest representable value, ties to even, overflowing
    to an infinity.  The sign of zero is not tracked: none of the modelled
    operations ([toFixed], comparison, [Math.floor], truthiness) can tell
    [-0] from [+0]. *)
Module Num.

Inductive number : Type :=
| NaN : number
| Inf (neg : bool) : number
| Fin (k : Z) : number.

(** [2^1074]: the number of units in 1. *)
Definition scale : Z := 2 ^ 1074.

(** Units at or above [2^2098] (the value [2^1024]) overflow. *)
Definition overflow_at : Z := 2 ^ 2098.

(** Round a rational to the nearest integer, ties to the even one. *)
Definition rne (a : Q) : Z :=
  let f := Qfloor a in
  match Qcompare (a - inject_Z f) (1 # 2) with
  | Lt => f
  | Gt => f + 1
  | Eq => if Z.even f then f else f + 1
  end.

(** Exponent of the last place of a non-negative quantity given in units:
    53 significant bits, never below one unit (gradual underflow). *)
Definition ulp_exp (a : Q) : Z := Z.max 0 (Z.log2 (Qfloor a) - 52).

(** Magnitude rounding: a non-negative number of units to 53 bits. *)
Definition round_mag (a : Q) : Z :=
  let s := ulp_exp a in
  rne (a / inject_Z (2 ^ s)) * 2 ^ s.

(** [round u]: the binary64 value nearest to [u] units. *)
Definition round (u : Q) : number :=
  let neg := match Qcompare u 0 with Lt => true | _ => false end in
  let k := round_mag (Qabs u) in
  if overflow_at <=? k then Inf neg
  else Fin (if neg then - k else k).

(** The signed result of rounding, before the overflow test. *)
Definition sround (u : Q) : Z :=
  match Qcompare u 0 with
  | Lt => - round_mag (- u)
  | _ => round_mag u
  end.

(** A number of units that has at most 53 significant bits. *)
Definition canonical (k : Z) : Prop :=
  round_mag (inject_Z (Z.abs k)) = Z.abs k.

(** The numbers that are binary64 values: the arithmetic never leaves
    them. *)
Definition double (x : number) : Prop :=
  match x with
  | Fin k => canonical k /\ Z.abs k < overflow_at
  | _ => True
  end.

Definition is_finite (x : number) : bool :=
  match x with Fin _ => true | _ => false end.

(** The number denoted by an integer (a literal such as [100]). *)
Definition of_Z (n : Z) : number := round (inject_Z (n * scale)).

(** The number denoted by the decimal literal [d * 10^e]. *)
Definition of_decimal (d e : Z) : number :=
  if 0 <=? e then round (inject_Z (d * 10 ^ e * scale))
  else round (Qmake (d * scale) (Z.to_pos (10 ^ (- e)))).

(** [x + y] *)
Definition add (x y : number) : number :=
  match x, y with
  | NaN, _ | _, NaN => NaN
  | Inf a, Inf b => if Bool.eqb a b then Inf a else NaN
  | Inf a, Fin _ => Inf a
  | Fin _, Inf b => Inf b
  | Fin a, Fin b => round (inject_Z (a + b))
  end.

(** [- x] *)
Definition opp (x : number) : number :=
  match x with
  | NaN => NaN
  | Inf a => Inf (negb a)
  | Fin a => Fin (- a)
  end.

(** [x - y] *)
Definition sub (x y : number) : number := add x (opp y).

(** [x * y] *)
Definition mul (x y : number) : number :=
  match x, y with
  | NaN, _ | _, NaN => NaN
  | Inf a, Inf b => Inf (xorb a b)
  | Inf a, Fin b => if b =? 0 then NaN else Inf (xorb a (b <? 0))
  | Fin a, Inf b => if a =? 0 then NaN else Inf (xorb (a <? 0) b)
  | Fin a, Fin b => round (Qmake (a * b) (Z.to_pos scale))
  end.

(** [x / y]; the sign of a division by zero is that of the dividend, the
    divisor being read as [+0]. *)
Definition div (x y : number) : number :=
  match x, y with
  | NaN, _ | _, NaN => NaN
  | Inf _, Inf _ => NaN
  | Inf a, Fin b => Inf (xorb a (b <? 0))
  | Fin _, Inf _ => Fin 0
  | Fin a, Fin b =>
      if b =? 0 then (if a =? 0 then NaN else Inf (a <? 0))
      else round (inject_Z (a * scale) / inject_Z b)
  end.

(** [x > 0] *)
Definition gt0 (x : number) : bool :=
  match x with
  | NaN => false
  | Inf neg => negb neg
  | Fin k => 0 <? k
  end.

(** [x < y] (false as soon as one side is [NaN]). *)
Definition ltb (x y : number) : bool :=
  match x, y with
  | NaN, _ | _, NaN => false
  | Inf a, Inf b => a && negb b
  | Inf a, Fin _ => a
  | Fin _, Inf b => negb b
  | Fin a, Fin b => a <? b
  end.

(** [x <= y] (false as soon as one side is [NaN]). *)
Definition leb (x y : number) : bool :=
  match x, y with
  | NaN, _ | _, NaN => false
  | Inf a, Inf b => a || negb b
  | Inf a, Fin _ => a
  | Fin _, Inf b => negb b
  | Fin a, Fin b => a <=? b
  end.

Definition is_nan (x : number) : bool :=
  match x with NaN => true | _ => false end.

(** [Math.floor(x)] *)
Definition floor (x : number) : number :=
  match x with
  | Fin k => Fin (k / scale * scale)
  | _ => x
  end.

(** [BigInt(x)]: defined on integral numbers only, a [RangeError]
    otherwise. *)
Definition to_BigInt (x : number) : option Z :=
  match x with
  | Fin k => if k mod scale =? 0 then Some (k / scale) else None
  | _ => None
  end.

(** *** Decimal text *)

Definition string_of_N (n : N) : string :=
  NilZero.string_of_uint (N.to_uint n).

Fixpoint zeros (n : nat) : string :=
  match n with
  | O => EmptyString
  | S n' => String "0" (zeros n')
  end.

(** Left-pad with zeros up to [n] characters. *)
Definition pad_left (n : nat) (s : string) : string :=
  (zeros (n - String.length s) ++ s)%string.

Fixpoint strip_trailing_zeros_rev (l : list ascii) : list ascii :=
  match l with
  | "0"%char :: l' => strip_trailing_zeros_rev l'
  | _ => l
  end.

Definition strip_trailing_zeros (s : string) : string :=
  string_of_list_ascii
    (rev (strip_trailing_zeros_rev (rev (list_ascii_of_string s)))).

(** Number of decimal digits of a positive integer. *)
Definition decimal_length (n : Z) : Z :=
  Z.of_nat (String.length (string_of_N (Z.to_N n))).

(** One candidate of [Number::toString]: [s * 10^p] denotes [Fin k] again. *)
Definition denotes (k s p : Z) : bool :=
  match round (inject_Z (s * 10 ^ p * scale)) with
  | Fin k' => k' =? k
  | _ => false
  end.

(** Search for the shortest digit string that reads back as [Fin k], for
    an integral value [x = k / scale]: with [kd] digits the candidates are
    the two multiples of [10^(n - kd)] around [x]; the closer one wins,
    the even one on a tie. *)
Fixpoint shortest_digits (fuel : nat) (k x n kd : Z) : Z * Z :=
  let p := n - kd in
  let lo := x / 10 ^ p in
  let hi := lo + 1 in
  let oklo := denotes k lo p in
  let okhi := denotes k hi p in
  let dlo := x - lo * 10 ^ p in
  let dhi := hi * 10 ^ p - x in
  let pick :=
    if oklo && okhi then
      Some (if dlo <? dhi then lo else if dhi <? dlo then hi
            else if Z.even lo then lo else hi)
    else if oklo then Some lo
    else if okhi then Some hi
    else None in
  match pick, fuel with
  | Some s, _ => (s, p)
  | None, O => (x, 0)
  | None, S fuel' => shortest_digits fuel' k x n (kd + 1)
  end.

(** [Number::toString] on a finite value of at least [10^21], which is an
    integer and prints in exponent form: [d.ddde+NN]. *)
Definition to_string_large (k : Z) : string :=
  let x := k / scale in
  let n := decimal_length x in
  let '(s, p) := shortest_digits 20 k x n 1 in
  let ds := string_of_N (Z.to_N s) in
  let e := Z.of_nat (String.length ds) + p - 1 in
  let sig := strip_trailing_zeros ds in
  let mant :=
    match sig with
    | String d EmptyString => String d EmptyString
    | String d rest => String d (String "." rest)
    | EmptyString => "0"%string
    end in
  (mant ++ "e+" ++ string_of_N (Z.to_N e))%string.

(** [x.toFixed(f)], for a digit count [f] between 0 and 100. *)
Definition toFixed (f : nat) (x : number) : string :=
  match x with
  | NaN => "NaN"
  | Inf false => "Infinity"
  | Inf true => "-Infinity"
  | Fin k =>
      let sign := if k <? 0 then "-"%string else ""%string in
      let a := Z.abs k in
      if 10 ^ 21 * scale <=? a then (sign ++ to_string_large a)%string
      else
        let n := (2 * a * 10 ^ Z.of_nat f + scale) / (2 * scale) in
        let m := pad_left (f + 1) (string_of_N (Z.to_N n)) in
        let cut := (String.length m - f)%nat in
        if (f =? 0)%nat then (sign ++ m)%string
        else (sign ++ substring 0 cut m ++ "." ++ substring cut f m)%string
  end.

(** [n.toString()] for a BigInt. *)
Definition string_of_Z (n : Z) : string :=
  if n <? 0 then ("-" ++ string_of_N (Z.to_N (- n)))%string
  else string_of_N (Z.to_N n).

(** *** [parseFloat] *)

Definition is_digit (c : ascii) : bool :=
  let n := nat_of_ascii c in (48 <=? n)%nat && (n <=? 57)%nat.

(** White space and line terminators among the code points below 256. *)
Definition is_space (c : ascii) : bool :=
  let n := nat_of_ascii c in
  ((9 <=? n)%nat && (n <=? 13)%nat) || (n =? 32)%nat || (n =? 160)%nat.

Fixpoint trim_start (l : list ascii) : list ascii :=
  match l with
  | c :: l' => if is_space c then trim_start l' else l
  | [] => []
  end.

(** The longest run of digits at the head, and what follows it. *)
Fixpoint span_digits (l : list ascii) : list ascii * list ascii :=
  match l with
  | c :: l' =>
      if is_digit c
      then let '(ds, rest) := span_digits l' in (c :: ds, rest)
      else ([], l)
  | [] => ([], [])
  end.

Definition digit_value (c : ascii) : Z := Z.of_nat (nat_of_ascii c) - 48.

Definition digits_value (ds : list ascii) : Z :=
  fold_left (fun acc c => 10 * acc + digit_value c) ds 0.

Fixpoint starts_with (p l : list ascii) : bool :=
  match p, l with
  | [], _ => true
  | c :: p', d :: l' => Ascii.eqb c d && starts_with p' l'
  | _ :: _, [] => false
  end.

(** The exponent part [e[+-]ddd] at the head, when there is one. *)
Definition exponent_part (l : list ascii) : Z :=
  match l with
  | c :: l' =>
      if Ascii.eqb c "e" || Ascii.eqb c "E" then
        let '(neg, l'') :=
          match l' with
          | "+"%char :: r => (false, r)
          | "-"%char :: r => (true, r)
          | _ => (false, l')
          end in
        match fst (span_digits l'') with
        | [] => 0
        | ds => if neg then - digits_value ds else digits_value ds
        end
      else 0
  | [] => 0
  end.

(** The longest prefix that is a [StrUnsignedDecimalLiteral]. *)
Definition unsigned_literal (l : list ascii) : number :=
  if starts_with (list_ascii_of_string "Infinity") l then Inf false
  else
    let '(ip, rest) := span_digits l in
    let '(fp, rest') :=
      match rest with
      | "."%char :: r => span_digits r
      | _ => ([], rest)
      end in
    let dotted := match rest with "."%char :: _ => true | _ => false end in
    match ip, fp with
    | [], [] => NaN
    | _, _ =>
        let tail := if dotted then rest' else rest in
        of_decimal (digits_value (ip ++ fp))
                   (exponent_part tail - Z.of_nat (List.length fp))
    end.

(** [parseFloat(s)] for a string [s]. *)
Definition parseFloat (s : string) : number :=
  match trim_start (list_ascii_of_string s) with
  | "-"%char :: l => opp (unsigned_literal l)
  | "+"%char :: l => unsigned_literal l
  | l => unsigned_literal l
  end.

End Num.

(** ** JavaScript values and exceptions *)
Module Js.

(** The values a JSON-RPC request can carry, and [undefined] for what is
    absent. *)
Inductive value : Type :=
| JUndefined : value
| JNull : value
| JBool (b : bool) : value
| JNum (x : Num.number) : value
| JStr (s : string) : value
| JArr (items : list value) : value
| JObj (members : list (string * value)) : value.

(** [typeof v] *)
Definition typeof (v : value) : string :=
  match v with
  | JUndefined => "undefined"
  | JNull => "object"
  | JBool _ => "boolean"
  | JNum _ => "number"
  | JStr _ => "string"
  | JArr _ => "object"
  | JObj _ => "object"
  end.

(** [ToBoolean(v)]: what [!v] negates. *)
Definition truthy (v : value) : bool :=
  match v with
  | JUndefined => false
  | JNull => false
  | JBool b => b
  | JNum Num.NaN => false
  | JNum (Num.Fin k) => negb (k =? 0)
  | JNum (Num.Inf _) => true
  | JStr s => negb (String.eqb s "")
  | JArr _ => true
  | JObj _ => true
  end.

(** An argument mapping: an object with string keys, as opposed to the
    absent values, the primitive ones and arrays. *)
Definition is_mapping (v : value) : bool :=
  match v with JObj _ => true | _ => false end.

(** The member list of a parsed object keeps the last binding of a key. *)
Fixpoint lookup (key : string) (members : list (string * value))
  : option value :=
  match members with
  | [] => None
  | (k, v) :: rest =>
      match lookup key rest with
      | Some v' => Some v'
      | None => if String.eqb k key then Some v else None
      end
  end.

(** [v.key] for the keys the dispatcher reads, on a value that passed its
    guard (an object or an array): an own member of an object, [undefined]
    otherwise, none of those keys being an array index, [length] or a
    member of a prototype. *)
Definition get (v : value) (key : string) : value :=
  match v with
  | JObj members =>
      match lookup key members with
      | Some x => x
      | None => JUndefined
      end
  | _ => JUndefined
  end.

(** What a [throw] carries: an [Error] with its message, or any other
    value, kept as the text [String(v)] gives for it. *)
Inductive thrown : Type :=
| ErrorObj (message : string) : thrown
| NonError (text : string) : thrown.

(** [error instanceof Error ? error.message : String(error)] *)
Definition message_of (e : thrown) : string :=
  match e with
  | ErrorObj m => m
  | NonError t => t
  end.

(** A computation that returns or throws. *)
Inductive outcome (A : Type) : Type :=
| Returned (a : A) : outcome A
| Threw (e : thrown) : outcome A.

Arguments Returned {A} a.
Arguments Threw {A} e.

Definition bind {A B : Type} (m : outcome A) (f : A -> outcome B)
  : outcome B :=
  match m with
  | Returned a => f a
  | Threw e => Threw e
  end.

(** [try { body } catch (error) { handler(error) }] *)
Definition try_catch {A : Type} (body : outcome A)
  (handler : thrown -> outcome A) : outcome A :=
  match body with
  | Returned a => Returned a
  | Threw e => handler e
  end.

Definition map_outcome {A B : Type} (f : A -> B) (m : outcome A)
  : outcome B :=
  bind m (fun a => Returned (f a)).

(** How a promise settles under [Promise.allSettled]. *)
Inductive settled (A : Type) : Type :=
| Fulfilled (a : A) : settled A
| Rejected (e : thrown) : settled A.

Arguments Fulfilled {A} a.
Arguments Rejected {A} e.

(** The promise of an [async] function body. *)
Definition settle {A : Type} (m : outcome A) : settled A :=
  match m with
  | Returned a => Fulfilled a
  | Threw e => Rejected e
  end.

End Js.

Notation "x <- m ;; k" := (Js.bind m (fun x => k))
  (at level 61, m at next level, right associativity).

(** ** SaucerSwap quote ([SaucerSwapTools.getQuote]) *)
Module SaucerSwap.
Import Js.
Local Open Scope string_scope.

(** [String.prototype.toLowerCase] on code points below 256. *)
Definition lower_char (c : ascii) : ascii :=
  let n := nat_of_ascii c in
  if ((65 <=? n)%nat && (n <=? 90)%nat)
     || ((192 <=? n)%nat && (n <=? 222)%nat && negb (n =? 215)%nat)
  then ascii_of_nat (n + 32) else c.

Definition toLowerCase (s : string) : string :=
  string_of_list_ascii (List.map lower_char (list_ascii_of_string s)).

(** An entry of the token table; a field is [None] where the looked-up
    object has no such member. *)
Record token_info : Type := {
  symbol : option string;
  name : option string;
  decimals : option Z
}.

(** [getTokenInfo]: the three known tokens, else the [UNKNOWN] entry.  The
    table is an object literal, so the two lower-case keys it inherits
    ([constructor], [__proto__]) are found as well, with none of the three
    members. *)
Definition getTokenInfo (tokenAddress : string) : token_info :=
  let key := toLowerCase tokenAddress in
  if String.eqb key "0x0000000000000000000000000000000000000000" then
    {| symbol := Some "HBAR"; name := Some "Hedera"; decimals := Some 8 |}
  else if String.eqb key "0x0000000000000000000000000000000000000001" then
    {| symbol := Some "USDC"; name := Some "USD Coin"; decimals := Some 6 |}
  else if String.eqb key "0x0000000000000000000000000000000000000002" then
    {| symbol := Some "USDT"; name := Some "Tether USD"; decimals := Some 6 |}
  else if String.eqb key "constructor" || String.eqb key "__proto__" then
    {| symbol := None; name := None; decimals := None |}
  else
    {| symbol := Some "UNKNOWN"; name := Some "Unknown Token";
       decimals := Some 18 |}.

(** What the function takes from outside the repository: the ethers
    library, the router contract reached through it, the clock and the
    text of the engine's [RangeError] and [TypeError]. *)
Record world : Type := {
  (** [ethers.parseUnits(value, unit)] *)
  parseUnits : string -> option Z -> outcome Z;
  (** [ethers.formatUnits(value, unit)] *)
  formatUnits : Z -> option Z -> string;
  (** [routerContract.getAmountsOut(amountIn, path)]: a [uint[]] *)
  getAmountsOut : Z -> list string -> outcome (list N);
  (** [new Date().toISOString()] *)
  now : string;
  (** message of the [RangeError] of [BigInt(x)] for a non-integral [x] *)
  not_an_integer : Num.number -> string;
  (** message of the [TypeError] of [undefined * 1n] *)
  cannot_mix : string
}.

Record token_in : Type := {
  in_address : string;
  in_symbol : option string;
  in_amount : string;
  in_amountWei : option string
}.

Record token_out : Type := {
  out_address : string;
  out_symbol : option string;
  expectedAmount : string;
  out_amountWei : option string;
  minimumAmount : option string
}.

(** A quote object: the members of the SaucerSwap quote and of the mock
    quotes of the aggregator, [None] where the object has no such
    member. *)
Record quote : Type := {
  dex : option string;
  tokenIn : token_in;
  tokenOut : token_out;
  priceImpact : string;
  slippageTolerance : option Num.number;
  timestamp : option string
}.

(** [0.5], the default slippage tolerance. *)
Definition default_slippage : Num.number := Num.of_decimal 5 (-1).

(** [Math.floor((100 - slippageTolerance) * 100)] *)
Definition slippage_factor (slippageTolerance : Num.number) : Num.number :=
  Num.floor
    (Num.mul (Num.sub (Num.of_Z 100) slippageTolerance) (Num.of_Z 100)).

(** [amountOut * BigInt(factor) / BigInt(10000)] over BigInt: the division
    truncates. *)
Definition min_of (amountOut factor : Z) : Z :=
  Z.quot (amountOut * factor) 10000.

(** The [amountOutMin] line: [BigInt] throws on a factor that is not an
    integer (NaN or infinite), and an absent [amounts[1]] cannot be
    multiplied by a BigInt. *)
Definition amountOutMin (w : world) (amountOut : option N)
  (slippageTolerance : Num.number) : outcome Z :=
  match Num.to_BigInt (slippage_factor slippageTolerance) with
  | None =>
      Threw (ErrorObj (not_an_integer w (slippage_factor slippageTolerance)))
  | Some factor =>
      match amountOut with
      | None => Threw (ErrorObj (cannot_mix w))
      | Some out => Returned (min_of (Z.of_N out) factor)
      end
  end.

(** [calculatePriceImpact]: [(Number(amountIn) / 1e18) * 0.001], printed as
    a percentage with two decimals. *)
Definition calculatePriceImpact (amountIn : Z) : string :=
  let impact :=
    Num.mul (Num.div (Num.of_Z amountIn) (Num.of_Z (10 ^ 18)))
            (Num.of_decimal 1 (-3)) in
  (Num.toFixed 2 (Num.mul impact (Num.of_Z 100)) ++ "%")%string.

(** The body of the [try] block of [getQuote]. *)
Definition getQuote_body (w : world) (tokenIn_ tokenOut_ amount : string)
  (slippage : Num.number) : outcome quote :=
  let tokenInInfo := getTokenInfo tokenIn_ in
  let tokenOutInfo := getTokenInfo tokenOut_ in
  amountIn <- parseUnits w amount (decimals tokenInInfo) ;;
  amounts <- getAmountsOut w amountIn [tokenIn_; tokenOut_] ;;
  let amountOut := nth_error amounts 1 in
  outMin <- amountOutMin w amountOut slippage ;;
  match amountOut with
  | None => Threw (ErrorObj (cannot_mix w))
  | Some out =>
      Returned
        {| dex := None;
           tokenIn :=
             {| in_address := tokenIn_;
                in_symbol := symbol tokenInInfo;
                in_amount := amount;
                in_amountWei := Some (Num.string_of_Z amountIn) |};
           tokenOut :=
             {| out_address := tokenOut_;
                out_symbol := symbol tokenOutInfo;
                expectedAmount :=
                  formatUnits w (Z.of_N out) (decimals tokenOutInfo);
                out_amountWei := Some (Num.string_of_Z (Z.of_N out));
                minimumAmount :=
                  Some (formatUnits w outMin (decimals tokenOutInfo)) |};
           priceImpact := calculatePriceImpact amountIn;
           slippageTolerance := Some slippage;
           timestamp := Some (now w) |}
  end.

(** [getQuote(tokenIn, tokenOut, amount, slippageTolerance = 0.5)]: an
    absent tolerance takes the default, and whatever the body throws is
    thrown again as an [Error] with a prefixed message. *)
Definition getQuote (w : world) (tokenIn_ tokenOut_ amount : string)
  (slippageTolerance_ : option Num.number) : outcome quote :=
  let slippage :=
    match slippageTolerance_ with
    | Some s => s
    | None => default_slippage
    end in
  try_catch (getQuote_body w tokenIn_ tokenOut_ amount slippage)
    (fun error =>
       Threw (ErrorObj ("Failed to get quote: " ++ message_of error))).

End SaucerSwap.

(** ** Best rate across exchanges ([DeFiAggregator.findBestRate]) *)
Module DeFiAggregator.
Import Js SaucerSwap.
Local Open Scope string_scope.

Record result : Type := {
  bestQuote : quote;
  allQuotes : list quote;
  averageRate : string;
  savings : string;
  dexCount : nat;
  (** the [timestamp] member *)
  found_at : string
}.

(** [parseFloat(q.tokenOut.expectedAmount)] *)
Definition output (q : quote) : Num.number :=
  Num.parseFloat (expectedAmount (tokenOut q)).

(** The comparator given to [sort]: [bAmount - aAmount]. *)
Definition compare_quotes (a b : quote) : Num.number :=
  Num.sub (output b) (output a).

(** [Array.prototype.sort] with that comparator.  The sort is stable and
    puts [a] after [b] exactly when the comparator is positive on
    [(a, b)]; a [NaN] comparison counts as equal.  On the at most three
    elements of this array it is an insertion sort. *)
Fixpoint insert (a : quote) (sorted : list quote) : list quote :=
  match sorted with
  | [] => [a]
  | b :: rest =>
      if Num.gt0 (compare_quotes a b) then b :: insert a rest
      else a :: b :: rest
  end.

Definition sort (l : list quote) : list quote := fold_right insert [] l.

(** [result.status === "fulfilled" && result.value], then [.value]: a
    rejected promise and a [null] value are dropped. *)
Fixpoint validQuotes (quotes : list (settled (option quote)))
  : list quote :=
  match quotes with
  | [] => []
  | Fulfilled (Some q) :: rest => q :: validQuotes rest
  | _ :: rest => validQuotes rest
  end.

(** [reduce((sum, quote) => sum + parseFloat(...), 0)] *)
Definition sum_outputs (l : list quote) : Num.number :=
  fold_left (fun sum q => Num.add sum (output q)) l (Num.Fin 0).

(** [sum / validQuotes.length] *)
Definition average (l : list quote) : Num.number :=
  Num.div (sum_outputs l) (Num.of_Z (Z.of_nat (List.length l))).

(** [parseFloat(bestQuote.tokenOut.expectedAmount) - averageRate] *)
Definition savings_number (best : quote) (l : list quote) : Num.number :=
  Num.sub (output best) (average l).

(** The [try] block of [findBestRate] from the settled quote promises on.
    The second error stands for the [TypeError] of reading [tokenOut] on an
    absent first element. *)
Definition aggregate (now_ : string)
  (quotes : list (settled (option quote))) : outcome result :=
  let valid := validQuotes quotes in
  if (List.length valid =? 0)%nat
  then Threw (ErrorObj "No valid quotes found from any DEX")
  else
    let sorted := sort valid in
    match sorted with
    | [] =>
        Threw (ErrorObj
          "Cannot read properties of undefined (reading 'tokenOut')")
    | best :: _ =>
        Returned
          {| bestQuote := best;
             allQuotes := sorted;
             averageRate := Num.toFixed 6 (average sorted);
             savings := Num.toFixed 6 (savings_number best sorted);
             dexCount := List.length sorted;
             found_at := now_ |}
    end.

(** [findBestRate] once the three quote promises have settled: the [catch]
    throws an [Error] again with a prefixed message. *)
Definition findBestRate_settled (now_ : string)
  (quotes : list (settled (option quote))) : outcome result :=
  try_catch (aggregate now_ quotes)
    (fun error =>
       Threw (ErrorObj ("Failed to find best rate: " ++ message_of error))).

(** [getSaucerSwapQuote]: the quote, or [null] when [getQuote] throws. *)
Definition getSaucerSwapQuote (w : world) (tokenIn_ tokenOut_ amount : string)
  : outcome (option quote) :=
  try_catch
    (map_outcome Some (getQuote w tokenIn_ tokenOut_ amount None))
    (fun _ => Returned None).

(** The mock quote of an exchange at a fixed rate. *)
Definition mock_quote (dex_ : string) (rate : Num.number)
  (impact : string) (tokenIn_ tokenOut_ amount : string) : quote :=
  {| dex := Some dex_;
     tokenIn :=
       {| in_address := tokenIn_; in_symbol := None;
          in_amount := amount; in_amountWei := None |};
     tokenOut :=
       {| out_address := tokenOut_; out_symbol := None;
          expectedAmount :=
            Num.toFixed 6 (Num.mul (Num.parseFloat amount) rate);
          out_amountWei := None; minimumAmount := None |};
     priceImpact := impact;
     slippageTolerance := None;
     timestamp := None |}.

(** [getHeliSwapQuote]: rate [0.98]. *)
Definition getHeliSwapQuote (tokenIn_ tokenOut_ amount : string)
  : outcome (option quote) :=
  Returned (Some (mock_quote "HeliSwap" (Num.of_decimal 98 (-2)) "0.1%"
                    tokenIn_ tokenOut_ amount)).

(** [getPangolinQuote]: rate [0.97]. *)
Definition getPangolinQuote (tokenIn_ tokenOut_ amount : string)
  : outcome (option quote) :=
  Returned (Some (mock_quote "Pangolin" (Num.of_decimal 97 (-2)) "0.2%"
                    tokenIn_ tokenOut_ amount)).

(** The three promises handed to [Promise.allSettled]. *)
Definition quote_promises (w : world) (tokenIn_ tokenOut_ amount : string)
  : list (settled (option quote)) :=
  [ settle (getSaucerSwapQuote w tokenIn_ tokenOut_ amount);
    settle (getHeliSwapQuote tokenIn_ tokenOut_ amount);
    settle (getPangolinQuote tokenIn_ tokenOut_ amount) ].

(** [findBestRate(tokenIn, tokenOut, amount)]; [now_] is the clock read at
    the end. *)
Definition findBestRate (w : world) (now_ : string)
  (tokenIn_ tokenOut_ amount : string) : outcome result :=
  findBestRate_settled now_ (quote_promises w tokenIn_ tokenOut_ amount).

(** [a] may stand before [b] in a descending order of outputs. *)
Definition desc (a b : quote) : Prop :=
  Num.leb (output b) (output a) = true.

(** The output of the quote parses to a number other than [NaN]. *)
Definition numeric (q : quote) : Prop := Num.is_nan (output q) = false.


End DeFiAggregator.

(** ** The request handlers of the server ([src/index.ts]) *)
Module Server.
Import Js.
Local Open Scope string_scope.

(** *** The tool catalog *)

Record property : Type := {
  p_name : string;
  p_type : string;
  p_description : option string;
  p_default : option Num.number;
  p_enum : option (list string)
}.

Record tool : Type := {
  t_name : string;
  t_description : string;
  schema_type : string;
  properties : list property;
  required : list string
}.

Definition prop (n ty : string) : property :=
  {| p_name := n; p_type := ty; p_description := None;
     p_default := None; p_enum := None |}.

Definition str (n : string) : property := prop n "string".

Definition slippage_prop : property :=
  {| p_name := "slippageTolerance"; p_type := "number";
     p_description := None;
     p_default := Some (Num.of_decimal 5 (-1)); p_enum := None |}.

Definition tools : list tool :=
  [ {| t_name := "hedera_get_balance";
       t_description := "Get HBAR balance for a Hedera account";
       schema_type := "object";
       properties :=
         [ {| p_name := "accountId"; p_type := "string";
              p_description := Some "Hedera account ID";
              p_default := None; p_enum := None |} ];
       required := ["accountId"] |};
    {| t_name := "hedera_transfer_hbar";
       t_description := "Transfer HBAR between Hedera accounts";
       schema_type := "object";
       properties :=
         [str "fromAccountId"; str "toAccountId"; str "amount"; str "memo"];
       required := ["fromAccountId"; "toAccountId"; "amount"] |};
    {| t_name := "saucerswap_get_quote";
       t_description := "Get swap quote from SaucerSwap";
       schema_type := "object";
       properties :=
         [str "tokenIn"; str "tokenOut"; str "amount"; slippage_prop];
       required := ["tokenIn"; "tokenOut"; "amount"] |};
    {| t_name := "saucerswap_execute_swap";
       t_description := "Execute token swap on SaucerSwap";
       schema_type := "object";
       properties :=
         [str "tokenIn"; str "tokenOut"; str "amount"; slippage_prop;
          str "recipient"];
       required := ["tokenIn"; "tokenOut"; "amount"; "recipient"] |};
    {| t_name := "saucerswap_add_liquidity";
       t_description := "Add liquidity to SaucerSwap pool";
       schema_type := "object";
       properties :=
         [str "tokenA"; str "tokenB"; str "amountA"; str "amountB";
          slippage_prop];
       required := ["tokenA"; "tokenB"; "amountA"; "amountB"] |};
    {| t_name := "hts_create_token";
       t_description := "Create new HTS token";
       schema_type := "object";
       properties :=
         [str "name"; str "symbol"; prop "decimals" "number";
          str "initialSupply"; str "treasury"];
       required :=
         ["name"; "symbol"; "decimals"; "initialSupply"; "treasury"] |};
    {| t_name := "hts_mint_token";
       t_description := "Mint HTS tokens";
       schema_type := "object";
       properties := [str "tokenId"; str "amount"; str "recipient"];
       required := ["tokenId"; "amount"; "recipient"] |};
    {| t_name := "defi_find_best_rate";
       t_description := "Find best swap rate across multiple DEXs";
       schema_type := "object";
       properties := [str "tokenIn"; str "tokenOut"; str "amount"];
       required := ["tokenIn"; "tokenOut"; "amount"] |};
    {| t_name := "defi_optimize_portfolio";
       t_description := "Optimize DeFi portfolio for maximum yield";
       schema_type := "object";
       properties :=
         [ str "walletAddress";
           {| p_name := "riskTolerance"; p_type := "string";
              p_description := None; p_default := None;
              p_enum := Some ["low"; "medium"; "high"] |} ];
       required := ["walletAddress"] |} ].


(** *** Tool calls *)

(** The collaborators behind the nine [case] labels; each takes the
    members of [args] it is given, uncoerced, and returns its payload or
    throws.  [JSON_stringify] is [JSON.stringify(result, null, 2)]. *)
Record handlers (P : Type) : Type := {
  getBalance : value -> outcome P;
  transferHBAR : value -> value -> value -> value -> outcome P;
  getQuote : value -> value -> value -> value -> outcome P;
  executeSwap : value -> value -> value -> value -> value -> outcome P;
  addLiquidity : value -> value -> value -> value -> value -> outcome P;
  createToken : value -> value -> value -> value -> value -> outcome P;
  mintToken : value -> value -> value -> outcome P;
  findBestRate : value -> value -> value -> outcome P;
  optimizePortfolio : value -> value -> outcome P;
  JSON_stringify : P -> outcome string
}.

Arguments getBalance {P} _ _.
Arguments transferHBAR {P} _ _ _ _ _.
Arguments getQuote {P} _ _ _ _ _.
Arguments executeSwap {P} _ _ _ _ _ _.
Arguments addLiquidity {P} _ _ _ _ _ _.
Arguments createToken {P} _ _ _ _ _ _.
Arguments mintToken {P} _ _ _ _.
Arguments findBestRate {P} _ _ _ _.
Arguments optimizePortfolio {P} _ _ _.
Arguments JSON_stringify {P} _ _.

(** The [case] labels of the [switch]. *)
Inductive operation : Type :=
| HederaGetBalance
| HederaTransferHbar
| SaucerswapGetQuote
| SaucerswapExecuteSwap
| SaucerswapAddLiquidity
| HtsCreateToken
| HtsMintToken
| DefiFindBestRate
| DefiOptimizePortfolio.

(** [switch (name)]: the label strictly equal to [name], if any. *)
Definition select (name : string) : option operation :=
  if String.eqb name "hedera_get_balance" then Some HederaGetBalance
  else if String.eqb name "hedera_transfer_hbar" then Some HederaTransferHbar
  else if String.eqb name "saucerswap_get_quote" then Some SaucerswapGetQuote
  else if String.eqb name "saucerswap_execute_swap"
  then Some SaucerswapExecuteSwap
  else if String.eqb name "saucerswap_add_liquidity"
  then Some SaucerswapAddLiquidity
  else if String.eqb name "hts_create_token" then Some HtsCreateToken
  else if String.eqb name "hts_mint_token" then Some HtsMintToken
  else if String.eqb name "defi_find_best_rate" then Some DefiFindBestRate
  else if String.eqb name "defi_optimize_portfolio"
  then Some DefiOptimizePortfolio
  else None.

(** The statement under each label. *)
Definition run {P : Type} (h : handlers P) (op : operation) (args : value)
  : outcome P :=
  match op with
  | HederaGetBalance => getBalance h (get args "accountId")
  | HederaTransferHbar =>
      transferHBAR h (get args "fromAccountId") (get args "toAccountId")
        (get args "amount") (get args "memo")
  | SaucerswapGetQuote =>
      getQuote h (get args "tokenIn") (get args "tokenOut")
        (get args "amount") (get args "slippageTolerance")
  | SaucerswapExecuteSwap =>
      executeSwap h (get args "tokenIn") (get args "tokenOut")
        (get args "amount") (get args "slippageTolerance")
        (get args "recipient")
  | SaucerswapAddLiquidity =>
      addLiquidity h (get args "tokenA") (get args "tokenB")
        (get args "amountA") (get args "amountB")
        (get args "slippageTolerance")
  | HtsCreateToken =>
      createToken h (get args "name") (get args "symbol")
        (get args "decimals") (get args "initialSupply")
        (get args "treasury")
  | HtsMintToken =>
      mintToken h (get args "tokenId") (get args "amount")
        (get args "recipient")
  | DefiFindBestRate =>
      findBestRate h (get args "tokenIn") (get args "tokenOut")
        (get args "amount")
  | DefiOptimizePortfolio =>
      optimizePortfolio h (get args "walletAddress")
        (get args "riskTolerance")
  end.

Record content_item : Type := { type_ : string; text : string }.

Record response : Type := { content : list content_item }.

(** [{ content: [{ type: "text", text }] }] *)
Definition text_response (t : string) : response :=
  {| content := [ {| type_ := "text"; text := t |} ] |}.

(** [!args || typeof args !== 'object'] *)
Definition rejects (args : value) : bool :=
  negb (truthy args) || negb (String.eqb (typeof args) "object").

(** The [try] block of the [CallToolRequestSchema] handler. *)
Definition callTool_body {P : Type} (h : handlers P) (name : string)
  (args : value) : outcome response :=
  if rejects args then Threw (ErrorObj "Invalid arguments provided")
  else
    result <-
      match select name with
      | Some op => run h op args
      | None => Threw (ErrorObj ("Unknown tool: " ++ name))
      end ;;
    json <- JSON_stringify h result ;;
    Returned (text_response json).

(** The [CallToolRequestSchema] handler: whatever the [try] block throws
    becomes the text of an ordinary response.  The logger calls are left
    out: on parsed JSON and on [Error] objects they cannot throw. *)
Definition callTool {P : Type} (h : handlers P) (name : string)
  (args : value) : outcome response :=
  try_catch (callTool_body h name args)
    (fun error => Returned (text_response ("Error: " ++ message_of error))).

(** The handler table in which [defi_find_best_rate] is the aggregator
    over three quote sources [src], each settled for the given members of
    [args]; [inj] places its result among the payloads. *)
Definition with_aggregator {P : Type} (h : handlers P)
  (inj : DeFiAggregator.result -> P) (now_ : string)
  (src : value -> value -> value
         -> list (settled (option SaucerSwap.quote)))
  : handlers P :=
  {| getBalance := getBalance h;
     transferHBAR := transferHBAR h;
     getQuote := getQuote h;
     executeSwap := executeSwap h;
     addLiquidity := addLiquidity h;
     createToken := createToken h;
     mintToken := mintToken h;
     findBestRate := fun tokenIn_ tokenOut_ amount =>
       map_outcome inj
         (DeFiAggregator.findBestRate_settled now_
            (src tokenIn_ tokenOut_ amount));
     optimizePortfolio := optimizePortfolio h;
     JSON_stringify := JSON_stringify h |}.

End Server.

(** ** The number model against the IEEE-754 specification of the library

    [SpecFloat] gives the binary64 operations on mantissa and exponent;
    [to_spec] reads a number of this model in that format, and [agree]
    compares the four operations of both, up to the sign of zero. *)
Module Validation.
Import Num.

Definition to_spec (x : number) : spec_float :=
  match x with
  | NaN => S754_nan
  | Inf neg => S754_infinity neg
  | Fin k =>
      if k =? 0 then S754_zero false
      else
        let s := Z.max 0 (Z.log2 (Z.abs k) - 52) in
        S754_finite (k <? 0) (Z.to_pos (Z.abs k / 2 ^ s)) (s - 1074)
  end.

Definition unsigned_zero (x : spec_float) : spec_float :=
  match x with S754_zero _ => S754_zero false | _ => x end.

Definition same_float (a b : spec_float) : bool :=
  match unsigned_zero a, unsigned_zero b with
  | S754_nan, S754_nan => true
  | S754_zero _, S754_zero _ => true
  | S754_infinity s, S754_infinity t => Bool.eqb s t
  | S754_finite s m e, S754_finite t n f =>
      Bool.eqb s t && Pos.eqb m n && Z.eqb e f
  | _, _ => false
  end.

Definition agree (x y : number) : bool :=
  same_float (SFadd 53 1024 (to_spec x) (to_spec y)) (to_spec (add x y))
  && same_float (SFsub 53 1024 (to_spec x) (to_spec y)) (to_spec (sub x y))
  && same_float (SFmul 53 1024 (to_spec x) (to_spec y)) (to_spec (mul x y))
  && same_float (SFdiv 53 1024 (to_spec x) (to_spec y)) (to_spec (div x y)).

Definition pairs : list (string * string) :=
  [ ("0.1", "0.2"); ("16359789990196548", "3"); ("-7.5", "0.98");
    ("1.7e308", "1.7e308"); ("3", "5e-324"); ("Infinity", "-7.5") ]%string.

End Validation.

(** ** Sample collaborators *)
Module Samples.
Import Js SaucerSwap.
Local Open Scope string_scope.

(** A payload type with its rendering as JSON text. *)
Inductive payload : Type :=
| Text (s : string) : payload
| BestRate (r : DeFiAggregator.result) : payload.

Definition render (p : payload) : outcome string :=
  match p with
  | Text s => Returned s
  | BestRate r => Returned (DeFiAggregator.averageRate r)
  end.


(** Handlers that answer: the balance handler reports the type of the
    account identifier it was given. *)
Definition answering : Server.handlers payload :=
  let ok := Returned (Text "{}") in
  {| Server.getBalance := fun accountId =>
       Returned (Text ("balance of " ++ typeof accountId));
     Server.transferHBAR := fun _ _ _ _ => ok;
     Server.getQuote := fun _ _ _ _ => ok;
     Server.executeSwap := fun _ _ _ _ _ => ok;
     Server.addLiquidity := fun _ _ _ _ _ => ok;
     Server.createToken := fun _ _ _ _ _ => ok;
     Server.mintToken := fun _ _ _ => ok;
     Server.findBestRate := fun _ _ _ => ok;
     Server.optimizePortfolio := fun _ _ => ok;
     Server.JSON_stringify := render |}.

(** Three quote sources that all fail: a null quote and two
    rejections. *)
Definition failing_sources (tokenIn_ tokenOut_ amount : value)
  : list (settled (option quote)) :=
  [ Fulfilled None;
    Rejected (ErrorObj "HeliSwap unavailable");
    Rejected (ErrorObj "Pangolin unavailable") ].

(** A quote with a given output amount. *)
Definition quote_of (dex_ amountOut : string) : quote :=
  {| dex := Some dex_;
     tokenIn :=
       {| in_address := "0x0000000000000000000000000000000000000000";
          in_symbol := None; in_amount := "25"; in_amountWei := None |};
     tokenOut :=
       {| out_address := "0x0000000000000000000000000000000000000001";
          out_symbol := None; expectedAmount := amountOut;
          out_amountWei := None; minimumAmount := None |};
     priceImpact := "0.1%";
     slippageTolerance := None;
     timestamp := None |}.

(** A world without a network: the router call fails. *)
Definition offline : world :=
  {| parseUnits := fun _ _ => Returned 0;
     formatUnits := fun v _ => Num.string_of_Z v;
     getAmountsOut := fun _ _ => Threw (ErrorObj "network unreachable");
     now := "2025-01-01T00:00:00.000Z";
     not_an_integer := fun _ => "not an integer";
     cannot_mix := "Cannot mix BigInt and other types" |}.

(** A world whose router turns 25 HBAR into 24.5 USDC. *)
Definition online : world :=
  {| parseUnits := fun _ _ => Returned 2500000000;
     formatUnits := fun v _ => Num.string_of_Z v;
     getAmountsOut := fun amountIn _ => Returned [Z.to_N amountIn; 24500000%N];
     now := "2025-01-01T00:00:00.000Z";
     not_an_integer := fun _ => "not an integer";
     cannot_mix := "Cannot mix BigInt and other types" |}.

End Samples.

(** ** Values handed to [JSON.stringify] *)
Module Json.
Import Js.
Local Open Scope string_scope.

(** The results of the tools and the data of the log lines: trees of
    plain objects, arrays and primitives, BigInt included. *)
Inductive data : Type :=
| Undefined : data
| Null : data
| Bool (b : bool) : data
| Number (x : Num.number) : data
| Str (s : string) : data
| BigInt (n : Z) : data
| Arr (items : list data) : data
| Obj (members : list (string * data)) : data.

(** [ToBoolean(d)] *)
Definition truthy (d : data) : bool :=
  match d with
  | Undefined => false
  | Null => false
  | Bool b => b
  | Number Num.NaN => false
  | Number (Num.Fin k) => negb (k =? 0)%Z
  | Number (Num.Inf _) => true
  | Str s => negb (String.eqb s EmptyString)
  | BigInt n => negb (n =? 0)%Z
  | Arr _ => true
  | Obj _ => true
  end.

(** A BigInt is reached through the members and items of the value. *)
Fixpoint has_bigint (d : data) : bool :=
  match d with
  | BigInt _ => true
  | Arr items => existsb has_bigint items
  | Obj members => existsb (fun m => has_bigint (snd m)) members
  | _ => false
  end.

(** What the engine contributes: the layout of the JSON text and the
    message of the [TypeError] raised for a BigInt. *)
Record engine : Type := {
  render : data -> string;
  bigint_message : string
}.

(** [JSON.stringify(d, null, 2)] on such a tree: a [TypeError] as soon as
    a BigInt is reached, the text otherwise. *)
Definition stringify (e : engine) (d : data) : outcome string :=
  if has_bigint d then Threw (ErrorObj (bigint_message e))
  else Returned (render e d).

Definition opt_str (o : option string) : data :=
  match o with Some s => Str s | None => Undefined end.

Definition opt_num (o : option Num.number) : data :=
  match o with Some x => Number x | None => Undefined end.

End Json.

(** ** The logger ([Logger]) *)
Module Logger.
Import Js.
Local Open Scope string_scope.

Record logger : Type := { context : string; logLevel : string }.

(** [new Logger(context)]: the level is [process.env.LOG_LEVEL || "info"]. *)
Definition new_Logger (LOG_LEVEL : option string) (context_ : string)
  : logger :=
  {| context := context_;
     logLevel :=
       match LOG_LEVEL with
       | Some l => if String.eqb l EmptyString then "info" else l
       | None => "info"
       end |}.

Definition levels : list string := ["debug"; "info"; "warn"; "error"].

(** [Array.prototype.indexOf], counting from [i]: [-1] when absent. *)
Fixpoint indexOf (x : string) (l : list string) (i : Z) : Z :=
  match l with
  | [] => -1
  | y :: l' => if String.eqb y x then i else indexOf x l' (i + 1)
  end.

(** [shouldLog(level)] *)
Definition shouldLog (lg : logger) (level : string) : bool :=
  let currentLevelIndex := indexOf (logLevel lg) levels 0 in
  let messageLevelIndex := indexOf level levels 0 in
  (currentLevelIndex <=? messageLevelIndex)%Z.

(** [String.prototype.toUpperCase] on the ASCII letters, which is all the
    names of the levels are made of. *)
Definition upper_char (c : ascii) : ascii :=
  let n := nat_of_ascii c in
  if (97 <=? n)%nat && (n <=? 122)%nat then ascii_of_nat (n - 32) else c.

Definition toUpperCase (s : string) : string :=
  string_of_list_ascii (List.map upper_char (list_ascii_of_string s)).

Definition newline : string := String (ascii_of_nat 10) EmptyString.

(** [formatMessage(level, message, data)] at the time [timestamp_]. *)
Definition formatMessage (e : Json.engine) (timestamp_ : string)
  (lg : logger) (level message : string) (data : Json.data)
  : outcome string :=
  let baseMessage :=
    "[" ++ timestamp_ ++ "] [" ++ toUpperCase level ++ "] ["
        ++ context lg ++ "] " ++ message in
  if Json.truthy data
  then json <- Json.stringify e data ;;
       Returned (baseMessage ++ newline ++ json)
  else Returned baseMessage.

(** A logging method at [level]: the lines it writes to the console, none
    below the configured level. *)
Definition log (e : Json.engine) (timestamp_ : string) (lg : logger)
  (level message : string) (data : Json.data) : outcome (list string) :=
  if shouldLog lg level
  then line <- formatMessage e timestamp_ lg level message data ;;
       Returned [line]
  else Returned [].

Definition info (e : Json.engine) (timestamp_ : string) (lg : logger)
  (message : string) (data : Json.data) : outcome (list string) :=
  log e timestamp_ lg "info" message data.

(** [error(message, error)]: an [Error] is logged by its message and
    stack. *)
Definition error (e : Json.engine) (timestamp_ : string) (lg : logger)
  (message : string) (err : thrown) (stack : string)
  : outcome (list string) :=
  let errorData :=
    match err with
    | ErrorObj m =>
        Json.Obj [("message", Json.Str m); ("stack", Json.Str stack)]
    | NonError t => Json.Str t
    end in
  log e timestamp_ lg "error" message errorData.

End Logger.

(** ** The configuration manager ([src/config/config.ts]) *)
Module Config.
Import Js.
Local Open Scope string_scope.

(** The parsed environment, [z.infer<typeof EnvSchema>]. *)
Record config : Type := {
  OPENAI_API_KEY : string;
  OPENAI_API_URL : string;
  SMALL_OPENAI_MODEL : string;
  MEDIUM_OPENAI_MODEL : string;
  LARGE_OPENAI_MODEL : string;
  HEDERA_NETWORK : string;
  HEDERA_OPERATOR_ID : string;
  HEDERA_OPERATOR_KEY : string;
  SAUCERSWAP_API_URL : string;
  SAUCERSWAP_ROUTER_ADDRESS : string;
  MCP_SERVER_PORT : Num.number;
  MCP_SERVER_HOST : string;
  JWT_SECRET : string;
  ENCRYPTION_KEY : string;
  LOG_LEVEL : string;
  NODE_ENV : string
}.

(** [process.env] *)
Definition environment : Type := string -> option string.

(** An issue of a [ZodError]: the path to the variable and the message. *)
Record issue : Type := { path : list string; message : string }.

(** What [EnvSchema.parse] does with an environment: the parsed
    configuration, a [ZodError] with its issues, or something else
    thrown. *)
Inductive parsed : Type :=
| Valid (c : config) : parsed
| ZodError (issues : list issue) : parsed
| Other (e : thrown) : parsed.

(** [Array.prototype.join] on strings. *)
Fixpoint join (sep : string) (l : list string) : string :=
  match l with
  | [] => EmptyString
  | [x] => x
  | x :: rest => x ++ sep ++ join sep rest
  end.

(** The two libraries the manager calls: [dotenv.config()], which changes
    the environment, and the schema. *)
Record libraries : Type := {
  dotenv_config : environment -> environment;
  EnvSchema_parse : environment -> parsed
}.

(** The process as the manager sees it: the environment and the [config]
    field of the one instance. *)
Record process : Type := {
  env : environment;
  loaded : option config
}.

(** The process when the module has just been imported:
    [getInstance()] has built the manager, with [config = null]. *)
Definition imported (env_ : environment) : process :=
  {| env := env_; loaded := None |}.

(** [Config.load()] *)
Definition load (lib : libraries) (p : process) : outcome config * process :=
  match loaded p with
  | Some c => (Returned c, p)
  | None =>
      let env' := dotenv_config lib (env p) in
      match EnvSchema_parse lib env' with
      | Valid c => (Returned c, {| env := env'; loaded := Some c |})
      | ZodError issues =>
          let lines :=
            List.map (fun i => join "." (path i) ++ ": " ++ message i)
                     issues in
          (Threw (ErrorObj ("Configuration validation failed:"
                            ++ Logger.newline ++ join Logger.newline lines)),
           {| env := env'; loaded := None |})
      | Other e => (Threw e, {| env := env'; loaded := None |})
      end
  end.

(** [Config.get()] *)
Definition get (p : process) : outcome config :=
  match loaded p with
  | None => Threw (ErrorObj "Configuration not loaded. Call load() first.")
  | Some c => Returned c
  end.

Record hedera_config : Type := {
  h_network : string;
  h_operatorId : string;
  h_operatorKey : string;
  h_endpoints : list string
}.

(** [Config.getHederaConfig()] *)
Definition getHederaConfig (p : process) : outcome hedera_config :=
  config <- get p ;;
  Returned
    {| h_network := HEDERA_NETWORK config;
       h_operatorId := HEDERA_OPERATOR_ID config;
       h_operatorKey := HEDERA_OPERATOR_KEY config;
       h_endpoints :=
         if String.eqb (HEDERA_NETWORK config) "mainnet"
         then ["https://mainnet-public.mirrornode.hedera.com:443"]
         else ["https://testnet.mirrornode.hedera.com:443"] |}.

(** The object of [getSaucerSwapConfig()]: it has these three members
    and no other. *)
Record saucerswap_config : Type := {
  s_apiUrl : string;
  s_routerAddress : string;
  s_network : string
}.

(** [Config.getSaucerSwapConfig()] *)
Definition getSaucerSwapConfig (p : process) : outcome saucerswap_config :=
  config <- get p ;;
  Returned
    {| s_apiUrl := SAUCERSWAP_API_URL config;
       s_routerAddress := SAUCERSWAP_ROUTER_ADDRESS config;
       s_network := HEDERA_NETWORK config |}.

(** A run of [load] calls, each on the environment the caller has set
    before it ([None]: left as it is); the outcomes in order and the
    process afterwards. *)
Fixpoint loads (lib : libraries) (settings : list (option environment))
  (p : process) : list (outcome config) * process :=
  match settings with
  | [] => ([], p)
  | s :: rest =>
      let p1 :=
        match s with
        | Some e => {| env := e; loaded := loaded p |}
        | None => p
        end in
      let '(r, p2) := load lib p1 in
      let '(rs, p3) := loads lib rest p2 in
      (r :: rs, p3)
  end.

End Config.

(** ** HBAR balance and transfer ([HederaDeFiTools]) *)
Module Hedera.
Import Js.
Local Open Scope string_scope.

(** [receipt.status]: the one [Status.Success] object or another status,
    with the text [toString()] gives. *)
Inductive status : Type :=
| Success : status
| Failure (text : string) : status.

Definition status_text (s : status) : string :=
  match s with
  | Success => "SUCCESS"
  | Failure t => t
  end.

(** What a balance query answers: the texts of [hbars] and of
    [hbars.toTinybars()], and the keys of [tokens] when it is there. *)
Record account_balance : Type := {
  hbars : string;
  tinybars : string;
  tokens : option (list string)
}.

(** The Hedera SDK as the tools use it.  A transfer transaction is given
    by its HBAR transfers, its memo and its maximal fee in HBAR. *)
Record sdk : Type := {
  account : Type;
  private_key : Type;
  client : Type;
  hbar : Type;
  AccountId_fromString : string -> outcome account;
  PrivateKey_fromString : string -> outcome private_key;
  Client_forName : string -> outcome client;
  setOperator : client -> account -> private_key -> outcome client;
  balance_query : client -> account -> outcome account_balance;
  Hbar_fromString : string -> outcome hbar;
  Hbar_toString : hbar -> string;
  negated : hbar -> hbar;
  (** [transaction.execute(client)]: the text of the transaction id *)
  transfer_execute :
    client -> list (account * hbar) -> string -> Z -> outcome string;
  (** the receipt query for a transaction id *)
  receipt_query : client -> string -> outcome status
}.

Record tools (k : sdk) : Type := { the_client : client k }.
Arguments the_client {k} _.

(** [initializeClient()], the whole of the constructor apart from the
    logger.  The log lines of this class carry strings and numbers only
    and are left out. *)
Definition new_HederaDeFiTools (k : sdk) (p : Config.process)
  : outcome (tools k) :=
  config <- Config.getHederaConfig p ;;
  operatorId <- AccountId_fromString k (Config.h_operatorId config) ;;
  operatorKey <- PrivateKey_fromString k (Config.h_operatorKey config) ;;
  client_ <- Client_forName k (Config.h_network config) ;;
  client_ <- setOperator k client_ operatorId operatorKey ;;
  Returned {| the_client := client_ |}.

Record balance_result : Type := {
  b_accountId : string;
  b_balance : string;
  b_balanceInTinybars : string;
  b_tokens : Num.number;
  b_timestamp : string
}.

(** [getBalance(accountId)]; [now_] is the clock. *)
Definition getBalance (k : sdk) (t : tools k) (now_ : string)
  (accountId : string) : outcome balance_result :=
  try_catch
    (account_ <- AccountId_fromString k accountId ;;
     balance <- balance_query k (the_client t) account_ ;;
     Returned
       {| b_accountId := accountId;
          b_balance := hbars balance;
          b_balanceInTinybars := tinybars balance;
          b_tokens :=
            match tokens balance with
            | Some keys => Num.of_Z (Z.of_nat (List.length keys))
            | None => Num.of_Z 0
            end;
          b_timestamp := now_ |})
    (fun error =>
       Threw (ErrorObj ("Failed to get balance for account " ++ accountId
                        ++ ": " ++ message_of error))).

Record transfer_result : Type := {
  t_transactionId : string;
  t_status : string;
  t_fromAccountId : string;
  t_toAccountId : string;
  t_amount : string;
  t_memo : option string;
  t_timestamp : string;
  t_networkFee : string
}.

(** [memo || "HBAR transfer via Aya Wallet MCP"] *)
Definition memo_or_default (memo : option string) : string :=
  match memo with
  | Some m =>
      if String.eqb m EmptyString then "HBAR transfer via Aya Wallet MCP"
      else m
  | None => "HBAR transfer via Aya Wallet MCP"
  end.

(** [transferHBAR(fromAccountId, toAccountId, amount, memo)] *)
Definition transferHBAR (k : sdk) (t : tools k) (now_ : string)
  (fromAccountId toAccountId amount : string) (memo : option string)
  : outcome transfer_result :=
  try_catch
    (fromAccount <- AccountId_fromString k fromAccountId ;;
     toAccount <- AccountId_fromString k toAccountId ;;
     hbarAmount <- Hbar_fromString k amount ;;
     transactionId <-
       transfer_execute k (the_client t)
         [(fromAccount, negated k hbarAmount); (toAccount, hbarAmount)]
         (memo_or_default memo) 2 ;;
     receipt_status <- receipt_query k (the_client t) transactionId ;;
     match receipt_status with
     | Failure text =>
         Threw (ErrorObj ("Transaction failed with status: " ++ text))
     | Success =>
         Returned
           {| t_transactionId := transactionId;
              t_status := status_text receipt_status;
              t_fromAccountId := fromAccountId;
              t_toAccountId := toAccountId;
              t_amount := Hbar_toString k hbarAmount;
              t_memo := memo;
              t_timestamp := now_;
              t_networkFee := "0.0001" |}
     end)
    (fun error =>
       Threw (ErrorObj ("Failed to transfer HBAR: " ++ message_of error))).

End Hedera.

(** ** Swap and liquidity transactions ([SaucerSwapTools]) *)
Module SaucerSwapTools.
Import Js SaucerSwap.
Local Open Scope string_scope.

(** An argument handed to [encodeFunctionData]: a bigint, a number, a
    string or [undefined] in the place of an address, a list of
    addresses. *)
Inductive argument : Type :=
| Uint (n : Z) : argument
| Seconds (x : Num.number) : argument
| Address (a : option string) : argument
| Path (addresses : list string) : argument.

(** The ethers library as the class uses it: a provider for a URL, the
    router contract at an address seen through a provider, the encoder of
    the router interface, and the message of [parseUnits] on
    [undefined]. *)
Record ethers : Type := {
  provider : Type;
  JsonRpcProvider : string -> outcome provider;
  router : string -> provider -> world;
  encodeFunctionData : string -> list argument -> outcome string;
  invalid_value : string
}.

(** The engine and the clock in milliseconds ([Date.now()]). *)
Record runtime : Type := {
  engine : Json.engine;
  date_now : Z
}.

Record tools (eth : ethers) : Type := {
  logger_ : Logger.logger;
  config_ : Config.saucerswap_config;
  provider_ : provider eth
}.
Arguments logger_ {eth} _.
Arguments config_ {eth} _.
Arguments provider_ {eth} _.

(** [getRpcUrl()] *)
Definition getRpcUrl (config : Config.saucerswap_config) : string :=
  if String.eqb (Config.s_network config) "mainnet"
  then "https://mainnet.hashio.io/api"
  else "https://testnet.hashio.io/api".

(** The constructor. *)
Definition new_SaucerSwapTools (eth : ethers) (p : Config.process)
  : outcome (tools eth) :=
  let logger := Logger.new_Logger (Config.env p "LOG_LEVEL")
                  "SaucerSwapTools" in
  config <- Config.getSaucerSwapConfig p ;;
  provider0 <- JsonRpcProvider eth (getRpcUrl config) ;;
  Returned {| logger_ := logger; config_ := config; provider_ := provider0 |}.

(** The world a method of the class acts in: the router of the
    configuration through the provider of the instance. *)
Definition world_of {eth : ethers} (t : tools eth) : world :=
  router eth (Config.s_routerAddress (config_ t)) (provider_ t).

Record transaction : Type := {
  to_ : string;
  data_ : string;
  (** a bigint or the string ["0"] *)
  value_ : Json.data
}.

Record swap : Type := {
  s_transaction : transaction;
  s_quote : quote;
  s_recipient : string;
  s_deadline : Num.number;
  s_timestamp : string
}.

(** The objects as [JSON.stringify] meets them. *)
Definition quote_data (q : quote) : Json.data :=
  Json.Obj
    [ ("dex", Json.opt_str (dex q));
      ("tokenIn",
       Json.Obj
         [ ("address", Json.Str (in_address (tokenIn q)));
           ("symbol", Json.opt_str (in_symbol (tokenIn q)));
           ("amount", Json.Str (in_amount (tokenIn q)));
           ("amountWei", Json.opt_str (in_amountWei (tokenIn q))) ]);
      ("tokenOut",
       Json.Obj
         [ ("address", Json.Str (out_address (tokenOut q)));
           ("symbol", Json.opt_str (out_symbol (tokenOut q)));
           ("expectedAmount", Json.Str (expectedAmount (tokenOut q)));
           ("amountWei", Json.opt_str (out_amountWei (tokenOut q)));
           ("minimumAmount", Json.opt_str (minimumAmount (tokenOut q))) ]);
      ("priceImpact", Json.Str (priceImpact q));
      ("slippageTolerance", Json.opt_num (slippageTolerance q));
      ("timestamp", Json.opt_str (timestamp q)) ].

Definition transaction_data (x : transaction) : Json.data :=
  Json.Obj
    [ ("to", Json.Str (to_ x)); ("data", Json.Str (data_ x));
      ("value", value_ x) ].

Definition swap_data (r : swap) : Json.data :=
  Json.Obj
    [ ("transaction", transaction_data (s_transaction r));
      ("quote", quote_data (s_quote r));
      ("recipient", Json.Str (s_recipient r));
      ("deadline", Json.Number (s_deadline r));
      ("timestamp", Json.Str (s_timestamp r)) ].

(** [Math.floor(Date.now() / 1000) + 1200] *)
Definition deadline_of (rt : runtime) : Num.number :=
  Num.add (Num.floor (Num.div (Num.of_Z (date_now rt)) (Num.of_Z 1000)))
          (Num.of_Z 1200).

(** [symbol === "HBAR" ? 8 : 18] *)
Definition swap_decimals (symbol_ : option string) : option Z :=
  match symbol_ with
  | Some s => if String.eqb s "HBAR" then Some 8 else Some 18
  | None => Some 18
  end.

(** The [try] block of [executeSwap]. *)
Definition executeSwap_body {eth : ethers} (rt : runtime) (t : tools eth)
  (tokenIn_ tokenOut_ amount : string) (slippage : Num.number)
  (recipient : string) : outcome swap :=
  let w := world_of t in
  _ <- Logger.info (engine rt) (now w) (logger_ t) "SaucerSwap execute_swap"
         (Json.Obj
            [ ("tokenIn", Json.Str tokenIn_); ("tokenOut", Json.Str tokenOut_);
              ("amount", Json.Str amount);
              ("slippageTolerance", Json.Number slippage);
              ("recipient", Json.Str recipient) ]) ;;
  quote_ <- getQuote w tokenIn_ tokenOut_ amount (Some slippage) ;;
  let deadline := deadline_of rt in
  let path := [tokenIn_; tokenOut_] in
  amountIn <-
    parseUnits w amount (swap_decimals (in_symbol (tokenIn quote_))) ;;
  amountOutMin_ <-
    match minimumAmount (tokenOut quote_) with
    | Some m => parseUnits w m (swap_decimals (out_symbol (tokenOut quote_)))
    | None => Threw (ErrorObj (invalid_value eth))
    end ;;
  swapData <-
    encodeFunctionData eth "swapExactTokensForTokens"
      [ Uint amountIn; Uint amountOutMin_; Path path;
        Address (Some recipient); Seconds deadline ] ;;
  let result :=
    {| s_transaction :=
         {| to_ := Config.s_routerAddress (config_ t);
            data_ := swapData;
            value_ :=
              if String.eqb (toLowerCase tokenIn_)
                   "0x0000000000000000000000000000000000000000"
              then Json.BigInt amountIn else Json.Str "0" |};
       s_quote := quote_;
       s_recipient := recipient;
       s_deadline := deadline;
       s_timestamp := now w |} in
  _ <- Logger.info (engine rt) (now w) (logger_ t)
         "Swap transaction built successfully" (swap_data result) ;;
  Returned result.

(** [executeSwap(tokenIn, tokenOut, amount, slippageTolerance = 0.5,
    recipient)].  In the [catch], the error is logged by its message and
    stack, which cannot fail, and thrown again with a prefix. *)
Definition executeSwap {eth : ethers} (rt : runtime) (t : tools eth)
  (tokenIn_ tokenOut_ amount : string)
  (slippageTolerance_ : option Num.number) (recipient : string)
  : outcome swap :=
  let slippage :=
    match slippageTolerance_ with
    | Some s => s
    | None => default_slippage
    end in
  try_catch
    (executeSwap_body rt t tokenIn_ tokenOut_ amount slippage recipient)
    (fun error =>
       Threw (ErrorObj ("Failed to execute swap: " ++ message_of error))).

Record pool_token : Type := {
  p_address : string;
  p_symbol : option string;
  p_amount : string;
  p_amountWei : string;
  p_minimumAmount : string
}.

Record liquidity : Type := {
  l_transaction : transaction;
  l_tokenA : pool_token;
  l_tokenB : pool_token;
  l_slippageTolerance : Num.number;
  l_deadline : Num.number;
  l_timestamp : string
}.

Definition pool_token_data (x : pool_token) : Json.data :=
  Json.Obj
    [ ("address", Json.Str (p_address x));
      ("symbol", Json.opt_str (p_symbol x));
      ("amount", Json.Str (p_amount x));
      ("amountWei", Json.Str (p_amountWei x));
      ("minimumAmount", Json.Str (p_minimumAmount x)) ].

Definition liquidity_data (r : liquidity) : Json.data :=
  Json.Obj
    [ ("transaction", transaction_data (l_transaction r));
      ("pool",
       Json.Obj [ ("tokenA", pool_token_data (l_tokenA r));
                  ("tokenB", pool_token_data (l_tokenB r)) ]);
      ("slippageTolerance", Json.Number (l_slippageTolerance r));
      ("deadline", Json.Number (l_deadline r));
      ("timestamp", Json.Str (l_timestamp r)) ].

(** [desired * BigInt(Math.floor((100 - slippageTolerance) * 100)) /
    BigInt(10000)] *)
Definition amountMin (w : world) (desired : Z)
  (slippageTolerance_ : Num.number) : outcome Z :=
  match Num.to_BigInt (slippage_factor slippageTolerance_) with
  | None =>
      Threw (ErrorObj (not_an_integer w (slippage_factor slippageTolerance_)))
  | Some factor => Returned (min_of desired factor)
  end.

(** The [try] block of [addLiquidity].  The recipient handed to the
    encoder is [this.config.operatorId], a member the configuration object
    of this class does not have. *)
Definition addLiquidity_body {eth : ethers} (rt : runtime) (t : tools eth)
  (tokenA tokenB amountA amountB : string) (slippage : Num.number)
  : outcome liquidity :=
  let w := world_of t in
  _ <- Logger.info (engine rt) (now w) (logger_ t) "SaucerSwap add_liquidity"
         (Json.Obj
            [ ("tokenIn", Json.Str tokenA); ("tokenOut", Json.Str tokenB);
              ("amountA", Json.Str amountA); ("amountB", Json.Str amountB);
              ("slippageTolerance", Json.Number slippage) ]) ;;
  let tokenAInfo := getTokenInfo tokenA in
  let tokenBInfo := getTokenInfo tokenB in
  amountADesired <- parseUnits w amountA (decimals tokenAInfo) ;;
  amountBDesired <- parseUnits w amountB (decimals tokenBInfo) ;;
  amountAMin <- amountMin w amountADesired slippage ;;
  amountBMin <- amountMin w amountBDesired slippage ;;
  let deadline := deadline_of rt in
  addLiquidityData <-
    encodeFunctionData eth "addLiquidity"
      [ Address (Some tokenA); Address (Some tokenB);
        Uint amountADesired; Uint amountBDesired;
        Uint amountAMin; Uint amountBMin;
        Address None; Seconds deadline ] ;;
  let result :=
    {| l_transaction :=
         {| to_ := Config.s_routerAddress (config_ t);
            data_ := addLiquidityData;
            value_ := Json.Str "0" |};
       l_tokenA :=
         {| p_address := tokenA; p_symbol := symbol tokenAInfo;
            p_amount := amountA;
            p_amountWei := Num.string_of_Z amountADesired;
            p_minimumAmount :=
              formatUnits w amountAMin (decimals tokenAInfo) |};
       l_tokenB :=
         {| p_address := tokenB; p_symbol := symbol tokenBInfo;
            p_amount := amountB;
            p_amountWei := Num.string_of_Z amountBDesired;
            p_minimumAmount :=
              formatUnits w amountBMin (decimals tokenBInfo) |};
       l_slippageTolerance := slippage;
       l_deadline := deadline;
       l_timestamp := now w |} in
  _ <- Logger.info (engine rt) (now w) (logger_ t)
         "Add liquidity transaction built successfully"
         (liquidity_data result) ;;
  Returned result.

(** [addLiquidity(tokenA, tokenB, amountA, amountB,
    slippageTolerance = 0.5)] *)
Definition addLiquidity {eth : ethers} (rt : runtime) (t : tools eth)
  (tokenA tokenB amountA amountB : string)
  (slippageTolerance_ : option Num.number) : outcome liquidity :=
  let slippage :=
    match slippageTolerance_ with
    | Some s => s
    | None => default_slippage
    end in
  try_catch
    (addLiquidity_body rt t tokenA tokenB amountA amountB slippage)
    (fun error =>
       Threw (ErrorObj ("Failed to add liquidity: " ++ message_of error))).

End SaucerSwapTools.

(** ** String conversions of the engine used by the aggregator *)
Module Text.
Local Open Scope string_scope.

(** [s.replace(pattern, replacement)] for a string pattern and a
    replacement without [$]: the first occurrence is replaced. *)
Fixpoint replace (pattern replacement s : string) : string :=
  if String.prefix pattern s
  then replacement
       ++ substring (String.length pattern)
            (String.length s - String.length pattern) s
  else
    match s with
    | EmptyString => s
    | String c s' => String c (replace pattern replacement s')
    end.

Definition trim (l : list ascii) : list ascii :=
  List.rev (Num.trim_start (List.rev (Num.trim_start l))).

(** The value of a digit in a radix up to 16, if it is one. *)
Definition radix_digit (radix : Z) (c : ascii) : option Z :=
  let n := Z.of_nat (nat_of_ascii c) in
  let v :=
    if (48 <=? n)%Z && (n <=? 57)%Z then n - 48
    else if (97 <=? n)%Z && (n <=? 102)%Z then n - 87
    else if (65 <=? n)%Z && (n <=? 70)%Z then n - 55
    else 16 in
  if (v <? radix)%Z then Some v else None.

Fixpoint radix_value (radix : Z) (ds : list ascii) (acc : Z) : option Z :=
  match ds with
  | [] => Some acc
  | c :: ds' =>
      match radix_digit radix c with
      | Some v => radix_value radix ds' (radix * acc + v)
      | None => None
      end
  end.

(** [0x], [0o] and [0b] literals: digits must follow, and only digits. *)
Definition radix_literal (radix : Z) (ds : list ascii) : Num.number :=
  match ds with
  | [] => Num.NaN
  | _ =>
      match radix_value radix ds 0 with
      | Some v => Num.of_Z v
      | None => Num.NaN
      end
  end.

(** What follows the mantissa: nothing, or a whole exponent part. *)
Definition exponent_tail (l : list ascii) : option Z :=
  match l with
  | [] => Some 0
  | c :: l' =>
      if Ascii.eqb c "e" || Ascii.eqb c "E" then
        let '(neg, l'') :=
          match l' with
          | "+"%char :: r => (false, r)
          | "-"%char :: r => (true, r)
          | _ => (false, l')
          end in
        match Num.span_digits l'' with
        | (d :: ds, []) =>
            Some (if neg then - Num.digits_value (d :: ds)
                  else Num.digits_value (d :: ds))
        | _ => None
        end
      else None
  end.

(** A [StrUnsignedDecimalLiteral] that is the whole of [l]. *)
Definition decimal_literal (l : list ascii) : Num.number :=
  if String.eqb (string_of_list_ascii l) "Infinity" then Num.Inf false
  else
    let '(ip, rest) := Num.span_digits l in
    let '(fp, rest') :=
      match rest with
      | "."%char :: r => Num.span_digits r
      | _ => ([], rest)
      end in
    match ip, fp with
    | [], [] => Num.NaN
    | _, _ =>
        match exponent_tail rest' with
        | Some e =>
            Num.of_decimal (Num.digits_value (ip ++ fp))
                           (e - Z.of_nat (List.length fp))
        | None => Num.NaN
        end
    end.

(** [Number(s)] for a string [s] ([StringToNumber]): unlike [parseFloat],
    the whole trimmed string must be a numeric literal, and the empty
    string is [0]. *)
Definition to_number (s : string) : Num.number :=
  match trim (list_ascii_of_string s) with
  | [] => Num.Fin 0
  | "0"%char :: "x"%char :: ds | "0"%char :: "X"%char :: ds =>
      radix_literal 16 ds
  | "0"%char :: "o"%char :: ds | "0"%char :: "O"%char :: ds =>
      radix_literal 8 ds
  | "0"%char :: "b"%char :: ds | "0"%char :: "B"%char :: ds =>
      radix_literal 2 ds
  | "-"%char :: l => Num.opp (decimal_literal l)
  | "+"%char :: l => decimal_literal l
  | l => decimal_literal l
  end.

End Text.

(** ** Portfolio optimisation ([DeFiAggregator.optimizePortfolio]) *)
Module Portfolio.
Import Js.
Local Open Scope string_scope.

Record strategy : Type := {
  st_name : string;
  apy : string;
  risk : string;
  tvl : string;
  rewards : list string;
  requirements : list string;
  st_strategy : string
}.

(** The list of [getYieldFarmingStrategies]. *)
Definition strategies : list strategy :=
  [ {| st_name := "SaucerSwap HBAR-USDC LP"; apy := "12.5%";
       risk := "medium"; tvl := "$1,234,567"; rewards := ["SAUCE"; "HBAR"];
       requirements := ["Provide HBAR-USDC liquidity"];
       st_strategy := "Stake LP tokens in SaucerSwap farm" |};
    {| st_name := "HeliSwap HBAR-USDT LP"; apy := "15.2%";
       risk := "medium"; tvl := "$2,345,678"; rewards := ["HELI"];
       requirements := ["Provide HBAR-USDT liquidity"];
       st_strategy := "Stake LP tokens in HeliSwap farm" |};
    {| st_name := "Pangolin HBAR-ETH LP"; apy := "18.7%";
       risk := "high"; tvl := "$3,456,789"; rewards := ["PNG"];
       requirements := ["Provide HBAR-ETH liquidity"];
       st_strategy := "Stake LP tokens in Pangolin farm" |};
    {| st_name := "Staking HBAR"; apy := "6.5%";
       risk := "low"; tvl := "$10,000,000"; rewards := ["HBAR"];
       requirements := ["Stake HBAR"];
       st_strategy := "Stake HBAR for network rewards" |} ].

Record strategies_result : Type := {
  sr_strategies : list strategy;
  totalStrategies : Num.number;
  averageAPY : Num.number;
  sr_timestamp : string
}.

(** [getYieldFarmingStrategies()]; nothing in its [try] block throws. *)
Definition getYieldFarmingStrategies (now_ : string) : strategies_result :=
  {| sr_strategies := strategies;
     totalStrategies := Num.of_Z (Z.of_nat (List.length strategies));
     averageAPY :=
       Num.div
         (fold_left
            (fun sum s =>
               Num.add sum
                 (Num.parseFloat (Text.replace "%" EmptyString (apy s))))
            strategies (Num.Fin 0))
         (Num.of_Z (Z.of_nat (List.length strategies)));
     sr_timestamp := now_ |}.

(** The predicate of the [filter] in [getYieldOpportunities]. *)
Definition accepts (riskTolerance : string) (s : strategy) : bool :=
  if String.eqb riskTolerance "low" then String.eqb (risk s) "low"
  else if String.eqb riskTolerance "medium"
  then String.eqb (risk s) "low" || String.eqb (risk s) "medium"
  else if String.eqb riskTolerance "high" then true
  else String.eqb (risk s) "medium".

(** [getYieldOpportunities(riskTolerance)] *)
Definition getYieldOpportunities (now_ : string) (riskTolerance : string)
  : list strategy :=
  List.filter (accepts riskTolerance)
    (sr_strategies (getYieldFarmingStrategies now_)).

Record holding : Type := { amount : string; value : string }.

Record portfolio : Type := {
  HBAR : holding;
  USDC : holding;
  USDT : holding;
  totalValue : string
}.

(** [getCurrentPortfolio(walletAddress)]: the same portfolio for every
    wallet. *)
Definition getCurrentPortfolio (walletAddress : string) : portfolio :=
  {| HBAR := {| amount := "1000"; value := "$500" |};
     USDC := {| amount := "2000"; value := "$2000" |};
     USDT := {| amount := "1500"; value := "$1500" |};
     totalValue := "$4000" |}.

Record share : Type := { allocation : Num.number; sh_strategy : string }.

(** The shares of the three kinds of strategy. *)
Definition staking (riskTolerance : string) : Num.number :=
  if String.eqb riskTolerance "low" then Num.of_decimal 6 (-1)
  else if String.eqb riskTolerance "medium" then Num.of_decimal 4 (-1)
  else Num.of_decimal 2 (-1).

Definition farming (riskTolerance : string) : Num.number :=
  if String.eqb riskTolerance "low" then Num.of_decimal 3 (-1)
  else if String.eqb riskTolerance "medium" then Num.of_decimal 5 (-1)
  else Num.of_decimal 7 (-1).

Definition liquidity (riskTolerance : string) : Num.number :=
  if String.eqb riskTolerance "low" then Num.of_decimal 1 (-1)
  else if String.eqb riskTolerance "medium" then Num.of_decimal 1 (-1)
  else Num.of_decimal 1 (-1).

(** [calculateOptimalAllocation]: the object as the list of its members,
    in the order [Object.values] gives them. *)
Definition calculateOptimalAllocation (currentPortfolio : portfolio)
  (opportunities : list strategy) (riskTolerance : string)
  : list (string * share) :=
  let total :=
    Num.parseFloat
      (Text.replace "$" EmptyString (totalValue currentPortfolio)) in
  let half := Num.of_decimal 5 (-1) in
  [ ("HBAR",
     {| allocation := Num.mul (staking riskTolerance) total;
        sh_strategy := "Staking" |});
    ("HBAR-USDC LP",
     {| allocation := Num.mul (Num.mul (farming riskTolerance) total) half;
        sh_strategy := "Farming" |});
    ("HBAR-USDT LP",
     {| allocation := Num.mul (Num.mul (farming riskTolerance) total) half;
        sh_strategy := "Farming" |});
    ("Liquidity Pools",
     {| allocation := Num.mul (liquidity riskTolerance) total;
        sh_strategy := "Liquidity" |}) ].

(** The sum of the allocations, as the first [reduce] of
    [calculateEstimatedAPY] computes it. *)
Definition totalAllocation (allocation_ : list (string * share))
  : Num.number :=
  fold_left (fun sum item => Num.add sum (allocation (snd item)))
            allocation_ (Num.Fin 0).

Definition apy_of (strategy_ : string) : Num.number :=
  if String.eqb strategy_ "Staking" then Num.of_decimal 65 (-1)
  else if String.eqb strategy_ "Farming" then Num.of_Z 15
  else Num.of_Z 8.

(** [calculateEstimatedAPY(allocation)] *)
Definition calculateEstimatedAPY (allocation_ : list (string * share))
  : string :=
  let total := totalAllocation allocation_ in
  let weightedAPY :=
    fold_left
      (fun sum item =>
         Num.add sum
           (Num.mul (Num.div (allocation (snd item)) total)
                    (apy_of (sh_strategy (snd item)))))
      allocation_ (Num.Fin 0) in
  Num.toFixed 2 weightedAPY ++ "%".

Record action : Type := {
  a_action : string;
  a_token : string;
  a_amount : string;
  a_reason : string
}.

(** The [HBAR] member of the allocation object. *)
Definition HBAR_share (allocation_ : list (string * share)) : option share :=
  option_map snd
    (List.find (fun m => String.eqb (fst m) "HBAR") allocation_).

(** [generateRebalanceActions]: the comparison is between a string and a
    number, so the string is converted with [Number].  An allocation
    without an [HBAR] member makes the read of [allocation] throw. *)
Definition generateRebalanceActions (currentPortfolio : portfolio)
  (optimalAllocation : list (string * share)) : outcome (list action) :=
  match HBAR_share optimalAllocation with
  | None =>
      Threw (ErrorObj
        "Cannot read properties of undefined (reading 'allocation')")
  | Some h =>
      if Num.ltb (Text.to_number (amount (HBAR currentPortfolio)))
                 (allocation h)
      then
        Returned
          [ {| a_action := "buy"; a_token := "HBAR";
               a_amount :=
                 Num.toFixed 2
                   (Num.sub (allocation h)
                      (Num.parseFloat (amount (HBAR currentPortfolio))));
               a_reason := "Increase staking allocation" |} ]
      else Returned []
  end.

Record optimization : Type := {
  currentPortfolio_ : portfolio;
  yieldOpportunities : list strategy;
  optimalAllocation_ : list (string * share);
  riskTolerance_ : string;
  estimatedAPY : string;
  rebalanceActions : list action;
  o_timestamp : string
}.

(** [optimizePortfolio(walletAddress, riskTolerance = "medium")].  The log
    lines carry strings and numbers only and are left out. *)
Definition optimizePortfolio (now_ : string) (walletAddress : string)
  (riskTolerance : option string) : outcome optimization :=
  let tolerance :=
    match riskTolerance with Some r => r | None => "medium" end in
  try_catch
    (let current := getCurrentPortfolio walletAddress in
     let opportunities := getYieldOpportunities now_ tolerance in
     let optimal :=
       calculateOptimalAllocation current opportunities tolerance in
     actions <- generateRebalanceActions current optimal ;;
     Returned
       {| currentPortfolio_ := current;
          yieldOpportunities := opportunities;
          optimalAllocation_ := optimal;
          riskTolerance_ := tolerance;
          estimatedAPY := calculateEstimatedAPY optimal;
          rebalanceActions := actions;
          o_timestamp := now_ |})
    (fun error =>
       Threw (ErrorObj ("Failed to optimize portfolio: "
                        ++ message_of error))).

End Portfolio.

(** ** Arbitrage search ([DeFiAggregator.findArbitrageOpportunities]) *)
Module Arbitrage.
Import Js SaucerSwap.
Local Open Scope string_scope.

(** [getQuoteFromDEX(dexName, tokenIn, tokenOut, amount)] *)
Definition getQuoteFromDEX (w : world) (dexName : string)
  (tokenIn_ tokenOut_ amount : string) : outcome (option quote) :=
  if String.eqb dexName "SaucerSwap"
  then DeFiAggregator.getSaucerSwapQuote w tokenIn_ tokenOut_ amount
  else if String.eqb dexName "HeliSwap"
  then DeFiAggregator.getHeliSwapQuote tokenIn_ tokenOut_ amount
  else if String.eqb dexName "Pangolin"
  then DeFiAggregator.getPangolinQuote tokenIn_ tokenOut_ amount
  else Threw (ErrorObj ("Unknown DEX: " ++ dexName)).

Definition dexPairs : list (string * string) :=
  [ ("SaucerSwap", "HeliSwap"); ("SaucerSwap", "Pangolin");
    ("HeliSwap", "Pangolin") ].

Record opportunity : Type := {
  dex1 : string;
  dex2 : string;
  tokenA : string;
  tokenB : string;
  initialAmount : string;
  finalAmount : string;
  profit : Num.number;
  profitPercentage : Num.number;
  route : string
}.

(** The arrow of the route text (U+2192), in UTF-8. *)
Definition arrow : string :=
  String (ascii_of_nat 226)
    (String (ascii_of_nat 134) (String (ascii_of_nat 146) EmptyString)).

(** [quote.tokenOut] on what [getQuoteFromDEX] returned: a [TypeError] on
    [null]. *)
Definition tokenOut_of (q : option quote) : outcome token_out :=
  match q with
  | Some q' => Returned (tokenOut q')
  | None =>
      Threw (ErrorObj "Cannot read properties of null (reading 'tokenOut')")
  end.

(** [parseFloat(quote2.tokenOut.expectedAmount) - 1000] *)
Definition profit_of (final : string) : Num.number :=
  Num.sub (Num.parseFloat final) (Num.of_Z 1000).

(** [(profit / 1000) * 100] *)
Definition percentage_of (profit_ : Num.number) : Num.number :=
  Num.mul (Num.div profit_ (Num.of_Z 1000)) (Num.of_Z 100).

(** One round of the loop over [dexPairs]: the opportunity pushed, if
    any. *)
Definition check_pair (w : world) (tokenA_ tokenB_ : string)
  (minProfitThreshold : Num.number) (dexes : string * string)
  : outcome (list opportunity) :=
  quote1 <- getQuoteFromDEX w (fst dexes) tokenA_ tokenB_ "1000" ;;
  out1 <- tokenOut_of quote1 ;;
  quote2 <- getQuoteFromDEX w (snd dexes) tokenB_ tokenA_
              (expectedAmount out1) ;;
  out2 <- tokenOut_of quote2 ;;
  let profit_ := profit_of (expectedAmount out2) in
  let profitPercentage_ := percentage_of profit_ in
  if Num.leb minProfitThreshold profitPercentage_
  then
    Returned
      [ {| dex1 := fst dexes; dex2 := snd dexes;
           tokenA := tokenA_; tokenB := tokenB_;
           initialAmount := "1000";
           finalAmount := expectedAmount out2;
           profit := profit_;
           profitPercentage := profitPercentage_;
           route :=
             tokenA_ ++ " " ++ arrow ++ " " ++ tokenB_ ++ " (" ++ fst dexes
               ++ ") " ++ arrow ++ " " ++ tokenA_ ++ " (" ++ snd dexes
               ++ ")" |} ]
  else Returned [].

(** The loop: the opportunities in the order of the pairs; the first
    failure ends it.  The router is asked anew in every round: [w i] is
    the world as round [i] finds it. *)
Fixpoint check_pairs (w : nat -> world) (round : nat)
  (tokenA_ tokenB_ : string) (minProfitThreshold : Num.number)
  (pairs : list (string * string)) : outcome (list opportunity) :=
  match pairs with
  | [] => Returned []
  | dexes :: rest =>
      found <- check_pair (w round) tokenA_ tokenB_ minProfitThreshold
                 dexes ;;
      others <- check_pairs w (S round) tokenA_ tokenB_ minProfitThreshold
                  rest ;;
      Returned (found ++ others)%list
  end.

Record search : Type := {
  opportunities : list opportunity;
  totalOpportunities : Num.number;
  averageProfit : Num.number;
  s_timestamp : string
}.

(** [findArbitrageOpportunities(tokenA, tokenB, minProfitThreshold =
    0.5)]; the clock is read after the last round.  The log lines carry
    strings and numbers only and are left out. *)
Definition findArbitrageOpportunities (w : nat -> world)
  (tokenA_ tokenB_ : string) (minProfitThreshold : option Num.number)
  : outcome search :=
  let threshold :=
    match minProfitThreshold with
    | Some x => x
    | None => Num.of_decimal 5 (-1)
    end in
  try_catch
    (found <- check_pairs w 0 tokenA_ tokenB_ threshold dexPairs ;;
     let count := Num.of_Z (Z.of_nat (List.length found)) in
     Returned
       {| opportunities := found;
          totalOpportunities := count;
          averageProfit :=
            if Num.gt0 count
            then Num.div
                   (fold_left
                      (fun sum opp => Num.add sum (profitPercentage opp))
                      found (Num.Fin 0))
                   count
            else Num.Fin 0;
          s_timestamp := now (w (List.length dexPairs)) |})
    (fun error =>
       Threw (ErrorObj ("Failed to find arbitrage opportunities: "
                        ++ message_of error))).

End Arbitrage.

(** ** Order of the quotes as they arrive *)
Module Ranking.
Import SaucerSwap DeFiAggregator.

(** No quote of the list is followed at once by one with a larger
    output. *)
Fixpoint no_rise (l : list quote) : bool :=
  match l with
  | a :: ((b :: _) as rest) =>
      negb (Num.ltb (output a) (output b)) && no_rise rest
  | _ => true
  end.

End Ranking.

(** ** Start of the process ([src/index.ts]) *)
Module Startup.
Import Js.
Local Open Scope string_scope.

(** The MCP SDK: the server object, the registration of a handler for a
    request schema and the connection to the stdio transport. *)
Record mcp : Type := {
  server : Type;
  new_Server : outcome server;
  setRequestHandler : server -> string -> outcome server;
  connect : server -> outcome unit
}.

(** The fields of [AyaWalletMCPServer]; the aggregator is given by the
    [SaucerSwapTools] it builds for itself. *)
Record instance (m : mcp) (k : Hedera.sdk) (eth : SaucerSwapTools.ethers)
  : Type := {
  server_ : server m;
  hederaTools : Hedera.tools k;
  saucerSwapTools : SaucerSwapTools.tools eth;
  htsTools : Hedera.tools k;
  defiAggregator : SaucerSwapTools.tools eth
}.
Arguments server_ {m k eth} _.

(** [new HTSTools()]: its [initializeClient] is that of
    [HederaDeFiTools]. *)
Definition new_HTSTools (k : Hedera.sdk) (p : Config.process)
  : outcome (Hedera.tools k) :=
  Hedera.new_HederaDeFiTools k p.

(** [new DeFiAggregator()] *)
Definition new_DeFiAggregator (eth : SaucerSwapTools.ethers)
  (p : Config.process) : outcome (SaucerSwapTools.tools eth) :=
  SaucerSwapTools.new_SaucerSwapTools eth p.

(** The constructor of [AyaWalletMCPServer]. *)
Definition new_AyaWalletMCPServer (m : mcp) (k : Hedera.sdk)
  (eth : SaucerSwapTools.ethers) (p : Config.process)
  : outcome (instance m k eth) :=
  server0 <- new_Server m ;;
  hedera <- Hedera.new_HederaDeFiTools k p ;;
  saucer <- SaucerSwapTools.new_SaucerSwapTools eth p ;;
  hts <- new_HTSTools k p ;;
  aggregator <- new_DeFiAggregator eth p ;;
  server1 <- setRequestHandler m server0 "tools/list" ;;
  server2 <- setRequestHandler m server1 "tools/call" ;;
  Returned
    {| server_ := server2; hederaTools := hedera; saucerSwapTools := saucer;
       htsTools := hts; defiAggregator := aggregator |}.

(** How the process goes on after the module body: an exception nobody
    caught, [process.exit(code)], or the server connected and serving. *)
Inductive ending : Type :=
| Uncaught (e : thrown) : ending
| Exited (code : Z) : ending
| Serving : ending.

(** [start()]: whatever is thrown is logged and ends the process with
    code 1. *)
Definition start {m : mcp} {k : Hedera.sdk} {eth : SaucerSwapTools.ethers}
  (lib : Config.libraries) (i : instance m k eth) (p : Config.process)
  : ending :=
  match Config.load lib p with
  | (Threw _, _) => Exited 1
  | (Returned _, _) =>
      match connect m (server_ i) with
      | Threw _ => Exited 1
      | Returned _ => Serving
      end
  end.

(** The module body: [new AyaWalletMCPServer()], then [start()], in a
    process whose environment is [env_] and whose configuration manager
    has just been imported. *)
Definition main (lib : Config.libraries) (m : mcp) (k : Hedera.sdk)
  (eth : SaucerSwapTools.ethers) (env_ : Config.environment) : ending :=
  let p := Config.imported env_ in
  match new_AyaWalletMCPServer m k eth p with
  | Threw e => Uncaught e
  | Returned i => start lib i p
  end.

End Startup.

(** ** The swap handler behind the dispatcher *)
Module Wiring.
Import Js.
Local Open Scope string_scope.

(** An argument where the method signature has [string]. *)
Definition text_of (v : value) : option string :=
  match v with JStr s => Some s | _ => None end.

(** An argument where the signature has a [number] with a default. *)
Definition optional_number (v : value) : option (option Num.number) :=
  match v with
  | JNum x => Some (Some x)
  | JUndefined => Some None
  | _ => None
  end.

(** The handler table in which [saucerswap_execute_swap] is
    [SaucerSwapTools.executeSwap] and results are serialised by
    [JSON.stringify]; on arguments outside the signature of the method
    the handler of [h] stands in. *)
Definition with_swap {eth : SaucerSwapTools.ethers}
  (h : Server.handlers Json.data) (rt : SaucerSwapTools.runtime)
  (t : SaucerSwapTools.tools eth) : Server.handlers Json.data :=
  {| Server.getBalance := Server.getBalance h;
     Server.transferHBAR := Server.transferHBAR h;
     Server.getQuote := Server.getQuote h;
     Server.executeSwap := fun tokenIn_ tokenOut_ amount slippage recipient =>
       match text_of tokenIn_, text_of tokenOut_, text_of amount,
             optional_number slippage, text_of recipient with
       | Some ti, Some to, Some am, Some sl, Some rc =>
           map_outcome SaucerSwapTools.swap_data
             (SaucerSwapTools.executeSwap rt t ti to am sl rc)
       | _, _, _, _, _ =>
           Server.executeSwap h tokenIn_ tokenOut_ amount slippage recipient
       end;
     Server.addLiquidity := Server.addLiquidity h;
     Server.createToken := Server.createToken h;
     Server.mintToken := Server.mintToken h;
     Server.findBestRate := Server.findBestRate h;
     Server.optimizePortfolio := Server.optimizePortfolio h;
     Server.JSON_stringify := Json.stringify (SaucerSwapTools.engine rt) |}.

End Wiring.

(** ** Sample collaborators of the tools *)
Module Fixtures.
Import Js.
Local Open Scope string_scope.

(** An engine that prints every value as an empty object. *)
Definition plain_engine : Json.engine :=
  {| Json.render := fun _ => "{}";
     Json.bigint_message := "Do not know how to serialize a BigInt" |}.

Definition is_absent (a : SaucerSwapTools.argument) : bool :=
  match a with
  | SaucerSwapTools.Address None => true
  | _ => false
  end.

(** An ethers library whose encoder rejects an absent address and whose
    router is the sample router that answers. *)
Definition sample_ethers : SaucerSwapTools.ethers :=
  {| SaucerSwapTools.provider := unit;
     SaucerSwapTools.JsonRpcProvider := fun _ => Returned tt;
     SaucerSwapTools.router := fun _ _ => Samples.online;
     SaucerSwapTools.encodeFunctionData := fun _ args =>
       if existsb is_absent args
       then Threw (ErrorObj "invalid address")
       else Returned "0x38ed1739";
     SaucerSwapTools.invalid_value := "invalid BigNumberish value" |}.

(** The same library with a router that cannot be reached. *)
Definition unreachable_ethers : SaucerSwapTools.ethers :=
  {| SaucerSwapTools.provider := unit;
     SaucerSwapTools.JsonRpcProvider := fun _ => Returned tt;
     SaucerSwapTools.router := fun _ _ => Samples.offline;
     SaucerSwapTools.encodeFunctionData :=
       SaucerSwapTools.encodeFunctionData sample_ethers;
     SaucerSwapTools.invalid_value := "invalid BigNumberish value" |}.

Definition sample_runtime : SaucerSwapTools.runtime :=
  {| SaucerSwapTools.engine := plain_engine;
     SaucerSwapTools.date_now := 1735689600123 |}.

Definition sample_config : Config.saucerswap_config :=
  {| Config.s_apiUrl := "https://api.saucerswap.finance";
     Config.s_routerAddress := "0x00000000000000000000000000000000002e7a5d";
     Config.s_network := "testnet" |}.

Definition sample_tools (eth : SaucerSwapTools.ethers)
  (provider0 : SaucerSwapTools.provider eth) (level : string)
  : SaucerSwapTools.tools eth :=
  {| SaucerSwapTools.logger_ :=
       Logger.new_Logger (Some level) "SaucerSwapTools";
     SaucerSwapTools.config_ := sample_config;
     SaucerSwapTools.provider_ := provider0 |}.

(** A ledger SDK on which every account exists with 10 HBAR and every
    transfer ends with the status given. *)
Definition sample_sdk (receipt : Hedera.status) : Hedera.sdk :=
  {| Hedera.account := string;
     Hedera.private_key := string;
     Hedera.client := string;
     Hedera.hbar := string;
     Hedera.AccountId_fromString := fun s =>
       if String.eqb s "invalid-id"
       then Threw (ErrorObj "failed to parse entity id: invalid-id")
       else Returned s;
     Hedera.PrivateKey_fromString := fun s => Returned s;
     Hedera.Client_forName := fun s => Returned s;
     Hedera.setOperator := fun c _ _ => Returned c;
     Hedera.balance_query := fun _ _ =>
       Returned {| Hedera.hbars := "10 h"; Hedera.tinybars := "1000000000";
                   Hedera.tokens := None |};
     Hedera.Hbar_fromString := fun s => Returned s;
     Hedera.Hbar_toString := fun h => h;
     Hedera.negated := fun h => "-" ++ h;
     Hedera.transfer_execute := fun _ _ _ _ =>
       Returned "0.0.1001@1735689600.000000000";
     Hedera.receipt_query := fun _ _ => Returned receipt |}.

Definition sample_client (receipt : Hedera.status)
  : Hedera.tools (sample_sdk receipt) :=
  {| Hedera.the_client := "testnet" : Hedera.client (sample_sdk receipt) |}.

(** A schema that asks for the operator identifier only. *)
Definition configuration_of (operator : string) : Config.config :=
  {| Config.OPENAI_API_KEY := "key";
     Config.OPENAI_API_URL := "https://api.comput3.ai/v1";
     Config.SMALL_OPENAI_MODEL := "llama3:70b";
     Config.MEDIUM_OPENAI_MODEL := "llama3:70b";
     Config.LARGE_OPENAI_MODEL := "llama3:70b";
     Config.HEDERA_NETWORK := "testnet";
     Config.HEDERA_OPERATOR_ID := operator;
     Config.HEDERA_OPERATOR_KEY := "302e";
     Config.SAUCERSWAP_API_URL := "https://api.saucerswap.finance";
     Config.SAUCERSWAP_ROUTER_ADDRESS :=
       "0x00000000000000000000000000000000002e7a5d";
     Config.MCP_SERVER_PORT := Num.of_Z 3000;
     Config.MCP_SERVER_HOST := "localhost";
     Config.JWT_SECRET := "0123456789abcdef0123456789abcdef";
     Config.ENCRYPTION_KEY := "0123456789abcdef0123456789abcdef";
     Config.LOG_LEVEL := "info";
     Config.NODE_ENV := "test" |}.

Definition sample_libraries : Config.libraries :=
  {| Config.dotenv_config := fun e => e;
     Config.EnvSchema_parse := fun e =>
       match e "HEDERA_OPERATOR_ID" with
       | Some operator => Config.Valid (configuration_of operator)
       | None =>
           Config.ZodError
             [ {| Config.path := ["HEDERA_OPERATOR_ID"];
                  Config.message := "Required" |} ]
       end |}.

Definition no_variables : Config.environment := fun _ => None.

Definition with_operator (operator : string) : Config.environment :=
  fun key =>
    if String.eqb key "HEDERA_OPERATOR_ID" then Some operator else None.

(** The arguments of a swap of one HBAR for the second token. *)
Definition native_swap_arguments : value :=
  JObj [ ("tokenIn", JStr "0x0000000000000000000000000000000000000000");
         ("tokenOut", JStr "0x0000000000000000000000000000000000000001");
         ("amount", JStr "1");
         ("recipient", JStr "0x00000000000000000000000000000000000003e9") ].

(** Handlers that answer every call with an empty object. *)
Definition answering_data : Server.handlers Json.data :=
  let ok := Returned (Json.Obj []) in
  {| Server.getBalance := fun _ => ok;
     Server.transferHBAR := fun _ _ _ _ => ok;
     Server.getQuote := fun _ _ _ _ => ok;
     Server.executeSwap := fun _ _ _ _ _ => ok;
     Server.addLiquidity := fun _ _ _ _ _ => ok;
     Server.createToken := fun _ _ _ _ _ => ok;
     Server.mintToken := fun _ _ _ => ok;
     Server.findBestRate := fun _ _ _ => ok;
     Server.optimizePortfolio := fun _ _ => ok;
     Server.JSON_stringify := Json.stringify plain_engine |}.

End Fixtures.

(** * Properties *)

(** ** Rounding *)
Module NumFacts.
Import Num.

(** [rne] and the functions built on it do not depend on the fraction
    that represents a rational. *)
Lemma rne_comp (a b : Q) : (a == b)%Q -> rne a = rne b.
Proof.
  intros E. unfold rne.
  rewrite (Qfloor_comp _ _ E).
  assert (H : Qcompare (a - inject_Z (Qfloor b)) (1 # 2)
              = Qcompare (b - inject_Z (Qfloor b)) (1 # 2)).
  { apply Qcompare_comp; [ rewrite E; reflexivity | reflexivity ]. }
  rewrite H. reflexivity.
Qed.

Lemma rne_Z (z : Z) : rne (inject_Z z) = z.
Proof.
  unfold rne. rewrite Qfloor_Z.
  assert (H : Qcompare (inject_Z z - inject_Z z) (1 # 2) = Lt).
  { apply Qlt_alt. unfold Qminus. rewrite Qplus_opp_r. reflexivity. }
  rewrite H. reflexivity.
Qed.

Lemma rne_bounds (a : Q) : Qfloor a <= rne a <= Qfloor a + 1.
Proof.
  unfold rne. destruct (Qcompare _ _); try destruct (Z.even _); lia.
Qed.

(** Rounding to the nearest integer is monotone. *)
Lemma rne_le (a b : Q) : (a <= b)%Q -> rne a <= rne b.
Proof.
  intros L.
  pose proof (Qfloor_resp_le _ _ L) as F.
  destruct (Z.eq_dec (Qfloor a) (Qfloor b)) as [E | N].
  - unfold rne. rewrite E.
    generalize (inject_Z (Qfloor b)). intros f.
    destruct (Qcompare_spec (a - f) (1 # 2));
    destruct (Qcompare_spec (b - f) (1 # 2));
      try destruct (Z.even (Qfloor b)); try lia; exfalso; lra.
  - pose proof (rne_bounds a). pose proof (rne_bounds b). lia.
Qed.

Lemma pow2_pos (s : Z) : 0 <= s -> 0 < 2 ^ s.
Proof. intros. apply Z.pow_pos_nonneg; lia. Qed.

Lemma Qpow2_pos (s : Z) : 0 <= s -> (0 < inject_Z (2 ^ s))%Q.
Proof.
  intros H. change 0%Q with (inject_Z 0). rewrite <- Zlt_Qlt.
  now apply pow2_pos.
Qed.

Lemma ulp_exp_nonneg (a : Q) : 0 <= ulp_exp a.
Proof. unfold ulp_exp. lia. Qed.

Lemma ulp_exp_le (a b : Q) : (a <= b)%Q -> ulp_exp a <= ulp_exp b.
Proof.
  intros L. unfold ulp_exp.
  pose proof (Z.log2_le_mono _ _ (Qfloor_resp_le _ _ L)). lia.
Qed.

Lemma ulp_exp_comp (a b : Q) : (a == b)%Q -> ulp_exp a = ulp_exp b.
Proof. intros E. unfold ulp_exp. now rewrite (Qfloor_comp _ _ E). Qed.

Lemma Qfloor_nonneg (a : Q) : (0 <= a)%Q -> 0 <= Qfloor a.
Proof.
  intros H. change 0 with (Qfloor 0). now apply Qfloor_resp_le.
Qed.

(** Below the next power of two. *)
Lemma lt_pow2_log2 (f : Z) : 0 <= f -> f + 1 <= 2 ^ (Z.log2 f + 1).
Proof.
  intros H. destruct (Z.eq_dec f 0) as [-> | N].
  - vm_compute. discriminate.
  - pose proof (Z.log2_spec f ltac:(lia)) as [_ U].
    unfold Z.succ in U. lia.
Qed.

(** Scaled by its last place, a quantity has at most 53 bits before the
    point, and exactly 53 once the last place is above one unit. *)
Lemma scaled_upper (a : Q) :
  (0 <= a)%Q -> (a / inject_Z (2 ^ ulp_exp a) < inject_Z (2 ^ 53))%Q.
Proof.
  intros H.
  pose proof (ulp_exp_nonneg a) as S.
  apply Qlt_shift_div_r; [ now apply Qpow2_pos | ].
  rewrite <- inject_Z_mult, <- Z.pow_add_r by lia.
  apply Qlt_le_trans with (inject_Z (Qfloor a + 1)); [ apply Qlt_floor | ].
  rewrite <- Zle_Qle.
  pose proof (Qfloor_nonneg a H) as F.
  apply Z.le_trans with (2 ^ (Z.log2 (Qfloor a) + 1));
    [ now apply lt_pow2_log2 | ].
  apply Z.pow_le_mono_r; [ lia | ].
  unfold ulp_exp. lia.
Qed.

Lemma scaled_lower (a : Q) :
  0 < ulp_exp a -> (inject_Z (2 ^ 52) <= a / inject_Z (2 ^ ulp_exp a))%Q.
Proof.
  intros S.
  apply Qle_shift_div_l; [ apply Qpow2_pos; lia | ].
  rewrite <- inject_Z_mult, <- Z.pow_add_r by lia.
  apply Qle_trans with (inject_Z (Qfloor a)); [ | apply Qfloor_le ].
  rewrite <- Zle_Qle.
  unfold ulp_exp in *.
  assert (L : 52 < Z.log2 (Qfloor a)) by lia.
  assert (P : 0 < Qfloor a).
  { destruct (Z.lt_ge_cases 0 (Qfloor a)) as [? | G]; [ assumption | ].
    rewrite (Z.log2_nonpos _ G) in L. lia. }
  pose proof (Z.log2_spec _ P) as [Lo _].
  replace (52 + Z.max 0 (Z.log2 (Qfloor a) - 52)) with (Z.log2 (Qfloor a))
    by lia.
  exact Lo.
Qed.

Lemma round_mag_comp (a b : Q) : (a == b)%Q -> round_mag a = round_mag b.
Proof.
  intros E. unfold round_mag. rewrite (ulp_exp_comp _ _ E).
  f_equal. apply rne_comp. now rewrite E.
Qed.

Lemma rne_scaled_upper (a : Q) :
  (0 <= a)%Q -> rne (a / inject_Z (2 ^ ulp_exp a)) <= 2 ^ 53.
Proof.
  intros H. rewrite <- (rne_Z (2 ^ 53)).
  apply rne_le, Qlt_le_weak, scaled_upper, H.
Qed.

Lemma rne_scaled_lower (a : Q) :
  0 < ulp_exp a -> 2 ^ 52 <= rne (a / inject_Z (2 ^ ulp_exp a)).
Proof.
  intros H. rewrite <- (rne_Z (2 ^ 52)) at 1.
  apply rne_le, scaled_lower, H.
Qed.

Lemma rne_nonneg (a : Q) : (0 <= a)%Q -> 0 <= rne a.
Proof. intros H. rewrite <- (rne_Z 0). now apply rne_le. Qed.

Lemma round_mag_nonneg (a : Q) : (0 <= a)%Q -> 0 <= round_mag a.
Proof.
  intros H. unfold round_mag.
  pose proof (ulp_exp_nonneg a) as S.
  apply Z.mul_nonneg_nonneg; [ | pose proof (pow2_pos _ S); lia ].
  apply rne_nonneg. apply Qle_shift_div_l; [ now apply Qpow2_pos | lra ].
Qed.

(** Rounding to 53 bits is monotone. *)
Lemma round_mag_le (a b : Q) :
  (0 <= a)%Q -> (a <= b)%Q -> round_mag a <= round_mag b.
Proof.
  intros A L.
  assert (B : (0 <= b)%Q) by lra.
  pose proof (ulp_exp_le _ _ L) as S.
  pose proof (ulp_exp_nonneg a) as Sa.
  unfold round_mag.
  destruct (Z.eq_dec (ulp_exp a) (ulp_exp b)) as [E | N].
  - rewrite E. apply Z.mul_le_mono_nonneg_r.
    + pose proof (pow2_pos (ulp_exp b)). lia.
    + apply rne_le. apply Qmult_le_compat_r; [ exact L | ].
      apply Qinv_le_0_compat, Qlt_le_weak, Qpow2_pos. lia.
  - assert (Sb : 0 < ulp_exp b) by lia.
    pose proof (rne_scaled_upper a A) as U.
    pose proof (rne_scaled_lower b Sb) as Lb.
    apply Z.le_trans with (2 ^ 53 * 2 ^ ulp_exp a).
    + apply Z.mul_le_mono_nonneg_r; [ | exact U ].
      pose proof (pow2_pos (ulp_exp a)). lia.
    + apply Z.le_trans with (2 ^ 52 * 2 ^ ulp_exp b).
      * rewrite <- !Z.pow_add_r by lia.
        apply Z.pow_le_mono_r; lia.
      * apply Z.mul_le_mono_nonneg_r; [ | exact Lb ].
        pose proof (pow2_pos (ulp_exp b)). lia.
Qed.

(** An integer with at most 53 significant bits rounds to itself. *)
Lemma round_mag_multiple (c t : Z) :
  0 <= t -> ulp_exp (inject_Z (c * 2 ^ t)) = t ->
  round_mag (inject_Z (c * 2 ^ t)) = c * 2 ^ t.
Proof.
  intros T E. unfold round_mag. rewrite E. f_equal.
  rewrite <- (rne_Z c) at 2. apply rne_comp.
  rewrite inject_Z_mult. field.
  pose proof (Qpow2_pos t T). lra.
Qed.

Lemma round_mag_repr (m s : Z) :
  0 <= m <= 2 ^ 53 -> 0 <= s ->
  round_mag (inject_Z (m * 2 ^ s)) = m * 2 ^ s.
Proof.
  intros M S.
  destruct (Z.eq_dec m 0) as [-> | N0].
  { rewrite Z.mul_0_l. reflexivity. }
  assert (L : Z.log2 (m * 2 ^ s) = s + Z.log2 m)
    by (apply Z.log2_mul_pow2; lia).
  destruct (Z.eq_dec m (2 ^ 53)) as [-> | N1].
  - set (t := s + 1).
    replace (2 ^ 53 * 2 ^ s) with (2 ^ 52 * 2 ^ t).
    2:{ unfold t. rewrite Z.pow_add_r by lia. lia. }
    apply round_mag_multiple; [ unfold t; lia | ].
    unfold ulp_exp. rewrite Qfloor_Z.
    rewrite Z.log2_mul_pow2 by (unfold t; lia).
    change (Z.log2 (2 ^ 52)) with 52. unfold t. lia.
  - assert (B : Z.log2 m <= 52).
    { assert (Z.log2 m < 53); [ | lia ].
      apply Z.log2_lt_pow2; lia. }
    pose proof (Z.log2_nonneg m) as B0.
    set (t := Z.max 0 (s + Z.log2 m - 52)).
    assert (T : 0 <= t <= s) by (unfold t; lia).
    replace (m * 2 ^ s) with ((m * 2 ^ (s - t)) * 2 ^ t).
    2:{ rewrite <- Z.mul_assoc, <- Z.pow_add_r by lia. do 2 f_equal. lia. }
    apply round_mag_multiple; [ lia | ].
    unfold ulp_exp. rewrite Qfloor_Z.
    rewrite <- Z.mul_assoc, <- Z.pow_add_r by lia.
    replace (s - t + t) with s by lia.
    rewrite L. fold t. unfold t. lia.
Qed.

Lemma round_mag_form (a : Q) :
  (0 <= a)%Q ->
  exists m s, 0 <= m <= 2 ^ 53 /\ 0 <= s /\ round_mag a = m * 2 ^ s.
Proof.
  intros H.
  exists (rne (a / inject_Z (2 ^ ulp_exp a))), (ulp_exp a).
  repeat split.
  - apply rne_nonneg. apply Qle_shift_div_l.
    + apply Qpow2_pos, ulp_exp_nonneg.
    + lra.
  - now apply rne_scaled_upper.
  - apply ulp_exp_nonneg.
Qed.

Lemma round_mag_idem (a : Q) :
  (0 <= a)%Q -> round_mag (inject_Z (round_mag a)) = round_mag a.
Proof.
  intros H. destruct (round_mag_form a H) as (m & s & M & S & E).
  rewrite E. now apply round_mag_repr.
Qed.

(** Doubling keeps 53 significant bits. *)
Lemma round_mag_double (a : Q) :
  (0 <= a)%Q -> round_mag (inject_Z (2 * round_mag a)) = 2 * round_mag a.
Proof.
  intros H. destruct (round_mag_form a H) as (m & s & M & S & E).
  rewrite E.
  replace (2 * (m * 2 ^ s)) with (m * 2 ^ (s + 1)).
  2:{ rewrite Z.pow_add_r by lia. lia. }
  apply round_mag_repr; lia.
Qed.

(** *** Signed rounding *)

(** [round] is [sround] followed by the overflow test. *)
Lemma round_sround (u : Q) :
  round u =
  if overflow_at <=? Z.abs (sround u)
  then Inf (match Qcompare u 0 with Lt => true | _ => false end)
  else Fin (sround u).
Proof.
  unfold round, sround.
  destruct (Qcompare_spec u 0) as [E | L | G].
  - assert (A : (0 <= Qabs u)%Q) by apply Qabs_nonneg.
    rewrite (round_mag_comp (Qabs u) u) by (rewrite E; reflexivity).
    pose proof (round_mag_nonneg u ltac:(lra)).
    rewrite Z.abs_eq by assumption. reflexivity.
  - rewrite (round_mag_comp (Qabs u) (- u)) by (apply Qabs_neg; lra).
    pose proof (round_mag_nonneg (- u) ltac:(lra)).
    rewrite Z.abs_opp, Z.abs_eq by assumption. reflexivity.
  - rewrite (round_mag_comp (Qabs u) u) by (apply Qabs_pos; lra).
    pose proof (round_mag_nonneg u ltac:(lra)).
    rewrite Z.abs_eq by assumption. reflexivity.
Qed.

Lemma sround_comp (u v : Q) : (u == v)%Q -> sround u = sround v.
Proof.
  intros E. unfold sround.
  rewrite (Qcompare_comp u v E 0%Q 0%Q (Qeq_refl 0%Q)).
  destruct (Qcompare v 0); [ | f_equal | ]; apply round_mag_comp;
    rewrite E; reflexivity.
Qed.

Lemma round_comp (u v : Q) : (u == v)%Q -> round u = round v.
Proof.
  intros E. rewrite !round_sround, (sround_comp _ _ E).
  now rewrite (Qcompare_comp u v E 0%Q 0%Q (Qeq_refl 0%Q)).
Qed.

Lemma sround_le (u v : Q) : (u <= v)%Q -> sround u <= sround v.
Proof.
  intros L. unfold sround.
  destruct (Qcompare_spec u 0); destruct (Qcompare_spec v 0);
    try (exfalso; lra).
  all: try (apply round_mag_le; lra).
  all: try (pose proof (round_mag_nonneg (- u) ltac:(lra));
            pose proof (round_mag_nonneg v ltac:(lra)); lia).
  pose proof (round_mag_le (- v) (- u) ltac:(lra) ltac:(lra)). lia.
Qed.

Lemma sround_nonneg (u : Q) : (0 <= u)%Q -> 0 <= sround u.
Proof.
  intros H. change 0 with (sround 0) at 1. now apply sround_le.
Qed.

Lemma sround_canonical (k : Z) : canonical k -> sround (inject_Z k) = k.
Proof.
  unfold canonical, sround. intros C.
  destruct (Qcompare_spec (inject_Z k) 0) as [E | L | G].
  - change 0%Q with (inject_Z 0) in E. rewrite inject_Z_injective in E.
    subst k. reflexivity.
  - change 0%Q with (inject_Z 0) in L. rewrite <- Zlt_Qlt in L.
    rewrite <- inject_Z_opp. rewrite Z.abs_neq in C by lia.
    rewrite C. lia.
  - change 0%Q with (inject_Z 0) in G. rewrite <- Zlt_Qlt in G.
    rewrite Z.abs_eq in C by lia. exact C.
Qed.

Lemma sround_is_canonical (u : Q) : canonical (sround u).
Proof.
  unfold canonical, sround.
  destruct (Qcompare_spec u 0).
  - rewrite Z.abs_eq by (apply round_mag_nonneg; lra).
    apply round_mag_idem. lra.
  - rewrite Z.abs_opp, Z.abs_eq by (apply round_mag_nonneg; lra).
    apply round_mag_idem. lra.
  - rewrite Z.abs_eq by (apply round_mag_nonneg; lra).
    apply round_mag_idem. lra.
Qed.

Lemma canonical_double (k : Z) : canonical k -> canonical (2 * k).
Proof.
  unfold canonical. intros C.
  rewrite Z.abs_mul. change (Z.abs 2) with 2.
  rewrite <- C at 1 2. apply round_mag_double.
  change 0%Q with (inject_Z 0). rewrite <- Zle_Qle. lia.
Qed.

Lemma round_Fin_inv (u : Q) (k : Z) :
  round u = Fin k -> k = sround u /\ Z.abs k < overflow_at.
Proof.
  rewrite round_sround.
  destruct (overflow_at <=? Z.abs (sround u)) eqn:O; [ discriminate | ].
  intros [= <-]. split; [ reflexivity | lia ].
Qed.

Lemma round_canonical (k : Z) :
  canonical k -> Z.abs k < overflow_at -> round (inject_Z k) = Fin k.
Proof.
  intros C B. rewrite round_sround, (sround_canonical k C).
  destruct (overflow_at <=? Z.abs k) eqn:O; [ lia | reflexivity ].
Qed.

(** Rounding is idempotent. *)
Lemma round_idem (u : Q) (k : Z) :
  round u = Fin k -> round (inject_Z k) = Fin k.
Proof.
  intros H. apply round_Fin_inv in H as [-> B].
  apply round_canonical; [ apply sround_is_canonical | exact B ].
Qed.

End NumFacts.

(** ** Known values *)
Module ValidationFacts.
Import Num Validation.
Local Open Scope string_scope.

Ltac compute_each :=
  repeat match goal with |- _ /\ _ => split end; vm_compute; reflexivity.

(** Sums, differences, products and quotients agree with [SpecFloat], on
    normal, subnormal, overflowing and special operands. *)
Example agrees_with_SpecFloat :
  forallb (fun p => agree (parseFloat (fst p)) (parseFloat (snd p))) pairs
  = true.
Proof. vm_compute. reflexivity. Qed.

(** Results every JavaScript engine gives. *)
Example toFixed_known :
  toFixed 6 (add (parseFloat "0.1") (parseFloat "0.2")) = "0.300000" /\
  toFixed 2 (parseFloat "1.005") = "1.00" /\
  toFixed 0 (parseFloat "2.5") = "3" /\
  toFixed 20 (parseFloat "0.1") = "0.10000000000000000555" /\
  toFixed 6 (parseFloat "-1e-9") = "-0.000000" /\
  toFixed 6 (parseFloat "1e21") = "1e+21" /\
  toFixed 6 (parseFloat "123456789012345680000000")
    = "1.2345678901234569e+23" /\
  toFixed 6 (parseFloat "abc") = "NaN".
Proof. compute_each. Qed.

Example parseFloat_known :
  parseFloat "  24.5 HBAR" = of_decimal 245 (-1) /\
  parseFloat ".5e1" = of_Z 5 /\
  parseFloat "1e" = of_Z 1 /\
  parseFloat "-Infinityx" = Inf true /\
  parseFloat "9007199254740993" = of_Z 9007199254740992 /\
  parseFloat "." = NaN /\
  parseFloat "" = NaN.
Proof. compute_each. Qed.

(** The factor of the default tolerance, and of 0.07, where the exact
    product lies just below 9993. *)
Example slippage_factor_known :
  to_BigInt (SaucerSwap.slippage_factor SaucerSwap.default_slippage)
    = Some 9950 /\
  to_BigInt (SaucerSwap.slippage_factor (of_decimal 7 (-2))) = Some 9993.
Proof. compute_each. Qed.

End ValidationFacts.

(** ** Arithmetic on numbers *)
Module OpFacts.
Import Num NumFacts.

Lemma scale_pos : 0 < scale.
Proof. vm_compute. reflexivity. Qed.

Lemma overflow_pos : 0 < overflow_at.
Proof. vm_compute. reflexivity. Qed.

(** Parsing and arithmetic produce binary64 values. *)
Lemma round_double (u : Q) : double (round u).
Proof.
  rewrite round_sround.
  destruct (overflow_at <=? Z.abs (sround u)) eqn:O; simpl; [ exact I | ].
  split; [ apply sround_is_canonical | lia ].
Qed.

Lemma opp_double (x : number) : double x -> double (opp x).
Proof.
  destruct x as [ | neg | k ]; simpl; try exact (fun H => H).
  unfold canonical. now rewrite Z.abs_opp.
Qed.

Lemma of_decimal_double (d e : Z) : double (of_decimal d e).
Proof. unfold of_decimal. destruct (0 <=? e); apply round_double. Qed.

Lemma unsigned_literal_double (l : list ascii) : double (unsigned_literal l).
Proof.
  unfold unsigned_literal.
  destruct (starts_with _ l); [ exact I | ].
  destruct (span_digits l) as [ip rest].
  destruct rest as [ | c rest' ].
  - destruct ip; [ exact I | apply of_decimal_double ].
  - destruct (Ascii.eqb_spec c "."%char) as [-> | N].
    + destruct (span_digits rest') as [fp r].
      destruct ip, fp; try exact I; apply of_decimal_double.
    + destruct c as [[] [] [] [] [] [] [] []];
        try (destruct ip; [ exact I | apply of_decimal_double ]).
      now elim N.
Qed.

Lemma parseFloat_double (s : string) : double (parseFloat s).
Proof.
  unfold parseFloat.
  destruct (trim_start (list_ascii_of_string s)) as [ | c l ].
  - apply unsigned_literal_double.
  - destruct c as [[] [] [] [] [] [] [] []];
      try apply unsigned_literal_double.
    apply opp_double, unsigned_literal_double.
Qed.

Lemma of_Z_1 : of_Z 1 = Fin scale.
Proof. vm_compute. reflexivity. Qed.

Lemma of_Z_2 : of_Z 2 = Fin (2 * scale).
Proof. vm_compute. reflexivity. Qed.

Lemma of_Z_100 : of_Z 100 = Fin (100 * scale).
Proof. vm_compute. reflexivity. Qed.

Lemma canonical_100 : canonical (100 * scale).
Proof. vm_compute. reflexivity. Qed.

Lemma canonical_10000 : canonical (10000 * scale).
Proof. vm_compute. reflexivity. Qed.

Lemma below_overflow_10000 : 10000 * scale < overflow_at.
Proof. vm_compute. reflexivity. Qed.

(** [0 + x] is [x]. *)
Lemma add_zero_l (x : number) : double x -> add (Fin 0) x = x.
Proof.
  destruct x as [ | neg | k ]; try reflexivity.
  intros [C B]. simpl. now apply round_canonical.
Qed.

Lemma Qmake_scale (a : Z) :
  (a # Z.to_pos scale == inject_Z a / inject_Z scale)%Q.
Proof.
  rewrite Qmake_Qdiv. rewrite Z2Pos.id by apply scale_pos. reflexivity.
Qed.

Lemma Qscale_pos : (0 < inject_Z scale)%Q.
Proof.
  change 0%Q with (inject_Z 0). rewrite <- Zlt_Qlt. apply scale_pos.
Qed.

(** [x / 1] is [x]. *)
Lemma div_one (x : number) : double x -> div x (of_Z 1) = x.
Proof.
  rewrite of_Z_1.
  destruct x as [ | neg | k ]; try reflexivity.
  - intros _. simpl. pose proof scale_pos.
    destruct (scale <? 0) eqn:E; [ lia | ]. now destruct neg.
  - intros [C B]. unfold div. pose proof scale_pos.
    destruct (scale =? 0) eqn:E; [ lia | ].
    rewrite (round_comp _ (inject_Z k)); [ now apply round_canonical | ].
    rewrite inject_Z_mult. field. pose proof Qscale_pos. lra.
Qed.

(** Rounding an integer number of units keeps its sign. *)
Lemma gt0_round_Z (d : Z) : gt0 (round (inject_Z d)) = (0 <? d).
Proof.
  rewrite round_sround. unfold sround.
  pose proof overflow_pos as O.
  destruct (Qcompare_spec (inject_Z d) 0) as [E | L | G].
  - change 0%Q with (inject_Z 0) in E. rewrite inject_Z_injective in E.
    subst d. simpl. destruct (overflow_at <=? 0) eqn:X; [ lia | reflexivity ].
  - change 0%Q with (inject_Z 0) in L. rewrite <- Zlt_Qlt in L.
    pose proof (round_mag_nonneg (- inject_Z d)) as N.
    assert (P : (0 <= - inject_Z d)%Q).
    { rewrite <- inject_Z_opp. change 0%Q with (inject_Z 0).
      rewrite <- Zle_Qle. lia. }
    specialize (N P).
    destruct (overflow_at <=? _); simpl; lia.
  - change 0%Q with (inject_Z 0) in G. rewrite <- Zlt_Qlt in G.
    assert (P : 1 <= round_mag (inject_Z d)).
    { change 1 with (round_mag (inject_Z 1)) at 1.
      apply round_mag_le; [ discriminate | ].
      rewrite <- Zle_Qle. lia. }
    destruct (overflow_at <=? _); simpl; lia.
Qed.

Lemma nonneg_round (u : Q) :
  (0 <= u)%Q -> leb (Fin 0) (round u) = true.
Proof.
  intros H. rewrite round_sround.
  pose proof (sround_nonneg u H).
  destruct (Qcompare_spec u 0); try (exfalso; lra);
    destruct (overflow_at <=? _); simpl; try reflexivity; lia.
Qed.

(** Rounding below a canonical bound stays below it. *)
Lemma round_between (u : Q) (B : Z) :
  (0 <= u)%Q -> (u <= inject_Z B)%Q -> canonical B -> B < overflow_at ->
  exists k, round u = Fin k /\ 0 <= k <= B.
Proof.
  intros L U C O.
  pose proof (sround_nonneg u L) as N.
  pose proof (sround_le _ _ U) as M.
  rewrite (sround_canonical B C) in M.
  exists (sround u). split; [ | lia ].
  rewrite round_sround.
  destruct (overflow_at <=? Z.abs (sround u)) eqn:E; [ lia | reflexivity ].
Qed.

(** The comparator of the sort is positive exactly on an ascending
    pair. *)
Lemma gt0_sub (x y : number) :
  is_nan x = false -> is_nan y = false -> gt0 (sub y x) = ltb x y.
Proof.
  destruct x as [ | a | a ], y as [ | b | b ]; try discriminate;
    intros _ _.
  - now destruct a, b.
  - now destruct a.
  - now destruct b.
  - unfold sub, opp, add, ltb. rewrite gt0_round_Z.
    destruct (Z.ltb_spec 0 (b + - a)), (Z.ltb_spec a b); lia || reflexivity.
Qed.

Lemma ltb_leb (x y : number) : ltb x y = true -> leb x y = true.
Proof.
  destruct x as [ | a | a ], y as [ | b | b ]; simpl; try discriminate;
    try (now destruct a, b); try (intros; assumption).
  intros H. apply Z.leb_le. apply Z.ltb_lt in H. lia.
Qed.

Lemma not_ltb_leb (x y : number) :
  is_nan x = false -> is_nan y = false -> ltb x y = false -> leb y x = true.
Proof.
  destruct x as [ | a | a ], y as [ | b | b ]; simpl; try discriminate;
    intros _ _; try (now destruct a, b); try (now destruct a);
    try (now destruct b).
  intros H. apply Z.leb_le. apply Z.ltb_ge in H. lia.
Qed.

Lemma leb_trans (x y z : number) :
  leb x y = true -> leb y z = true -> leb x z = true.
Proof.
  destruct x as [ | a | a ], y as [ | b | b ], z as [ | c | c ]; simpl;
    try discriminate; try (now destruct a, b, c); try (now destruct a, b);
    try (now destruct b, c); try (now destruct a, c); try (now destruct a);
    try (now destruct b); try (now destruct c).
  intros H1 H2. apply Z.leb_le. apply Z.leb_le in H1, H2. lia.
Qed.
End OpFacts.

(** ** Sorting and aggregation *)
Module AggregatorFacts.
Import Js SaucerSwap DeFiAggregator OpFacts.

(** The sort permutes its input and, on outputs that are numbers, puts
    it in descending order. *)
Lemma insert_perm (a : quote) (l : list quote) :
  Permutation (insert a l) (a :: l).
Proof.
  induction l as [ | b l IH ]; simpl; [ reflexivity | ].
  destruct (Num.gt0 (compare_quotes a b)); [ | reflexivity ].
  rewrite IH. apply perm_swap.
Qed.

Lemma sort_perm (l : list quote) : Permutation (sort l) l.
Proof.
  induction l as [ | a l IH ]; simpl; [ reflexivity | ].
  rewrite insert_perm. now constructor.
Qed.

Lemma sort_length (l : list quote) : List.length (sort l) = List.length l.
Proof. apply Permutation_length, sort_perm. Qed.

Lemma insert_sorted (a : quote) (l : list quote) :
  numeric a -> Forall numeric l ->
  StronglySorted desc l -> StronglySorted desc (insert a l).
Proof.
  intros Na Nl S. induction S as [ | b l S IH F ]; simpl.
  - repeat constructor.
  - inversion Nl as [ | ? ? Nb Nl' ]; subst.
    unfold compare_quotes. rewrite (gt0_sub _ _ Na Nb).
    destruct (Num.ltb (output a) (output b)) eqn:C.
    + constructor; [ now apply IH | ].
      rewrite insert_perm. constructor; [ | exact F ].
      unfold desc. now apply ltb_leb.
    + assert (D : desc a b) by (unfold desc; now apply not_ltb_leb).
      constructor; [ now constructor | ].
      constructor; [ exact D | ].
      rewrite Forall_forall in F |- *. intros c Hc.
      unfold desc in *. eapply leb_trans; [ apply F, Hc | exact D ].
Qed.

Lemma sort_sorted (l : list quote) :
  Forall numeric l -> StronglySorted desc (sort l).
Proof.
  induction 1 as [ | a l Na Nl IH ]; simpl; [ constructor | ].
  apply insert_sorted; [ exact Na | | exact IH ].
  rewrite sort_perm. exact Nl.
Qed.



(** Once a quote survives, [findBestRate] returns. *)
Lemma aggregate_returns (now_ : string)
  (quotes : list (settled (option quote))) :
  validQuotes quotes <> [] ->
  exists best rest,
    sort (validQuotes quotes) = best :: rest /\
    aggregate now_ quotes =
    Returned
      {| bestQuote := best;
         allQuotes := best :: rest;
         averageRate := Num.toFixed 6 (average (best :: rest));
         savings := Num.toFixed 6 (savings_number best (best :: rest));
         dexCount := List.length (best :: rest);
         found_at := now_ |}.
Proof.
  intros NE. unfold aggregate.
  destruct (validQuotes quotes) as [ | q l ] eqn:V; [ now elim NE | ].
  change (List.length (q :: l) =? 0)%nat with false. cbv iota.
  pose proof (sort_length (q :: l)) as L.
  destruct (sort (q :: l)) as [ | best rest ]; [ discriminate L | ].
  exists best, rest. split; reflexivity.
Qed.

Lemma aggregate_none (now_ : string)
  (quotes : list (settled (option quote))) :
  validQuotes quotes = [] ->
  aggregate now_ quotes =
  Threw (ErrorObj "No valid quotes found from any DEX").
Proof. intros V. unfold aggregate. rewrite V. reflexivity. Qed.

Lemma validQuotes_none (quotes : list (settled (option quote))) :
  Forall (fun r => forall q, r <> Fulfilled (Some q)) quotes ->
  validQuotes quotes = [].
Proof.
  induction 1 as [ | r l H F IH ]; [ reflexivity | ].
  simpl. destruct r as [ [ q | ] | e ]; try exact IH.
  now elim (H q).
Qed.

End AggregatorFacts.

(** ** Dispatch *)
Module ServerFacts.
Import Js Server.
Local Open Scope string_scope.


Lemma select_known (name : string) :
  In name (List.map t_name tools) <-> exists op, select name = Some op.
Proof.
  unfold select. split.
  - intros H. simpl in H.
    repeat (destruct H as [<- | H]; [ eexists; reflexivity | ]).
    contradiction.
  - intros [op H].
    repeat (match type of H with
            | (if String.eqb ?a ?b then _ else _) = _ =>
                destruct (String.eqb_spec a b) as [-> | _];
                [ simpl; tauto | ]
            end).
    discriminate.
Qed.

Lemma select_unknown (name : string) :
  ~ In name (List.map t_name tools) -> select name = None.
Proof.
  intros N. destruct (select name) as [op | ] eqn:E; [ | reflexivity ].
  elim N. apply select_known. now exists op.
Qed.

(** The call handler returns on every input. *)
Lemma callTool_returns {P : Type} (h : handlers P) (name : string)
  (args : value) : exists r, callTool h name args = Returned r.
Proof.
  unfold callTool. destruct (callTool_body h name args); simpl;
    eexists; reflexivity.
Qed.

Lemma callTool_thrown {P : Type} (h : handlers P) (name : string)
  (args : value) (e : thrown) :
  callTool_body h name args = Threw e ->
  callTool h name args = Returned (text_response ("Error: " ++ message_of e)).
Proof. intros H. unfold callTool. now rewrite H. Qed.

(** A handler that throws under a known label, on an argument object. *)
Lemma run_thrown {P : Type} (h : handlers P) (name : string)
  (op : operation) (args : value) (e : thrown) :
  select name = Some op ->
  is_mapping args = true ->
  run h op args = Threw e ->
  callTool_body h name args = Threw e.
Proof.
  intros S M R. unfold callTool_body.
  destruct args; try discriminate M.
  change (rejects (JObj members)) with false. cbv iota.
  rewrite S, R. reflexivity.
Qed.

End ServerFacts.

(** ** The aggregate of one, two and three quotes *)

Import Js SaucerSwap DeFiAggregator.
Local Open Scope string_scope.

Module MeanFacts.
Import OpFacts AggregatorFacts.

Lemma output_double (q : quote) : Num.double (output q).
Proof. apply parseFloat_double. Qed.

(** The mean of a single output is that output. *)
Lemma average_single (q : quote) : average [q] = output q.
Proof.
  unfold average, sum_outputs. cbn [fold_left List.length Z.of_nat].
  change (Z.pos (Pos.of_succ_nat 0)) with 1%Z.
  rewrite add_zero_l by apply output_double.
  apply div_one, output_double.
Qed.

Lemma settled_returned (now_ : string)
  (quotes : list (settled (option quote))) (r : result) :
  findBestRate_settled now_ quotes = Returned r ->
  aggregate now_ quotes = Returned r.
Proof.
  unfold findBestRate_settled.
  destruct (aggregate now_ quotes); simpl; [ trivial | discriminate ].
Qed.

Lemma returned_settled (now_ : string)
  (quotes : list (settled (option quote))) (r : result) :
  aggregate now_ quotes = Returned r ->
  findBestRate_settled now_ quotes = Returned r.
Proof. intros H. unfold findBestRate_settled. now rewrite H. Qed.

End MeanFacts.

Module SavingsFacts.
Import Num NumFacts OpFacts AggregatorFacts MeanFacts.




(** The mean of one or two finite outputs does not exceed the first of
    them in descending order. *)
Lemma savings_one (x : quote) :
  is_finite (output x) = true ->
  leb (Fin 0) (savings_number x [x]) = true.
Proof.
  intros Fx. unfold savings_number. rewrite average_single.
  destruct (output x) as [ | | a ]; try discriminate Fx.
  unfold sub, opp, add. apply nonneg_round.
  change 0%Q with (inject_Z 0). rewrite <- Zle_Qle. lia.
Qed.

Lemma savings_two (x y : quote) :
  is_finite (output x) = true -> is_finite (output y) = true ->
  leb (output y) (output x) = true ->
  sum_outputs [x; y] <> Inf false ->
  leb (Fin 0) (savings_number x [x; y]) = true.
Proof.
  intros Fx Fy D NO.
  pose proof (output_double x) as Dx.
  unfold savings_number, average, sum_outputs in *.
  cbn [fold_left List.length] in *.
  change (Z.of_nat 2) with 2. rewrite of_Z_2.
  rewrite add_zero_l in * by exact Dx.
  destruct (output x) as [ | | a ]; try discriminate Fx.
  destruct (output y) as [ | | b ]; try discriminate Fy.
  destruct Dx as [Ca Ba].
  unfold leb in D. apply Z.leb_le in D.
  pose proof scale_pos as SP. pose proof Qscale_pos as QP.
  unfold add in *. rewrite round_sround in *.
  set (S := sround (inject_Z (a + b))) in *.
  assert (HS : S <= 2 * a).
  { rewrite <- (sround_canonical (2 * a)) by now apply canonical_double.
    apply sround_le. rewrite <- Zle_Qle. lia. }
  destruct (overflow_at <=? Z.abs S)%Z eqn:OS.
  - destruct (Qcompare (inject_Z (a + b)) 0); try (now elim NO).
    unfold div. destruct (2 * scale <? 0)%Z eqn:E; [ lia | ]. reflexivity.
  - unfold div. destruct (2 * scale =? 0)%Z eqn:E; [ lia | ].
    set (u := (inject_Z (S * scale) / inject_Z (2 * scale))%Q).
    assert (HU : (u <= inject_Z a)%Q).
    { unfold u. apply Qle_shift_div_r.
      - change 0%Q with (inject_Z 0). rewrite <- Zlt_Qlt. lia.
      - rewrite <- inject_Z_mult, <- Zle_Qle. nia. }
    pose proof (sround_le _ _ HU) as HA.
    rewrite (sround_canonical a Ca) in HA.
    rewrite round_sround.
    destruct (overflow_at <=? Z.abs (sround u))%Z eqn:OA.
    + destruct (Qcompare_spec u 0) as [E0 | L0 | G0]; try reflexivity.
      * pose proof (sround_nonneg u ltac:(lra)). lia.
      * pose proof (sround_nonneg u ltac:(lra)). lia.
    + unfold sub, opp, add. apply nonneg_round.
      change 0%Q with (inject_Z 0). rewrite <- Zle_Qle. lia.
Qed.

End SavingsFacts.

Module QuoteFacts.
Import Num NumFacts OpFacts.

(** A tolerance between 0 and 100 gives a factor between 0 and 10000. *)
Lemma slippage_factor_range (s : number) :
  leb (Fin 0) s = true -> leb s (of_Z 100) = true ->
  exists f, to_BigInt (slippage_factor s) = Some f /\ 0 <= f <= 10000.
Proof.
  rewrite of_Z_100. intros L U.
  destruct s as [ | neg | k ]; try discriminate L.
  { unfold leb in L, U. destruct neg; discriminate. }
  unfold leb in L, U. apply Z.leb_le in L, U.
  unfold slippage_factor. rewrite of_Z_100.
  unfold sub, opp, add.
  destruct (round_between (inject_Z (100 * scale + - k)) (100 * scale))
    as (t & -> & T).
  { change 0%Q with (inject_Z 0). rewrite <- Zle_Qle. lia. }
  { rewrite <- Zle_Qle. lia. }
  { apply canonical_100. }
  { pose proof below_overflow_10000. pose proof scale_pos. lia. }
  unfold mul.
  pose proof scale_pos as SP. pose proof Qscale_pos as QP.
  destruct (round_between (t * (100 * scale) # Z.to_pos scale)
              (10000 * scale)) as (v & -> & V).
  { rewrite Qmake_scale. apply Qle_shift_div_l; [ exact QP | ].
    rewrite Qmult_0_l. change 0%Q with (inject_Z 0).
    rewrite <- Zle_Qle. nia. }
  { rewrite Qmake_scale. apply Qle_shift_div_r; [ exact QP | ].
    rewrite <- inject_Z_mult, <- Zle_Qle. nia. }
  { apply canonical_10000. }
  { apply below_overflow_10000. }
  unfold floor, to_BigInt.
  rewrite Z.mod_mul by lia. cbn [Z.eqb].
  rewrite Z.div_mul by lia.
  exists (v / scale). split; [ reflexivity | ]. split.
  - apply Z.div_pos; lia.
  - apply Z.div_le_upper_bound; lia.
Qed.


End QuoteFacts.

Module FixedRates.
Import OpFacts AggregatorFacts MeanFacts SavingsFacts.

End FixedRates.


(** * The claims *)

Import OpFacts AggregatorFacts MeanFacts SavingsFacts.



(** C2: for a name outside the catalog and any argument object, the call
    returns the failure ["Error: Unknown tool: <name>"], never the text of
    a handler result. *)
Theorem C2_unknown_operation {P : Type} (h : Server.handlers P)
  (name : string) (members : list (string * value)) :
  ~ In name (List.map Server.t_name Server.tools) ->
  Server.callTool h name (JObj members) =
  Returned (Server.text_response ("Error: Unknown tool: " ++ name)).
Proof.
  intros N.
  apply ServerFacts.callTool_thrown
    with (e := ErrorObj ("Unknown tool: " ++ name)).
  unfold Server.callTool_body.
  change (Server.rejects (JObj members)) with false. cbv iota.
  rewrite (ServerFacts.select_unknown name N). reflexivity.
Qed.

(** [invoke("nonexistent_tool", {})]. *)
Lemma C2_witness :
  Server.callTool Samples.answering "nonexistent_tool" (JObj []) =
  Returned (Server.text_response "Error: Unknown tool: nonexistent_tool").
Proof.
  apply (C2_unknown_operation Samples.answering "nonexistent_tool" []).
  simpl. intros H.
  repeat (destruct H as [H | H]; [ discriminate H | ]). exact H.
Defined.

(** An array is not an argument mapping, yet it passes the guard: the
    balance handler is called, with an absent account identifier, and its
    result is returned. *)
Lemma C3_counterexample :
  is_mapping (JArr []) = false /\
  Server.callTool Samples.answering "hedera_get_balance" (JArr []) =
  Returned (Server.text_response "balance of undefined").
Proof. split; reflexivity. Qed.

(** C3, as the guard has it: with an absent argument ([undefined] or
    [null]) or an argument whose [typeof] is not ["object"] (a boolean, a
    number, a string), a call of any name, known or not, returns the
    failure ["Error: Invalid arguments provided"] whatever the handlers
    are; an array is not rejected by the guard. *)
Theorem C3_absent_or_primitive_arguments {P : Type} (h : Server.handlers P)
  (name : string) :
  (forall args : value,
     args = JUndefined \/ args = JNull \/ typeof args <> "object" ->
     Server.callTool h name args =
     Returned (Server.text_response "Error: Invalid arguments provided")) /\
  (forall items : list value, Server.rejects (JArr items) = false).
Proof.
  split; [ | reflexivity ].
  intros args H. apply ServerFacts.callTool_thrown with (e := ErrorObj _).
  unfold Server.callTool_body.
  assert (R : Server.rejects args = true).
  { destruct H as [-> | [-> | H]]; try reflexivity.
    unfold Server.rejects.
    destruct args; try reflexivity; try (now elim H);
      apply orb_true_r. }
  now rewrite R.
Qed.

(** A [null] argument and a string argument for the balance lookup. *)
Lemma C3_witness :
  Server.callTool Samples.answering "hedera_get_balance" JNull =
  Returned (Server.text_response "Error: Invalid arguments provided") /\
  Server.callTool Samples.answering "hedera_get_balance" (JStr "0.0.1001") =
  Returned (Server.text_response "Error: Invalid arguments provided").
Proof.
  split.
  - apply (proj1 (C3_absent_or_primitive_arguments Samples.answering
                    "hedera_get_balance") JNull).
    right. left. reflexivity.
  - apply (proj1 (C3_absent_or_primitive_arguments Samples.answering
                    "hedera_get_balance") (JStr "0.0.1001")).
    right. right. discriminate.
Defined.






(** C7: when none of the three quote promises is fulfilled with a quote,
    a [defi_find_best_rate] call returns the failure response of the
    aggregator's error; nothing is thrown past the dispatcher. *)
Theorem C7_all_sources_fail {P : Type} (h : Server.handlers P)
  (inj : DeFiAggregator.result -> P) (now_ : string)
  (src : value -> value -> value -> list (settled (option SaucerSwap.quote)))
  (members : list (string * value)) :
  Forall (fun r => forall q, r <> Fulfilled (Some q))
    (src (get (JObj members) "tokenIn") (get (JObj members) "tokenOut")
         (get (JObj members) "amount")) ->
  Server.callTool (Server.with_aggregator h inj now_ src)
    "defi_find_best_rate" (JObj members) =
  Returned (Server.text_response
    "Error: Failed to find best rate: No valid quotes found from any DEX").
Proof.
  intros F.
  apply ServerFacts.callTool_thrown with (e := ErrorObj _).
  apply ServerFacts.run_thrown with (op := Server.DefiFindBestRate);
    try reflexivity.
  cbn [Server.run Server.with_aggregator Server.findBestRate].
  unfold DeFiAggregator.findBestRate_settled.
  rewrite (AggregatorFacts.aggregate_none _ _
             (AggregatorFacts.validQuotes_none _ F)).
  reflexivity.
Qed.

(** A null SaucerSwap quote and two rejected promises. *)
Lemma C7_witness :
  Server.callTool
    (Server.with_aggregator Samples.answering Samples.BestRate
       "2025-01-01T00:00:00.000Z" Samples.failing_sources)
    "defi_find_best_rate"
    (JObj [("tokenIn", JStr "HBAR"); ("tokenOut", JStr "USDC");
           ("amount", JStr "25")]) =
  Returned (Server.text_response
    "Error: Failed to find best rate: No valid quotes found from any DEX").
Proof.
  apply (C7_all_sources_fail Samples.answering Samples.BestRate
           "2025-01-01T00:00:00.000Z" Samples.failing_sources
           [("tokenIn", JStr "HBAR"); ("tokenOut", JStr "USDC");
            ("amount", JStr "25")]).
  unfold Samples.failing_sources.
  repeat constructor; intros q H; discriminate H.
Defined.



(** The savings figure is not always at least 0: for the amount ["abc"]
    it is ["NaN"], and for three quotes of the same output
    16359789990196548 the floating-point mean is 16359789990196550 and
    the figure is ["-2.000000"]. *)
Lemma C9_counterexample :
  (exists r,
     findBestRate Samples.offline "2025-01-01T00:00:00.000Z"
       "HBAR" "USDC" "abc" = Returned r /\
     savings r = "NaN" /\
     Num.leb (Num.Fin 0) (Num.parseFloat (savings r)) = false) /\
  (exists r,
     findBestRate_settled "2025-01-01T00:00:00.000Z"
       [ Fulfilled (Some (Samples.quote_of "SaucerSwap" "16359789990196548"));
         Fulfilled (Some (Samples.quote_of "HeliSwap" "16359789990196548"));
         Fulfilled (Some (Samples.quote_of "Pangolin" "16359789990196548")) ]
     = Returned r /\
     averageRate r = "16359789990196550.000000" /\
     savings r = "-2.000000" /\
     Num.leb (Num.Fin 0) (Num.parseFloat (savings r)) = false).
Proof.
  split; eexists; (split; [ vm_compute; reflexivity | ]);
    repeat match goal with |- _ /\ _ => split end; vm_compute; reflexivity.
Qed.

(** C9, as far as it holds: in every result the savings figure is the
    output of the best quote minus the average, printed with six
    decimals; when at most two quotes survive, with finite outputs whose
    sum does not overflow to [Infinity], that difference is at least 0. *)
Theorem C9_savings_of_at_most_two (now_ : string)
  (quotes : list (settled (option quote))) (r : result) :
  findBestRate_settled now_ quotes = Returned r ->
  savings r =
    Num.toFixed 6 (Num.sub (output (bestQuote r)) (average (allQuotes r))) /\
  ((dexCount r <= 2)%nat ->
   Forall (fun q => Num.is_finite (output q) = true) (allQuotes r) ->
   sum_outputs (allQuotes r) <> Num.Inf false ->
   Num.leb (Num.Fin 0)
     (Num.sub (output (bestQuote r)) (average (allQuotes r))) = true).
Proof.
  intros H. apply settled_returned in H.
  destruct (validQuotes quotes) as [ | q0 l0 ] eqn:V.
  { rewrite (aggregate_none _ _ V) in H. discriminate H. }
  destruct (aggregate_returns now_ quotes) as (best & rest & S & A).
  { rewrite V. discriminate. }
  rewrite A in H. injection H as <-.
  cbn [dexCount allQuotes bestQuote savings].
  split; [ reflexivity | ]. intros Len Fin NO.
  assert (Nu : Forall numeric (validQuotes quotes)).
  { pose proof (sort_perm (validQuotes quotes)) as Pm. rewrite S in Pm.
    rewrite <- Pm.
    apply (Forall_impl _ (P := fun q => Num.is_finite (output q) = true));
      [ | exact Fin ].
    intros q Hq. unfold numeric. now destruct (output q). }
  pose proof (sort_sorted _ Nu) as Sd. rewrite S in Sd.
  inversion Fin as [ | ? ? Fb Fr ]; subst.
  destruct rest as [ | y [ | z rest ] ].
  - now apply savings_one.
  - inversion Fr as [ | ? ? Fy _ ]; subst.
    apply savings_two; try assumption.
    apply StronglySorted_inv in Sd as [_ F].
    inversion F; subst. assumption.
  - cbn in Len. lia.
Qed.

(** The two mock quotes for the amount ["25"]: savings ["0.125000"]. *)
Lemma C9_witness :
  exists r,
    findBestRate Samples.offline "2025-01-01T00:00:00.000Z"
      "HBAR" "USDC" "25" = Returned r /\
    savings r = "0.125000" /\
    savings r =
      Num.toFixed 6 (Num.sub (output (bestQuote r)) (average (allQuotes r))) /\
    Num.leb (Num.Fin 0)
      (Num.sub (output (bestQuote r)) (average (allQuotes r))) = true.
Proof.
  eexists. split; [ vm_compute; reflexivity | ].
  split; [ vm_compute; reflexivity | ].
  match goal with
  | |- savings ?r = _ /\ _ =>
      destruct (C9_savings_of_at_most_two "2025-01-01T00:00:00.000Z"
                  (quote_promises Samples.offline "HBAR" "USDC" "25") r)
        as [E N]
  end.
  - vm_compute. reflexivity.
  - split; [ exact E | ]. apply N.
    + vm_compute. lia.
    + repeat (constructor; [ vm_compute; reflexivity | ]). constructor.
    + intros O. vm_compute in O. discriminate O.
Defined.



(** * Further properties

    The classes around the dispatcher: the logger, the configuration
    manager and the start of the process, the ledger tools, the swap and
    liquidity transactions, and the other operations of the aggregator. *)

(** ** The dispatcher *)

Section DispatcherProperties.
Import Server.


End DispatcherProperties.

(** ** The logger *)

Module LoggerFacts.
Import Js Logger.
Local Open Scope string_scope.

Lemma indexOf_bounds x l i :
  indexOf x l i = -1
  \/ i <= indexOf x l i < i + Z.of_nat (List.length l).
Proof.
  revert i; induction l as [ | y l IH ]; intros i; [ now left | ].
  cbn [indexOf List.length].
  destruct (String.eqb y x); [ right; lia | ].
  destruct (IH (i + 1)) as [E | E]; [ now left | right; lia ].
Qed.

Lemma indexOf_absent x l i : ~ In x l -> indexOf x l i = -1.
Proof.
  revert i; induction l as [ | y l IH ]; intros i N; simpl;
    [ reflexivity | ].
  destruct (String.eqb_spec y x) as [E | E].
  - exfalso; apply N; now left.
  - apply IH; intros H; apply N; now right.
Qed.

Lemma indexOf_levels_range x : -1 <= indexOf x levels 0 <= 3.
Proof.
  destruct (indexOf_bounds x levels 0) as [E | E].
  - rewrite E; lia.
  - simpl List.length in E. lia.
Qed.

(** Data without a BigInt is logged without failure. *)
Lemma info_plain e ts lg message data :
  Json.has_bigint data = false ->
  exists lines, info e ts lg message data = Returned lines.
Proof.
  intros H. unfold info, log, formatMessage, Json.stringify.
  rewrite H.
  destruct (shouldLog lg "info"); [ | eauto ].
  destruct (Json.truthy data); simpl; eauto.
Qed.

Lemma opt_str_plain o : Json.has_bigint (Json.opt_str o) = false.
Proof. now destruct o. Qed.

Lemma opt_num_plain o : Json.has_bigint (Json.opt_num o) = false.
Proof. now destruct o. Qed.

End LoggerFacts.

Section LoggerProperties.
Import Logger LoggerFacts.

(** X2: a message of level [error] passes [shouldLog] whatever level the
    logger is configured with, the unknown ones included. *)
Lemma X2_error_always_logged (lg : logger) : shouldLog lg "error" = true.
Proof.
  unfold shouldLog.
  change (indexOf "error" levels 0) with 3.
  apply Z.leb_le. apply indexOf_levels_range.
Qed.

(** X3: a logger configured with a level that is none of [debug], [info],
    [warn] and [error] lets every message through, [debug] included:
    [indexOf] gives [-1] for it. *)
Lemma X3_unknown_level_logs_all (lg : logger) (level : string) :
  ~ In (logLevel lg) levels -> shouldLog lg level = true.
Proof.
  intros N. unfold shouldLog. rewrite (indexOf_absent _ _ 0 N).
  apply Z.leb_le. apply indexOf_levels_range.
Qed.

(** With [LOG_LEVEL=verbose], a [debug] message is logged. *)
Lemma X3_witness :
  shouldLog (new_Logger (Some "verbose") "SaucerSwapTools") "debug" = true.
Proof.
  apply (X3_unknown_level_logs_all
           (new_Logger (Some "verbose") "SaucerSwapTools") "debug").
  intros [H | [H | [H | [H | []]]]]; discriminate H.
Defined.

(** X4: a call of [info] throws in one case only: the configured level
    lets [info] through and the data is a truthy value that holds a
    BigInt; what is thrown is then the [TypeError] of [JSON.stringify]. *)
Lemma X4_info_fails_on_bigint_only (e : Json.engine) (ts : string)
  (lg : logger) (message : string) (data : Json.data) (err : thrown) :
  info e ts lg message data = Threw err
  <-> (shouldLog lg "info" = true /\ Json.truthy data = true
       /\ Json.has_bigint data = true
       /\ err = ErrorObj (Json.bigint_message e)).
Proof.
  unfold info, log, formatMessage, Json.stringify.
  destruct (shouldLog lg "info"), (Json.truthy data),
    (Json.has_bigint data); cbn [bind]; split;
    try discriminate;
    try (intros (A & B & C & D); discriminate).
  - intros E; injection E as <-. repeat split.
  - intros (_ & _ & _ & ->). reflexivity.
Qed.

(** At the default level, an object with a BigInt member. *)
Lemma X4_witness :
  info Fixtures.plain_engine "2025-01-01T00:00:00.000Z"
    (new_Logger None "SaucerSwapTools") "Swap transaction built"
    (Json.Obj [("value", Json.BigInt 100000000)])
  = Threw (ErrorObj "Do not know how to serialize a BigInt").
Proof.
  apply (X4_info_fails_on_bigint_only Fixtures.plain_engine
           "2025-01-01T00:00:00.000Z"
           (new_Logger None "SaucerSwapTools")
           "Swap transaction built"
           (Json.Obj [("value", Json.BigInt 100000000)])
           (ErrorObj "Do not know how to serialize a BigInt")).
  repeat split.
Defined.

End LoggerProperties.

(** ** The configuration manager and the start of the process *)

Module ConfigFacts.
Import Js Config.
Local Open Scope string_scope.

Lemma load_cached lib p c :
  loaded p = Some c -> load lib p = (Returned c, p).
Proof. intros H. unfold load. now rewrite H. Qed.

(** Once loaded, every later call returns the same configuration. *)
Lemma loads_cached lib settings p c :
  loaded p = Some c ->
  Forall (fun r => r = Returned c) (fst (loads lib settings p))
  /\ loaded (snd (loads lib settings p)) = Some c.
Proof.
  revert p; induction settings as [ | s rest IH ]; intros p H; simpl.
  - split; [ constructor | exact H ].
  - set (p1 := match s with
               | Some e => {| env := e; loaded := loaded p |}
               | None => p
               end).
    assert (H1 : loaded p1 = Some c) by (destruct s; exact H).
    rewrite (load_cached lib p1 c H1).
    destruct (loads lib rest p1) as [rs p3] eqn:E.
    specialize (IH p1 H1). rewrite E in IH. simpl in *.
    destruct IH as [A B].
    split; [ constructor; [ reflexivity | exact A ] | exact B ].
Qed.

(** A call on an unloaded manager loads it or throws and leaves it
    unloaded. *)
Lemma load_result lib p :
  loaded p = None ->
  (exists c, fst (load lib p) = Returned c
             /\ loaded (snd (load lib p)) = Some c)
  \/ (exists e, fst (load lib p) = Threw e)
     /\ loaded (snd (load lib p)) = None.
Proof.
  intros H. unfold load. rewrite H.
  destruct (EnvSchema_parse lib (dotenv_config lib (env p))); simpl.
  - left; eauto.
  - right; eauto.
  - right; eauto.
Qed.

End ConfigFacts.

Section ConfigProperties.
Import Config ConfigFacts.

(** X5: over any run of [load] calls on a manager that starts unloaded,
    whatever the environment is set to before each call, all the calls
    that return give one and the same configuration (that of the first
    call that passed validation), [get] returns it afterwards, and [get]
    throws ["Configuration not loaded. Call load() first."] when no call
    has returned. *)
Lemma X5_first_load_wins (lib : libraries)
  (settings : list (option environment)) (p : process) :
  loaded p = None ->
  (forall c c', In (Returned c) (fst (loads lib settings p)) ->
                In (Returned c') (fst (loads lib settings p)) -> c = c')
  /\ (forall c, In (Returned c) (fst (loads lib settings p)) ->
                get (snd (loads lib settings p)) = Returned c)
  /\ ((forall c, ~ In (Returned c) (fst (loads lib settings p))) ->
      get (snd (loads lib settings p))
      = Threw (ErrorObj "Configuration not loaded. Call load() first.")).
Proof.
  revert p; induction settings as [ | s rest IH ]; intros p H.
  - simpl. repeat split.
    + intros c c' [].
    + intros c [].
    + intros _. unfold get. now rewrite H.
  - cbn [loads].
    set (p1 := match s with
               | Some e => {| env := e; loaded := loaded p |}
               | None => p
               end).
    assert (H1 : loaded p1 = None) by (destruct s; exact H).
    destruct (load_result lib p1 H1) as [[c [R L]] | [[e R] L]].
    + destruct (load lib p1) as [r p2]; simpl in R, L; subst r.
      pose proof (loads_cached lib rest p2 c L) as [A B].
      destruct (loads lib rest p2) as [rs p3]; simpl in *.
      assert (K : forall c', Returned c = Returned c' \/ In (Returned c') rs
                             -> c' = c).
      { intros c' [E | I]; [ congruence | ].
        rewrite Forall_forall in A. specialize (A _ I). congruence. }
      repeat split.
      * intros a b Ia Ib. rewrite (K a Ia), (K b Ib). reflexivity.
      * intros a Ia. rewrite (K a Ia). unfold get. now rewrite B.
      * intros N. exfalso. apply (N c). now left.
    + destruct (load lib p1) as [r p2]; simpl in R, L; subst r.
      specialize (IH p2 L).
      destruct (loads lib rest p2) as [rs p3]; simpl in *.
      destruct IH as [A [B C]].
      repeat split.
      * intros a b [Ea | Ia] [Eb | Ib]; try discriminate. now apply A.
      * intros a [Ea | Ia]; [ discriminate | now apply B ].
      * intros N. apply C. intros c I. apply (N c). now right.
Qed.

(** A first call without the operator identifier fails, a second one with
    [0.0.1001] passes, a third one with [0.0.2002] changes nothing. *)
Lemma X5_witness :
  get
    (snd (loads Fixtures.sample_libraries
            [ None; Some (Fixtures.with_operator "0.0.1001");
              Some (Fixtures.with_operator "0.0.2002") ]
            (imported Fixtures.no_variables)))
  = Returned (Fixtures.configuration_of "0.0.1001").
Proof.
  apply (X5_first_load_wins Fixtures.sample_libraries
           [ None; Some (Fixtures.with_operator "0.0.1001");
             Some (Fixtures.with_operator "0.0.2002") ]
           (imported Fixtures.no_variables) eq_refl).
  right. left. reflexivity.
Defined.

End ConfigProperties.

Section StartupProperties.
Import Startup.

(** X6: the module body never reaches a serving server.  The constructor
    of [AyaWalletMCPServer] builds [HederaDeFiTools] first, whose
    [initializeClient] asks the configuration manager for the Hedera
    settings; [Config.load()] is called in [start()] only, after the
    constructor, so for every environment and every behaviour of the
    libraries the process ends with the uncaught error
    ["Configuration not loaded. Call load() first."] (or with what
    [new Server] threw). *)
Lemma X6_main_never_serves (lib : Config.libraries) (m : mcp)
  (k : Hedera.sdk) (eth : SaucerSwapTools.ethers)
  (env_ : Config.environment) :
  main lib m k eth env_
  = match new_Server m with
    | Threw e => Uncaught e
    | Returned _ =>
        Uncaught (ErrorObj "Configuration not loaded. Call load() first.")
    end.
Proof.
  unfold main, new_AyaWalletMCPServer.
  destruct (new_Server m); reflexivity.
Qed.

End StartupProperties.

(** ** The ledger tools *)

Section HederaProperties.
Import Hedera.

(** X7: a balance that [getBalance] returns carries the account
    identifier it was asked for, unchanged, beside the balance texts of
    the query; and whatever it throws is the failure of the identifier
    parser or of the query, reported as
    ["Failed to get balance for account <id>: <cause>"]. *)
Lemma X7_getBalance_cases (k : sdk) (t : tools k) (now_ accountId : string) :
  (forall r, getBalance k t now_ accountId = Returned r ->
             b_accountId r = accountId
             /\ exists a b, AccountId_fromString k accountId = Returned a
                  /\ balance_query k (the_client t) a = Returned b
                  /\ b_balance r = hbars b
                  /\ b_balanceInTinybars r = tinybars b)
  /\ (forall e, getBalance k t now_ accountId = Threw e ->
        exists cause,
          (AccountId_fromString k accountId = Threw cause
           \/ exists a, AccountId_fromString k accountId = Returned a
                /\ balance_query k (the_client t) a = Threw cause)
          /\ e = ErrorObj ("Failed to get balance for account " ++ accountId
                           ++ ": " ++ message_of cause)).
Proof.
  unfold getBalance.
  destruct (AccountId_fromString k accountId) as [a | c] eqn:A; simpl.
  - destruct (balance_query k (the_client t) a) as [b | c] eqn:B; simpl.
    + split; [ | discriminate ].
      intros r E; injection E as <-; simpl. split; [ reflexivity | ].
      exists a, b. now rewrite B.
    + split; [ discriminate | ].
      intros e E; injection E as <-. exists c. split; [ | reflexivity ].
      right. exists a. now rewrite B.
  - split; [ discriminate | ].
    intros e E; injection E as <-. exists c.
    split; [ now left | reflexivity ].
Qed.

(** The balance of [0.0.1001] on the sample ledger. *)
Lemma X7_witness :
  b_accountId
    {| b_accountId := "0.0.1001"; b_balance := "10 h";
       b_balanceInTinybars := "1000000000";
       b_tokens := Num.of_Z 0;
       b_timestamp := "2025-01-01T00:00:00.000Z" |} = "0.0.1001".
Proof.
  apply (proj1 (X7_getBalance_cases
                  (Fixtures.sample_sdk Success)
                  (Fixtures.sample_client Success)
                  "2025-01-01T00:00:00.000Z" "0.0.1001")
           _ eq_refl).
Defined.

(** X8: [transferHBAR] returns only when the receipt has the status
    [Success], and the result then echoes sender, recipient and memo;
    when the transfer was submitted and the receipt has another status,
    it throws ["Failed to transfer HBAR: Transaction failed with status:
    <status>"]. *)
Lemma X8_transferHBAR_status (k : sdk) (t : tools k)
  (now_ from to amount : string) (memo : option string) :
  (forall r, transferHBAR k t now_ from to amount memo = Returned r ->
     t_status r = "SUCCESS" /\ t_fromAccountId r = from
     /\ t_toAccountId r = to /\ t_memo r = memo
     /\ exists id, receipt_query k (the_client t) id = Returned Success
                   /\ t_transactionId r = id)
  /\ (forall a b h id text,
        AccountId_fromString k from = Returned a ->
        AccountId_fromString k to = Returned b ->
        Hbar_fromString k amount = Returned h ->
        transfer_execute k (the_client t) [(a, negated k h); (b, h)]
          (memo_or_default memo) 2 = Returned id ->
        receipt_query k (the_client t) id = Returned (Failure text) ->
        transferHBAR k t now_ from to amount memo
        = Threw (ErrorObj ("Failed to transfer HBAR: "
                           ++ "Transaction failed with status: " ++ text))).
Proof.
  unfold transferHBAR. split.
  - intros r.
    destruct (AccountId_fromString k from) as [a | ]; simpl;
      [ | discriminate ].
    destruct (AccountId_fromString k to) as [b | ]; simpl;
      [ | discriminate ].
    destruct (Hbar_fromString k amount) as [h | ]; simpl;
      [ | discriminate ].
    destruct (transfer_execute _ _ _ _ _) as [id | ]; simpl;
      [ | discriminate ].
    destruct (receipt_query k (the_client t) id) as [[ | text] | ] eqn:R;
      simpl; try discriminate.
    intros E; injection E as <-; simpl. repeat split. now exists id.
  - intros a b h id text A B H X R. rewrite A, B; simpl. rewrite H; simpl.
    rewrite X; simpl. rewrite R; simpl. reflexivity.
Qed.

(** A transfer whose receipt says [INSUFFICIENT_PAYER_BALANCE]. *)
Lemma X8_witness :
  transferHBAR
    (Fixtures.sample_sdk (Failure "INSUFFICIENT_PAYER_BALANCE"))
    (Fixtures.sample_client (Failure "INSUFFICIENT_PAYER_BALANCE"))
    "2025-01-01T00:00:00.000Z" "0.0.1001" "0.0.1002" "5" None
  = Threw (ErrorObj
      ("Failed to transfer HBAR: " ++ "Transaction failed with status: "
       ++ "INSUFFICIENT_PAYER_BALANCE")).
Proof.
  apply (proj2 (X8_transferHBAR_status
                  (Fixtures.sample_sdk (Failure "INSUFFICIENT_PAYER_BALANCE"))
                  (Fixtures.sample_client
                     (Failure "INSUFFICIENT_PAYER_BALANCE"))
                  "2025-01-01T00:00:00.000Z" "0.0.1001" "0.0.1002" "5" None)
           "0.0.1001" "0.0.1002" "5" "0.0.1001@1735689600.000000000"
           "INSUFFICIENT_PAYER_BALANCE");
    reflexivity.
Defined.

End HederaProperties.

(** ** Quotes, swaps and liquidity *)

Module OutcomeFacts.
Import Js.

Lemma bind_returned {A B : Type} (a : A) (k : A -> outcome B) :
  bind (Returned a) k = k a.
Proof. reflexivity. Qed.

Lemma bind_threw {A B : Type} (e : thrown) (k : A -> outcome B) :
  bind (Threw e) k = Threw e.
Proof. reflexivity. Qed.

Lemma try_returned {A : Type} (a : A) (h : thrown -> outcome A) :
  try_catch (Returned a) h = Returned a.
Proof. reflexivity. Qed.

Lemma try_threw {A : Type} (e : thrown) (h : thrown -> outcome A) :
  try_catch (Threw e) h = h e.
Proof. reflexivity. Qed.

End OutcomeFacts.

Module TokenFacts.
Import Js SaucerSwap.
Local Open Scope string_scope.

Lemma lower_char_idem (c : ascii) : lower_char (lower_char c) = lower_char c.
Proof.
  destruct c as [[] [] [] [] [] [] [] []]; vm_compute; reflexivity.
Qed.

Lemma toLowerCase_idem (s : string) :
  toLowerCase (toLowerCase s) = toLowerCase s.
Proof.
  unfold toLowerCase. rewrite list_ascii_of_string_of_list_ascii.
  rewrite map_map. f_equal. apply map_ext. intros c. apply lower_char_idem.
Qed.

End TokenFacts.

Module ToleranceFacts.
Import Num NumFacts OpFacts.
Local Open Scope Z_scope.

(** Rounding stays between two binary64 values. *)
Lemma round_within (u : Q) (A B : Z) :
  (inject_Z A <= u)%Q -> (u <= inject_Z B)%Q ->
  canonical A -> canonical B ->
  Z.abs A < overflow_at -> Z.abs B < overflow_at ->
  exists k, round u = Fin k /\ A <= k <= B.
Proof.
  intros L U CA CB OA OB.
  pose proof (sround_le _ _ L) as M1.
  pose proof (sround_le _ _ U) as M2.
  rewrite (sround_canonical A CA) in M1.
  rewrite (sround_canonical B CB) in M2.
  exists (sround u). split; [ | lia ].
  rewrite round_sround.
  destruct (overflow_at <=? Z.abs (sround u)) eqn:E; [ lia | reflexivity ].
Qed.

Lemma of_Z_billion : of_Z 1000000000 = Fin (1000000000 * scale).
Proof. vm_compute. reflexivity. Qed.

Lemma canonical_neg_1 : canonical (-1).
Proof. vm_compute. reflexivity. Qed.

Lemma canonical_neg_100 : canonical (-100).
Proof. vm_compute. reflexivity. Qed.

Lemma canonical_neg_billion : canonical (- (1000000000 * scale)).
Proof. vm_compute. reflexivity. Qed.

Lemma canonical_neg_hundred_billion : canonical (- (100000000000 * scale)).
Proof. vm_compute. reflexivity. Qed.

Lemma below_overflow_hundred_billion : 100000000000 * scale < overflow_at.
Proof. vm_compute. reflexivity. Qed.

(** A tolerance above 100 gives a negative factor. *)
Lemma slippage_factor_negative (s : number) :
  ltb (of_Z 100) s = true -> leb s (of_Z 1000000000) = true ->
  exists f, to_BigInt (slippage_factor s) = Some f /\ f <= -1.
Proof.
  rewrite of_Z_100, of_Z_billion. intros L U.
  destruct s as [ | neg | k ]; try discriminate L.
  { unfold ltb, leb in L, U. destruct neg; discriminate. }
  unfold ltb in L. unfold leb in U. apply Z.ltb_lt in L. apply Z.leb_le in U.
  unfold slippage_factor. rewrite of_Z_100.
  unfold sub, opp, add.
  pose proof scale_pos as SP. pose proof Qscale_pos as QP.
  pose proof below_overflow_hundred_billion as OV.
  destruct (round_within (inject_Z (100 * scale + - k))
              (- (1000000000 * scale)) (-1)) as (t & -> & T).
  { rewrite <- Zle_Qle. lia. }
  { rewrite <- Zle_Qle. lia. }
  { apply canonical_neg_billion. }
  { apply canonical_neg_1. }
  { lia. }
  { lia. }
  unfold mul.
  destruct (round_within (t * (100 * scale) # Z.to_pos scale)
              (- (100000000000 * scale)) (-100)) as (v & -> & V).
  { rewrite Qmake_scale. apply Qle_shift_div_l; [ exact QP | ].
    rewrite <- inject_Z_mult, <- Zle_Qle. nia. }
  { rewrite Qmake_scale. apply Qle_shift_div_r; [ exact QP | ].
    rewrite <- inject_Z_mult, <- Zle_Qle. nia. }
  { apply canonical_neg_hundred_billion. }
  { apply canonical_neg_100. }
  { lia. }
  { lia. }
  unfold floor, to_BigInt.
  rewrite Z.mod_mul by lia. cbn [Z.eqb].
  rewrite Z.div_mul by lia.
  exists (v / scale). split; [ reflexivity | ].
  assert (v / scale < 0) by (apply Z.div_lt_upper_bound; lia). lia.
Qed.

Lemma min_of_negative (out f : Z) :
  0 <= out -> f <= -1 ->
  min_of out f <= 0 /\ (10000 <= out -> min_of out f < 0).
Proof.
  intros O F. unfold min_of.
  replace (out * f) with (- (out * - f)) by ring.
  rewrite Z.quot_opp_l by lia.
  rewrite Z.quot_div_nonneg by nia.
  split.
  - assert (0 <= out * - f / 10000) by (apply Z.div_pos; nia). lia.
  - intros B.
    assert (1 <= out * - f / 10000)
      by (apply Z.div_le_lower_bound; nia). lia.
Qed.

(** The factor of a tolerance that is [NaN] or infinite has no BigInt. *)
Lemma slippage_factor_not_finite (s : number) :
  is_finite s = false -> to_BigInt (slippage_factor s) = None.
Proof.
  destruct s as [ | neg | k ]; [ reflexivity | | discriminate ].
  intros _. unfold slippage_factor. rewrite of_Z_100.
  unfold sub, opp, add. unfold mul.
  pose proof scale_pos.
  destruct (100 * scale =? 0) eqn:E; [ apply Z.eqb_eq in E; lia | ].
  reflexivity.
Qed.

(** The truncating division keeps the minimum between zero and the
    desired amount, on either side of zero. *)
Lemma min_of_abs (d f : Z) :
  0 <= f <= 10000 ->
  Z.abs (min_of d f) <= Z.abs d /\ 0 <= min_of d f * d.
Proof.
  intros F. unfold min_of.
  destruct (Z.le_gt_cases 0 d) as [P | N].
  - rewrite Z.quot_div_nonneg by nia.
    assert (0 <= d * f / 10000) by (apply Z.div_pos; nia).
    assert (d * f / 10000 <= d) by (apply Z.div_le_upper_bound; nia).
    split; [ rewrite !Z.abs_eq by lia; lia | nia ].
  - replace (d * f) with (- (- d * f)) by ring.
    rewrite Z.quot_opp_l by lia.
    rewrite Z.quot_div_nonneg by nia.
    assert (0 <= - d * f / 10000) by (apply Z.div_pos; nia).
    assert (- d * f / 10000 <= - d) by (apply Z.div_le_upper_bound; nia).
    split; [ rewrite Z.abs_opp, Z.abs_eq, Z.abs_neq by lia; lia | nia ].
Qed.

Lemma canonical_units (m s : Z) :
  0 <= m <= 2 ^ 53 -> 0 <= s -> canonical (m * 2 ^ s).
Proof.
  intros M S. unfold canonical.
  rewrite Z.abs_eq
    by (apply Z.mul_nonneg_nonneg; [ lia | apply Z.pow_nonneg; lia ]).
  now apply round_mag_repr.
Qed.

(** The integers up to [2^53] are binary64 values. *)
Lemma of_Z_small (n : Z) :
  0 <= n <= 2 ^ 53 -> of_Z n = Fin (n * scale).
Proof.
  intros N. unfold of_Z. apply round_canonical.
  - apply (canonical_units n 1074); lia.
  - pose proof scale_pos.
    rewrite Z.abs_eq by nia.
    change overflow_at with (2 ^ 1024 * scale).
    apply Z.mul_lt_mono_pos_r; [ assumption | ].
    apply Z.le_lt_trans with (2 ^ 53); [ lia | reflexivity ].
Qed.

Lemma scale_split : scale = 1024 * 2 ^ 1064.
Proof. reflexivity. Qed.

End ToleranceFacts.

Module SwapFacts.
Import Js Num SaucerSwap SaucerSwapTools LoggerFacts.
Local Open Scope string_scope.

Lemma getQuote_thrown w a b c s e :
  getQuote w a b c s = Threw e ->
  exists cause, e = ErrorObj ("Failed to get quote: " ++ cause).
Proof.
  unfold getQuote.
  destruct (getQuote_body _ _ _ _ _) as [q | x]; simpl; [ discriminate | ].
  intros E; injection E as <-. eauto.
Qed.

Lemma executeSwap_thrown {eth : ethers} (rt : runtime) (t : tools eth)
  a b c sl rc e :
  executeSwap rt t a b c sl rc = Threw e ->
  exists m, e = ErrorObj ("Failed to execute swap: " ++ m).
Proof.
  unfold executeSwap.
  destruct (executeSwap_body _ _ _ _ _ _ _) as [q | x]; simpl;
    [ discriminate | ].
  intros E; injection E as <-. eauto.
Qed.

(** A swap of the native token that [executeSwap] returns carries a
    BigInt, the [value] of its transaction. *)
Lemma executeSwap_native_value {eth : ethers} (rt : runtime) (t : tools eth)
  tokenIn_ tokenOut_ amount sl recipient r :
  toLowerCase tokenIn_ = "0x0000000000000000000000000000000000000000" ->
  executeSwap rt t tokenIn_ tokenOut_ amount sl recipient = Returned r ->
  Json.has_bigint (swap_data r) = true.
Proof.
  intros Z. unfold executeSwap, executeSwap_body. rewrite Z.
  destruct (Logger.info _ _ _ "SaucerSwap execute_swap" _);
    cbn [bind try_catch]; [ | discriminate ].
  destruct (getQuote _ _ _ _ _) as [q | ]; cbn [bind try_catch];
    [ | discriminate ].
  destruct (parseUnits _ amount _) as [ain | ]; cbn [bind try_catch];
    [ | discriminate ].
  destruct (match minimumAmount (tokenOut q) with
            | Some m => _ | None => _ end) as [amin | ];
    cbn [bind try_catch]; [ | discriminate ].
  destruct (encodeFunctionData _ _ _) as [data | ]; cbn [bind try_catch];
    [ | discriminate ].
  destruct (Logger.info _ _ _ _ _); cbn [bind try_catch]; [ | discriminate ].
  intros E; injection E as <-. reflexivity.
Qed.

Lemma liquidity_plain r :
  Json.has_bigint (value_ (l_transaction r)) = false ->
  Json.has_bigint (liquidity_data r) = false.
Proof.
  intros V. unfold liquidity_data, transaction_data, pool_token_data.
  cbn. rewrite V, !opt_str_plain. reflexivity.
Qed.

End SwapFacts.

Section QuoteProperties.
Import Num NumFacts OpFacts TokenFacts ToleranceFacts.

(** X9: [getTokenInfo] does not depend on the case of the address: an
    address and its lower-case form give the same token entry. *)
Lemma X9_getTokenInfo_lower (a : string) :
  getTokenInfo (toLowerCase a) = getTokenInfo a.
Proof. unfold getTokenInfo. now rewrite toLowerCase_idem. Qed.

(** X10: with a slippage tolerance that is [NaN] or infinite, [getQuote]
    fails although the amount was parsed and the router has answered: the
    factor has no BigInt, and the [RangeError] comes back as
    ["Failed to get quote: ..."]. *)
Lemma X10_getQuote_tolerance_not_finite (w : world)
  (tokenIn_ tokenOut_ amount : string) (s : number)
  (amountIn : Z) (amounts : list N) :
  is_finite s = false ->
  parseUnits w amount (decimals (getTokenInfo tokenIn_)) = Returned amountIn ->
  getAmountsOut w amountIn [tokenIn_; tokenOut_] = Returned amounts ->
  getQuote w tokenIn_ tokenOut_ amount (Some s)
  = Threw (ErrorObj ("Failed to get quote: "
                     ++ not_an_integer w (slippage_factor s))).
Proof.
  intros F P A. unfold getQuote, getQuote_body.
  rewrite P; cbn [bind]. rewrite A; cbn [bind].
  unfold amountOutMin. rewrite (slippage_factor_not_finite s F).
  reflexivity.
Qed.

(** 25 HBAR with the tolerance [NaN] on the sample router. *)
Lemma X10_witness :
  getQuote Samples.online
    "0x0000000000000000000000000000000000000000"
    "0x0000000000000000000000000000000000000001" "25" (Some NaN)
  = Threw (ErrorObj ("Failed to get quote: " ++ "not an integer")).
Proof.
  apply (X10_getQuote_tolerance_not_finite Samples.online
           "0x0000000000000000000000000000000000000000"
           "0x0000000000000000000000000000000000000001" "25" NaN
           2500000000 [2500000000%N; 24500000%N]);
    reflexivity.
Defined.

(** X11: a slippage tolerance above 100 (up to a billion) is not
    rejected: [getQuote] returns a quote whose minimum amount is the text
    of an amount that is not positive, and negative once the expected
    amount reaches 10000 base units. *)
Lemma X11_getQuote_tolerance_above_100 (w : world)
  (tokenIn_ tokenOut_ amount : string) (s : number)
  (amountIn : Z) (amounts : list N) (out : N) :
  ltb (of_Z 100) s = true -> leb s (of_Z 1000000000) = true ->
  parseUnits w amount (decimals (getTokenInfo tokenIn_)) = Returned amountIn ->
  getAmountsOut w amountIn [tokenIn_; tokenOut_] = Returned amounts ->
  nth_error amounts 1 = Some out ->
  exists q m,
    getQuote w tokenIn_ tokenOut_ amount (Some s) = Returned q
    /\ minimumAmount (tokenOut q)
       = Some (formatUnits w m (decimals (getTokenInfo tokenOut_)))
    /\ expectedAmount (tokenOut q)
       = formatUnits w (Z.of_N out) (decimals (getTokenInfo tokenOut_))
    /\ (m <= 0)%Z /\ ((10000 <= out)%N -> (m < 0)%Z).
Proof.
  intros L U P A O. unfold getQuote, getQuote_body.
  rewrite P; cbn [bind]. rewrite A; cbn [bind]. rewrite O.
  unfold amountOutMin.
  destruct (slippage_factor_negative s L U) as (f & -> & F).
  cbn [bind try_catch].
  destruct (min_of_negative (Z.of_N out) f ltac:(lia) F) as [M1 M2].
  eexists. exists (min_of (Z.of_N out) f).
  split; [ reflexivity | ]. cbn.
  repeat split; try assumption. intros B. apply M2. lia.
Qed.

(** 25 HBAR quoted at 24.5 USDC with a tolerance of 150 percent. *)
Lemma X11_witness :
  exists q m,
    getQuote Samples.online
      "0x0000000000000000000000000000000000000000"
      "0x0000000000000000000000000000000000000001" "25"
      (Some (of_Z 150)) = Returned q
    /\ minimumAmount (tokenOut q)
       = Some (formatUnits Samples.online m
                 (decimals
                    (getTokenInfo
                       "0x0000000000000000000000000000000000000001")))
    /\ expectedAmount (tokenOut q)
       = formatUnits Samples.online (Z.of_N 24500000)
           (decimals
              (getTokenInfo "0x0000000000000000000000000000000000000001"))
    /\ (m <= 0)%Z /\ ((10000 <= 24500000)%N -> (m < 0)%Z).
Proof.
  apply (X11_getQuote_tolerance_above_100 Samples.online
           "0x0000000000000000000000000000000000000000"
           "0x0000000000000000000000000000000000000001" "25"
           (of_Z 150) 2500000000 [2500000000%N; 24500000%N]
           24500000%N);
    vm_compute; reflexivity.
Defined.

End QuoteProperties.

Module ImpactFacts.
Import Num NumFacts OpFacts.
Local Open Scope Z_scope.

(** Rounding is monotone below a finite value. *)
Lemma round_below (u v : Q) (kv : Z) :
  (0 <= u)%Q -> (u <= v)%Q -> round v = Fin kv ->
  exists ku, round u = Fin ku /\ 0 <= ku <= kv.
Proof.
  intros L U R. apply round_Fin_inv in R as [-> B].
  pose proof (sround_nonneg u L) as N.
  pose proof (sround_le _ _ U) as M.
  exists (sround u). split; [ | lia ].
  rewrite round_sround.
  destruct (overflow_at <=? Z.abs (sround u)) eqn:E; [ lia | reflexivity ].
Qed.

Lemma of_Z_below (n m km : Z) :
  0 <= n <= m -> of_Z m = Fin km ->
  exists kn, of_Z n = Fin kn /\ 0 <= kn <= km.
Proof.
  intros N M. unfold of_Z in *. pose proof scale_pos.
  apply (round_below _ (inject_Z (m * scale))); [ | | exact M ].
  - change 0%Q with (inject_Z 0). rewrite <- Zle_Qle. nia.
  - rewrite <- Zle_Qle. nia.
Qed.

Lemma div_below (a b c kb : Z) :
  0 <= a <= b -> 0 < c -> div (Fin b) (Fin c) = Fin kb ->
  exists ka, div (Fin a) (Fin c) = Fin ka /\ 0 <= ka <= kb.
Proof.
  intros A C. unfold div.
  destruct (c =? 0) eqn:E; [ apply Z.eqb_eq in E; lia | ].
  pose proof scale_pos.
  assert (P : (0 < inject_Z c)%Q)
    by (change 0%Q with (inject_Z 0); rewrite <- Zlt_Qlt; lia).
  apply round_below.
  - apply Qle_shift_div_l; [ exact P | ]. rewrite Qmult_0_l.
    change 0%Q with (inject_Z 0). rewrite <- Zle_Qle. nia.
  - apply Qle_shift_div_l; [ exact P | ].
    unfold Qdiv. rewrite <- Qmult_assoc, (Qmult_comm (/ inject_Z c)).
    rewrite Qmult_inv_r, Qmult_1_r by (intros Z0; rewrite Z0 in P; lra).
    rewrite <- Zle_Qle. nia.
Qed.

Lemma mul_below (a b c kb : Z) :
  0 <= a <= b -> 0 <= c -> mul (Fin b) (Fin c) = Fin kb ->
  exists ka, mul (Fin a) (Fin c) = Fin ka /\ 0 <= ka <= kb.
Proof.
  intros A C. unfold mul. pose proof Qscale_pos as QP.
  apply round_below.
  - rewrite Qmake_scale. apply Qle_shift_div_l; [ exact QP | ].
    rewrite Qmult_0_l. change 0%Q with (inject_Z 0). rewrite <- Zle_Qle. nia.
  - rewrite !Qmake_scale. apply Qle_shift_div_l; [ exact QP | ].
    unfold Qdiv. rewrite <- Qmult_assoc, (Qmult_comm (/ inject_Z scale)).
    rewrite Qmult_inv_r, Qmult_1_r by (intros Z0; rewrite Z0 in QP; lra).
    rewrite <- Zle_Qle. nia.
Qed.

(** The impact of [4 * 10^16] base units, step by step. *)
Lemma impact_at_bound :
  exists k0 c k1 m k2 h k3,
    of_Z (4 * 10 ^ 16) = Fin k0
    /\ of_Z (10 ^ 18) = Fin c /\ 0 < c
    /\ div (Fin k0) (Fin c) = Fin k1
    /\ of_decimal 1 (-3) = Fin m /\ 0 <= m
    /\ mul (Fin k1) (Fin m) = Fin k2
    /\ of_Z 100 = Fin h /\ 0 <= h
    /\ mul (Fin k2) (Fin h) = Fin k3
    /\ k3 * 200 < scale.
Proof.
  do 7 eexists.
  repeat match goal with |- _ /\ _ => split end;
    first [ vm_compute; reflexivity | vm_compute; discriminate ].
Qed.

(** Two decimals of a value below 0.005. *)
Lemma toFixed_2_small (k : Z) :
  0 <= k -> k * 200 < scale -> toFixed 2 (Fin k) = "0.00"%string.
Proof.
  intros L U. unfold toFixed. pose proof scale_pos.
  destruct (k <? 0) eqn:N; [ apply Z.ltb_lt in N; lia | ].
  rewrite Z.abs_eq by lia.
  destruct (10 ^ 21 * scale <=? k) eqn:B.
  { apply Z.leb_le in B. nia. }
  replace ((2 * k * 10 ^ Z.of_nat 2 + scale) / (2 * scale)) with 0.
  - reflexivity.
  - symmetry. apply Z.div_small. change (10 ^ Z.of_nat 2) with 100. lia.
Qed.

End ImpactFacts.

Section ImpactProperties.
Import Num ImpactFacts.
Local Open Scope Z_scope.

(** X12: the price impact of a quote is ["0.00%"] for every input amount
    up to [4 * 10^16] base units: the figure is the amount divided by
    [10^19], whatever the decimals of the token and whatever the output
    of the router. *)
Lemma X12_small_amounts_have_no_impact (amountIn : Z) :
  0 <= amountIn <= 4 * 10 ^ 16 ->
  calculatePriceImpact amountIn = "0.00%".
Proof.
  intros A.
  destruct impact_at_bound
    as (k0 & c & k1 & m & k2 & h & k3 & E0 & Ec & Pc & E1 & Em & Pm & E2
        & Eh & Ph & E3 & S).
  unfold calculatePriceImpact.
  destruct (of_Z_below amountIn (4 * 10 ^ 16) k0 A E0) as (a0 & -> & B0).
  rewrite Ec, Em, Eh.
  destruct (div_below a0 k0 c k1 B0 Pc E1) as (a1 & -> & B1).
  destruct (mul_below a1 k1 m k2 B1 Pm E2) as (a2 & -> & B2).
  destruct (mul_below a2 k2 h k3 B2 Ph E3) as (a3 & -> & B3).
  rewrite (toFixed_2_small a3) by lia.
  reflexivity.
Qed.

(** 25 HBAR, in units of [10^-8]. *)
Lemma X12_witness : calculatePriceImpact 2500000000 = "0.00%".
Proof.
  apply (X12_small_amounts_have_no_impact 2500000000). lia.
Defined.

End ImpactProperties.

Section SwapProperties.
Import Num NumFacts OpFacts SaucerSwapTools.
Import OutcomeFacts LoggerFacts ToleranceFacts SwapFacts.
Local Open Scope Z_scope.

(** X13: when the quote cannot be had, [executeSwap] throws the message
    of [getQuote] under its own prefix:
    ["Failed to execute swap: Failed to get quote: <cause>"]. *)
Lemma X13_executeSwap_quote_fails {eth : ethers} (rt : runtime)
  (t : tools eth) (tokenIn_ tokenOut_ amount : string)
  (sl : option number) (recipient : string) (e : thrown) :
  getQuote (world_of t) tokenIn_ tokenOut_ amount sl = Threw e ->
  exists cause,
    e = ErrorObj ("Failed to get quote: " ++ cause)
    /\ executeSwap rt t tokenIn_ tokenOut_ amount sl recipient
       = Threw (ErrorObj ("Failed to execute swap: Failed to get quote: "
                          ++ cause)).
Proof.
  intros G. destruct (getQuote_thrown _ _ _ _ _ _ G) as [cause ->].
  exists cause. split; [ reflexivity | ].
  unfold executeSwap, executeSwap_body.
  match goal with
  | |- context [Logger.info ?a ?b ?c ?d ?x] =>
      destruct (info_plain a b c d x eq_refl) as [lines ->]
  end.
  cbn [bind].
  replace (getQuote (world_of t) tokenIn_ tokenOut_ amount
             (Some match sl with Some s => s | None => default_slippage end))
    with (getQuote (world_of t) tokenIn_ tokenOut_ amount sl)
    by (destruct sl; reflexivity).
  rewrite G. reflexivity.
Qed.

(** A swap while the router cannot be reached. *)
Lemma X13_witness :
  exists cause,
    ErrorObj "Failed to get quote: network unreachable"
    = ErrorObj ("Failed to get quote: " ++ cause)
    /\ executeSwap Fixtures.sample_runtime
         (Fixtures.sample_tools Fixtures.unreachable_ethers tt "info")
         "0x0000000000000000000000000000000000000000"
         "0x0000000000000000000000000000000000000001" "1" None
         "0x00000000000000000000000000000000000003e9"
       = Threw (ErrorObj
           ("Failed to execute swap: Failed to get quote: " ++ cause)).
Proof.
  apply (X13_executeSwap_quote_fails Fixtures.sample_runtime
           (Fixtures.sample_tools Fixtures.unreachable_ethers tt "info")
           "0x0000000000000000000000000000000000000000"
           "0x0000000000000000000000000000000000000001" "1" None
           "0x00000000000000000000000000000000000003e9"
           (ErrorObj "Failed to get quote: network unreachable")).
  vm_compute. reflexivity.
Defined.

(** X14: through the dispatcher, [saucerswap_execute_swap] for the native
    token (the zero address, in any case of letters) never answers with
    swap data.  The [value] of the transaction is then the BigInt
    [amountIn], which [JSON.stringify] refuses: either the log line inside
    [executeSwap] throws and the text is
    ["Error: Failed to execute swap: ..."], or the swap is returned and
    the serialisation in the dispatcher throws. *)
Lemma X14_native_swap_is_an_error {eth : ethers}
  (h : Server.handlers Json.data) (rt : runtime) (t : tools eth)
  (args : value) (tokenIn_ tokenOut_ amount recipient : string)
  (sl : option number) :
  Server.rejects args = false ->
  get args "tokenIn" = JStr tokenIn_ ->
  get args "tokenOut" = JStr tokenOut_ ->
  get args "amount" = JStr amount ->
  get args "recipient" = JStr recipient ->
  get args "slippageTolerance"
  = match sl with Some s => JNum s | None => JUndefined end ->
  toLowerCase tokenIn_ = "0x0000000000000000000000000000000000000000" ->
  exists m,
    Server.callTool (Wiring.with_swap h rt t) "saucerswap_execute_swap" args
    = Returned (Server.text_response ("Error: " ++ m))
    /\ (m = Json.bigint_message (engine rt)
        \/ exists m', m = "Failed to execute swap: " ++ m').
Proof.
  intros R TI TO AM RC SL Z.
  unfold Server.callTool, Server.callTool_body. rewrite R.
  change (Server.select "saucerswap_execute_swap")
    with (Some Server.SaucerswapExecuteSwap).
  cbn [Server.run Wiring.with_swap Server.executeSwap].
  rewrite TI, TO, AM, RC, SL. cbn [Wiring.text_of].
  replace (Wiring.optional_number
             match sl with Some s => JNum s | None => JUndefined end)
    with (Some sl) by (destruct sl; reflexivity).
  destruct (executeSwap rt t tokenIn_ tokenOut_ amount sl recipient)
    as [r | e] eqn:E.
  - pose proof (executeSwap_native_value rt t _ _ _ _ _ r Z E) as B.
    cbn [map_outcome bind Server.JSON_stringify].
    change (Server.JSON_stringify (Wiring.with_swap h rt t))
      with (Json.stringify (engine rt)).
    unfold Json.stringify. rewrite B. cbn [bind try_catch message_of].
    exists (Json.bigint_message (engine rt)).
    split; [ reflexivity | now left ].
  - destruct (executeSwap_thrown rt t _ _ _ _ _ e E) as [m ->].
    cbn [map_outcome bind try_catch message_of].
    exists ("Failed to execute swap: " ++ m). split; [ reflexivity | ].
    right. now exists m.
Qed.

(** One HBAR for the second token, the logger at level [warn]. *)
Lemma X14_witness :
  exists m,
    Server.callTool
      (Wiring.with_swap Fixtures.answering_data Fixtures.sample_runtime
         (Fixtures.sample_tools Fixtures.sample_ethers tt "warn"))
      "saucerswap_execute_swap" Fixtures.native_swap_arguments
    = Returned (Server.text_response ("Error: " ++ m))
    /\ (m = Json.bigint_message (engine Fixtures.sample_runtime)
        \/ exists m', m = "Failed to execute swap: " ++ m').
Proof.
  apply (X14_native_swap_is_an_error Fixtures.answering_data
           Fixtures.sample_runtime
           (Fixtures.sample_tools Fixtures.sample_ethers tt "warn")
           Fixtures.native_swap_arguments
           "0x0000000000000000000000000000000000000000"
           "0x0000000000000000000000000000000000000001" "1"
           "0x00000000000000000000000000000000000003e9" None);
    reflexivity.
Defined.

(** X15: for a clock between the epoch and [10^15] milliseconds, the
    deadline of a swap or of a liquidity transaction is an integer: the
    whole seconds of the clock plus 1200.  The division by 1000 is
    rounded to binary64, and the floor of the rounded quotient is still
    the floor of the exact one. *)
Lemma X15_deadline_in_whole_seconds (rt : runtime) :
  0 <= date_now rt <= 10 ^ 15 ->
  deadline_of rt = of_Z (date_now rt / 1000 + 1200)
  /\ to_BigInt (deadline_of rt) = Some (date_now rt / 1000 + 1200).
Proof.
  intros T. set (t := date_now rt) in *. set (n := t / 1000).
  assert (N : 0 <= n <= 10 ^ 12).
  { subst n. split; [ apply Z.div_pos; lia | ].
    apply Z.div_le_upper_bound; lia. }
  assert (D : 1000 * n <= t <= 1000 * n + 999).
  { subst n. pose proof (Z.mod_pos_bound t 1000 ltac:(lia)).
    pose proof (Z.div_mod t 1000 ltac:(lia)). lia. }
  pose proof scale_pos as SP. pose proof Qscale_pos as QP.
  assert (P64 : 0 < 2 ^ 1064) by (apply Z.pow_pos_nonneg; lia).
  assert (R : deadline_of rt = Fin ((n + 1200) * scale)).
  { unfold deadline_of. fold t.
    rewrite (of_Z_small t) by (change (2 ^ 53) with 9007199254740992; lia).
    rewrite (of_Z_small 1000)
      by (change (2 ^ 53) with 9007199254740992; lia).
    rewrite (of_Z_small 1200)
      by (change (2 ^ 53) with 9007199254740992; lia).
    unfold div.
    destruct (1000 * scale =? 0) eqn:Z0; [ apply Z.eqb_eq in Z0; lia | ].
    destruct (round_within
                (inject_Z (t * scale * scale) / inject_Z (1000 * scale))
                (n * scale) (((n + 1) * 1024 - 1) * 2 ^ 1064))
      as (v & -> & V).
    - apply Qle_shift_div_l.
      + change 0%Q with (inject_Z 0). rewrite <- Zlt_Qlt. lia.
      + rewrite <- inject_Z_mult, <- Zle_Qle. nia.
    - apply Qle_shift_div_r.
      + change 0%Q with (inject_Z 0). rewrite <- Zlt_Qlt. lia.
      + rewrite <- inject_Z_mult, <- Zle_Qle.
        rewrite scale_split.
        assert (t * 1024 <= ((n + 1) * 1024 - 1) * 1000) by lia.
        nia.
    - apply (canonical_units n 1074);
        [ change (2 ^ 53) with 9007199254740992; lia | lia ].
    - apply (canonical_units ((n + 1) * 1024 - 1) 1064);
        [ change (2 ^ 53) with 9007199254740992; lia | lia ].
    - rewrite Z.abs_eq by nia.
      change overflow_at with (2 ^ 1024 * scale).
      apply Z.mul_lt_mono_pos_r; [ assumption | ].
      apply Z.le_lt_trans with (10 ^ 12); [ lia | reflexivity ].
    - rewrite Z.abs_eq by nia.
      change overflow_at with (2 ^ 1034 * 2 ^ 1064).
      apply Z.mul_lt_mono_pos_r; [ assumption | ].
      apply Z.le_lt_trans with (2 ^ 53); [ | reflexivity ].
      change (2 ^ 53) with 9007199254740992; lia.
    - assert (Q : v / scale = n).
      { symmetry. apply (Z.div_unique_pos v scale n (v - n * scale)).
        - split; [ lia | ]. rewrite scale_split in *. nia.
        - lia. }
      unfold floor. rewrite Q. unfold add.
      rewrite <- Z.mul_add_distr_r.
      apply round_canonical.
      + apply (canonical_units (n + 1200) 1074);
          [ change (2 ^ 53) with 9007199254740992; lia | lia ].
      + rewrite Z.abs_eq by nia.
        change overflow_at with (2 ^ 1024 * scale).
        apply Z.mul_lt_mono_pos_r; [ assumption | ].
        apply Z.le_lt_trans with (2 ^ 53); [ | reflexivity ].
        change (2 ^ 53) with 9007199254740992; lia. }
  split.
  - rewrite R. symmetry. apply of_Z_small.
    change (2 ^ 53) with 9007199254740992; lia.
  - rewrite R. unfold to_BigInt.
    rewrite Z.mod_mul by lia. cbn [Z.eqb].
    rewrite Z.div_mul by lia. reflexivity.
Qed.

(** The first day of 2025, 123 milliseconds after midnight. *)
Lemma X15_witness :
  deadline_of Fixtures.sample_runtime
  = of_Z (1735689600123 / 1000 + 1200)
  /\ to_BigInt (deadline_of Fixtures.sample_runtime)
     = Some (1735689600123 / 1000 + 1200).
Proof.
  apply (X15_deadline_in_whole_seconds Fixtures.sample_runtime).
  simpl. lia.
Defined.

(** X16: for a slippage tolerance between 0 and 100, the two minimum
    amounts that [addLiquidity] hands to the encoder and reports lie
    between zero and the desired amounts (in absolute value, with the
    same sign); the call then fails or returns as the encoder does. *)
Lemma X16_addLiquidity_minimums {eth : ethers} (rt : runtime)
  (t : tools eth) (tokenA tokenB amountA amountB : string) (s : number)
  (aD bD : Z) :
  leb (Fin 0) s = true -> leb s (of_Z 100) = true ->
  parseUnits (world_of t) amountA (decimals (getTokenInfo tokenA))
  = Returned aD ->
  parseUnits (world_of t) amountB (decimals (getTokenInfo tokenB))
  = Returned bD ->
  exists aMin bMin,
    (Z.abs aMin <= Z.abs aD /\ 0 <= aMin * aD)%Z
    /\ (Z.abs bMin <= Z.abs bD /\ 0 <= bMin * bD)%Z
    /\ (forall e,
          encodeFunctionData eth "addLiquidity"
            [ Address (Some tokenA); Address (Some tokenB);
              Uint aD; Uint bD; Uint aMin; Uint bMin;
              Address None; Seconds (deadline_of rt) ] = Threw e ->
          addLiquidity rt t tokenA tokenB amountA amountB (Some s)
          = Threw (ErrorObj ("Failed to add liquidity: " ++ message_of e)))
    /\ (forall data,
          encodeFunctionData eth "addLiquidity"
            [ Address (Some tokenA); Address (Some tokenB);
              Uint aD; Uint bD; Uint aMin; Uint bMin;
              Address None; Seconds (deadline_of rt) ] = Returned data ->
          exists r,
            addLiquidity rt t tokenA tokenB amountA amountB (Some s)
            = Returned r
            /\ data_ (l_transaction r) = data
            /\ p_minimumAmount (l_tokenA r)
               = formatUnits (world_of t) aMin
                   (decimals (getTokenInfo tokenA))
            /\ p_minimumAmount (l_tokenB r)
               = formatUnits (world_of t) bMin
                   (decimals (getTokenInfo tokenB))).
Proof.
  intros L U PA PB.
  destruct (QuoteFacts.slippage_factor_range s L U) as (f & F & R).
  exists (min_of aD f), (min_of bD f).
  split; [ apply min_of_abs; exact R | ].
  split; [ apply min_of_abs; exact R | ].
  unfold addLiquidity, addLiquidity_body.
  match goal with
  | |- context [Logger.info ?a ?b ?c "SaucerSwap add_liquidity" ?x] =>
      destruct (info_plain a b c "SaucerSwap add_liquidity" x eq_refl)
        as [lines ->]
  end.
  rewrite bind_returned, PA, bind_returned, PB, bind_returned.
  unfold amountMin. rewrite F, !bind_returned.
  split.
  - intros e E. rewrite E, bind_threw, try_threw. reflexivity.
  - intros data E. rewrite E, bind_returned.
    match goal with
    | |- context [Logger.info ?a ?b ?c ?d (liquidity_data ?x)] =>
        destruct (info_plain a b c d (liquidity_data x)
                    (liquidity_plain x eq_refl)) as [lines2 ->]
    end.
    rewrite bind_returned, try_returned.
    eexists. split; [ reflexivity | ].
    cbn [l_transaction data_ l_tokenA l_tokenB p_minimumAmount].
    repeat split.
Qed.

(** Two amounts of 25 with the default tolerance. *)
Lemma X16_witness :
  exists aMin bMin : Z,
    (Z.abs aMin <= Z.abs 2500000000 /\ 0 <= aMin * 2500000000)%Z
    /\ (Z.abs bMin <= Z.abs 2500000000 /\ 0 <= bMin * 2500000000)%Z.
Proof.
  destruct (X16_addLiquidity_minimums Fixtures.sample_runtime
              (Fixtures.sample_tools Fixtures.sample_ethers tt "info")
              "0x0000000000000000000000000000000000000000"
              "0x0000000000000000000000000000000000000001" "25" "25"
              (of_decimal 5 (-1)) 2500000000 2500000000)
    as (aMin & bMin & A & B & _).
  - vm_compute. reflexivity.
  - vm_compute. reflexivity.
  - reflexivity.
  - reflexivity.
  - exists aMin, bMin. split; assumption.
Defined.

(** X17: the recipient [addLiquidity] hands to the encoder is
    [this.config.operatorId], a member the SaucerSwap configuration does
    not have, so it is absent for every input; with an encoder that
    rejects an absent address the call fails whatever the arguments. *)
Lemma X17_addLiquidity_without_recipient {eth : ethers} (rt : runtime)
  (t : tools eth) (tokenA tokenB amountA amountB : string)
  (sl : option number) :
  (forall name args, In (Address None) args ->
     exists e, encodeFunctionData eth name args = Threw e) ->
  exists m,
    addLiquidity rt t tokenA tokenB amountA amountB sl
    = Threw (ErrorObj ("Failed to add liquidity: " ++ m)).
Proof.
  intros Rej. unfold addLiquidity, addLiquidity_body.
  destruct (Logger.info _ _ _ "SaucerSwap add_liquidity" _);
    [ rewrite bind_returned | rewrite bind_threw, try_threw; eauto ].
  destruct (parseUnits _ amountA _) as [aD | ];
    [ rewrite bind_returned | rewrite bind_threw, try_threw; eauto ].
  destruct (parseUnits _ amountB _) as [bD | ];
    [ rewrite bind_returned | rewrite bind_threw, try_threw; eauto ].
  destruct (amountMin _ aD _) as [aMin | ];
    [ rewrite bind_returned | rewrite bind_threw, try_threw; eauto ].
  destruct (amountMin _ bD _) as [bMin | ];
    [ rewrite bind_returned | rewrite bind_threw, try_threw; eauto ].
  match goal with
  | |- context [encodeFunctionData eth ?n ?a] =>
      destruct (Rej n a) as [e ->]
  end.
  - do 6 right. left. reflexivity.
  - rewrite bind_threw, try_threw. eauto.
Qed.

(** The sample encoder rejects an absent address. *)
Lemma X17_witness :
  exists m,
    addLiquidity Fixtures.sample_runtime
      (Fixtures.sample_tools Fixtures.sample_ethers tt "info")
      "0x0000000000000000000000000000000000000000"
      "0x0000000000000000000000000000000000000001" "25" "24.5" None
    = Threw (ErrorObj ("Failed to add liquidity: " ++ m)).
Proof.
  apply (X17_addLiquidity_without_recipient
           Fixtures.sample_runtime
           (Fixtures.sample_tools Fixtures.sample_ethers tt "info")
           "0x0000000000000000000000000000000000000000"
           "0x0000000000000000000000000000000000000001" "25" "24.5" None).
  intros name args H. exists (ErrorObj "invalid address").
  simpl.
  replace (existsb Fixtures.is_absent args) with true; [ reflexivity | ].
  symmetry. apply existsb_exists.
  exists (Address None). split; [ exact H | reflexivity ].
Defined.

End SwapProperties.

Module RescaleFacts.
Import Num SaucerSwapTools.

(** What a returned quote says about the input amount. *)
Lemma getQuote_returned w a b c s q :
  getQuote w a b c s = Returned q ->
  exists amountIn,
    parseUnits w c (decimals (getTokenInfo a)) = Returned amountIn
    /\ in_amountWei (tokenIn q) = Some (string_of_Z amountIn)
    /\ in_symbol (tokenIn q) = symbol (getTokenInfo a).
Proof.
  unfold getQuote, getQuote_body.
  destruct (parseUnits w c _) as [amountIn | ]; cbn [bind try_catch];
    [ | discriminate ].
  destruct (getAmountsOut w amountIn _) as [amounts | ];
    cbn [bind try_catch]; [ | discriminate ].
  destruct (amountOutMin w _ _) as [outMin | ]; cbn [bind try_catch];
    [ | discriminate ].
  destruct (nth_error amounts 1) as [out | ]; cbn [try_catch];
    [ | discriminate ].
  intros E; injection E as <-. exists amountIn. repeat split.
Qed.

(** The tokens of six decimals are not HBAR. *)
Lemma six_decimals_not_HBAR (a : string) :
  decimals (getTokenInfo a) = Some 6 ->
  swap_decimals (symbol (getTokenInfo a)) = Some 18.
Proof.
  unfold getTokenInfo.
  destruct (String.eqb (toLowerCase a) _); [ discriminate | ].
  destruct (String.eqb (toLowerCase a) _); [ reflexivity | ].
  destruct (String.eqb (toLowerCase a) _); [ reflexivity | ].
  destruct (_ || _); discriminate.
Qed.

End RescaleFacts.

Section RescaleProperties.
Import Num SaucerSwapTools RescaleFacts.

(** X18: the amounts of the swap transaction are not scaled as those of
    the quote.  For an input token of six decimals (USDC, USDT), the quote
    inside the result reports [parseUnits(amount, 6)] as [amountWei],
    while the amount handed to the encoder is [parseUnits(amount, 18)]:
    [executeSwap] takes 8 decimals for HBAR and 18 for every other
    symbol. *)
Lemma X18_swap_rescales_six_decimals {eth : ethers} (rt : runtime)
  (t : tools eth) (tokenIn_ tokenOut_ amount : string)
  (sl : option number) (recipient : string) (r : swap) :
  decimals (getTokenInfo tokenIn_) = Some 6%Z ->
  executeSwap rt t tokenIn_ tokenOut_ amount sl recipient = Returned r ->
  exists quoted encoded minimum,
    parseUnits (world_of t) amount (Some 6%Z) = Returned quoted
    /\ parseUnits (world_of t) amount (Some 18%Z) = Returned encoded
    /\ in_amountWei (tokenIn (s_quote r)) = Some (string_of_Z quoted)
    /\ encodeFunctionData eth "swapExactTokensForTokens"
         [ Uint encoded; Uint minimum; Path [tokenIn_; tokenOut_];
           Address (Some recipient); Seconds (deadline_of rt) ]
       = Returned (data_ (s_transaction r)).
Proof.
  intros D. unfold executeSwap, executeSwap_body.
  destruct (Logger.info _ _ _ "SaucerSwap execute_swap" _);
    cbn [bind try_catch]; [ | discriminate ].
  destruct (getQuote _ _ _ _ _) as [q | ] eqn:G; cbn [bind try_catch];
    [ | discriminate ].
  destruct (getQuote_returned _ _ _ _ _ _ G) as (quoted & P & W & S).
  rewrite D in P. rewrite S, (six_decimals_not_HBAR tokenIn_ D).
  destruct (parseUnits _ amount (Some 18%Z)) as [encoded | ] eqn:P18;
    cbn [bind try_catch]; [ | discriminate ].
  destruct (match minimumAmount (tokenOut q) with
            | Some m => _ | None => _ end) as [minimum | ];
    cbn [bind try_catch]; [ | discriminate ].
  destruct (encodeFunctionData _ _ _) as [data | ] eqn:E;
    cbn [bind try_catch]; [ | discriminate ].
  destruct (Logger.info _ _ _ _ _); cbn [bind try_catch]; [ | discriminate ].
  intros R; injection R as <-. cbn.
  exists quoted, encoded, minimum. repeat split; assumption.
Qed.

(** 25 USDC for HBAR on the sample router. *)
Lemma X18_witness :
  exists r,
    executeSwap Fixtures.sample_runtime
      (Fixtures.sample_tools Fixtures.sample_ethers tt "info")
      "0x0000000000000000000000000000000000000001"
      "0x0000000000000000000000000000000000000000" "25" None
      "0x00000000000000000000000000000000000003e9" = Returned r
    /\ exists quoted encoded minimum,
         parseUnits Samples.online "25" (Some 6%Z) = Returned quoted
         /\ parseUnits Samples.online "25" (Some 18%Z) = Returned encoded
         /\ in_amountWei (tokenIn (s_quote r)) = Some (string_of_Z quoted)
         /\ encodeFunctionData Fixtures.sample_ethers
              "swapExactTokensForTokens"
              [ Uint encoded; Uint minimum;
                Path [ "0x0000000000000000000000000000000000000001";
                       "0x0000000000000000000000000000000000000000" ];
                Address (Some "0x00000000000000000000000000000000000003e9");
                Seconds (deadline_of Fixtures.sample_runtime) ]
            = Returned (data_ (s_transaction r)).
Proof.
  eexists. split; [ vm_compute; reflexivity | ].
  eapply (X18_swap_rescales_six_decimals Fixtures.sample_runtime
            (Fixtures.sample_tools Fixtures.sample_ethers tt "info")
            "0x0000000000000000000000000000000000000001"
            "0x0000000000000000000000000000000000000000" "25" None
            "0x00000000000000000000000000000000000003e9").
  - reflexivity.
  - vm_compute. reflexivity.
Defined.

End RescaleProperties.

(** ** The other operations of the aggregator *)

Module RankingFacts.
Import Num NumFacts OpFacts.

(** The comparator is positive exactly on an ascending pair, [NaN]
    included. *)
Lemma gt0_compare (a b : quote) :
  gt0 (compare_quotes a b) = ltb (output a) (output b).
Proof.
  unfold compare_quotes.
  destruct (output a) as [ | x | x ], (output b) as [ | y | y ];
    try reflexivity; try (destruct x; reflexivity);
    try (destruct y; reflexivity); try (destruct x, y; reflexivity).
  apply (gt0_sub (Fin x) (Fin y)); reflexivity.
Qed.

(** The sort leaves a list without a rise as it is. *)
Lemma sort_kept (l : list quote) :
  Ranking.no_rise l = true -> sort l = l.
Proof.
  induction l as [ | a l IH ]; [ reflexivity | ].
  intros H. cbn [sort fold_right]. fold (sort l).
  destruct l as [ | b l' ]; [ reflexivity | ].
  cbn [Ranking.no_rise] in H. apply andb_true_iff in H as [H1 H2].
  rewrite (IH H2). cbn [insert]. rewrite gt0_compare.
  apply negb_true_iff in H1. now rewrite H1.
Qed.

Lemma sum_from_nan (l : list quote) :
  fold_left (fun sum q => add sum (output q)) l NaN = NaN.
Proof. induction l as [ | q l IH ]; [ reflexivity | exact IH ]. Qed.

Lemma add_nan_r (x : number) : add x NaN = NaN.
Proof. now destruct x. Qed.

(** A sum with a [NaN] term is [NaN]. *)
Lemma sum_with_nan (l : list quote) (q : quote) (x : number) :
  In q l -> output q = NaN ->
  fold_left (fun sum q => add sum (output q)) l x = NaN.
Proof.
  revert x; induction l as [ | a l IH ]; intros x I N; [ destruct I | ].
  cbn [fold_left]. destruct I as [ -> | I ].
  - rewrite N, add_nan_r. apply sum_from_nan.
  - now apply IH.
Qed.

End RankingFacts.

Section RankingProperties.
Import Num RankingFacts.

(** X19: the sort of [findBestRate] is stable: when no surviving quote is
    followed at once by one with a larger output (equal outputs and
    outputs that do not parse included), the quotes keep the order of
    their sources, and the best quote is the one of the first surviving
    source. *)
Lemma X19_order_of_sources_kept (now_ : string)
  (quotes : list (settled (option quote))) (first : quote)
  (others : list quote) :
  validQuotes quotes = first :: others ->
  Ranking.no_rise (first :: others) = true ->
  exists r,
    findBestRate_settled now_ quotes = Returned r
    /\ bestQuote r = first /\ allQuotes r = first :: others.
Proof.
  intros V K.
  destruct (aggregate_returns now_ quotes) as (best & rest & S & A).
  { rewrite V. discriminate. }
  rewrite V, (sort_kept _ K) in S. injection S as <- <-.
  eexists. split; [ apply returned_settled; exact A | ]. now split.
Qed.

(** Two quotes of the same output, 24.5 and 24.50, around a failed
    source. *)
Lemma X19_witness :
  exists r,
    findBestRate_settled "2025-01-01T00:00:00.000Z"
      [ Fulfilled (Some (Samples.quote_of "SaucerSwap" "24.5"));
        Rejected (ErrorObj "HeliSwap unavailable");
        Fulfilled (Some (Samples.quote_of "Pangolin" "24.50")) ]
    = Returned r
    /\ bestQuote r = Samples.quote_of "SaucerSwap" "24.5"
    /\ allQuotes r
       = [ Samples.quote_of "SaucerSwap" "24.5";
           Samples.quote_of "Pangolin" "24.50" ].
Proof.
  apply (X19_order_of_sources_kept "2025-01-01T00:00:00.000Z"
           [ Fulfilled (Some (Samples.quote_of "SaucerSwap" "24.5"));
             Rejected (ErrorObj "HeliSwap unavailable");
             Fulfilled (Some (Samples.quote_of "Pangolin" "24.50")) ]
           (Samples.quote_of "SaucerSwap" "24.5")
           [ Samples.quote_of "Pangolin" "24.50" ]).
  - reflexivity.
  - vm_compute. reflexivity.
Defined.

(** X20: as soon as one surviving quote has an output that does not
    parse to a number, both figures of the result, the average rate and
    the savings, are the text ["NaN"], whatever the other quotes are. *)
Lemma X20_unparsable_output_spoils_figures (now_ : string)
  (quotes : list (settled (option quote))) (r : result) (q : quote) :
  findBestRate_settled now_ quotes = Returned r ->
  In q (validQuotes quotes) -> output q = NaN ->
  averageRate r = "NaN" /\ savings r = "NaN".
Proof.
  intros F I N. apply settled_returned in F.
  destruct (aggregate_returns now_ quotes) as (best & rest & S & A).
  { intros E. rewrite E in I. destruct I. }
  rewrite A in F. injection F as <-. cbn [averageRate savings].
  assert (I' : In q (best :: rest)).
  { rewrite <- S.
    apply (Permutation_in q (Permutation_sym (sort_perm _)) I). }
  assert (M : average (best :: rest) = NaN).
  { unfold average, sum_outputs. rewrite (sum_with_nan _ q _ I' N).
    reflexivity. }
  unfold savings_number. rewrite M.
  unfold sub. cbn [opp]. rewrite add_nan_r. split; reflexivity.
Qed.

(** The outputs ["abc"] and ["24.0"]. *)
Lemma X20_witness :
  exists r,
    findBestRate_settled "2025-01-01T00:00:00.000Z"
      [ Fulfilled (Some (Samples.quote_of "HeliSwap" "abc"));
        Fulfilled (Some (Samples.quote_of "Pangolin" "24.0")) ]
    = Returned r
    /\ averageRate r = "NaN" /\ savings r = "NaN".
Proof.
  destruct (findBestRate_settled "2025-01-01T00:00:00.000Z"
              [ Fulfilled (Some (Samples.quote_of "HeliSwap" "abc"));
                Fulfilled (Some (Samples.quote_of "Pangolin" "24.0")) ])
    as [r | e] eqn:E.
  - exists r. split; [ reflexivity | ].
    apply (X20_unparsable_output_spoils_figures
             "2025-01-01T00:00:00.000Z"
             [ Fulfilled (Some (Samples.quote_of "HeliSwap" "abc"));
               Fulfilled (Some (Samples.quote_of "Pangolin" "24.0")) ]
             r (Samples.quote_of "HeliSwap" "abc") E).
    + left. reflexivity.
    + vm_compute. reflexivity.
  - vm_compute in E. discriminate E.
Defined.

End RankingProperties.

Module ArbitrageFacts.
Import Num Arbitrage.

(** A round of 1000 through the two mock exchanges ends with a loss. *)
Lemma mock_round_loses :
  exists k,
    percentage_of
      (profit_of
         (toFixed 6
            (mul (parseFloat (toFixed 6 (mul (parseFloat "1000")
                                             (of_decimal 98 (-2)))))
                 (of_decimal 97 (-2)))))
    = Fin k /\ k < 0.
Proof. eexists. split; [ vm_compute; reflexivity | reflexivity ]. Qed.

Lemma below_negative (x : number) (k : Z) :
  leb (Fin 0) x = true -> k < 0 -> leb x (Fin k) = false.
Proof.
  destruct x as [ | neg | j ]; try discriminate.
  - now destruct neg.
  - unfold leb. intros L K. apply Z.leb_le in L. apply Z.leb_gt. lia.
Qed.

(** A round of the loop pushes at most one opportunity, for its pair. *)
Lemma check_pair_shape w a b thr dexes l :
  check_pair w a b thr dexes = Returned l ->
  (List.length l <= 1)%nat /\ Forall (fun o => dex1 o = fst dexes) l.
Proof.
  unfold check_pair.
  destruct (getQuoteFromDEX w (fst dexes) a b "1000") as [q1 | ];
    cbn [bind]; [ | discriminate ].
  destruct (tokenOut_of q1) as [o1 | ]; cbn [bind]; [ | discriminate ].
  destruct (getQuoteFromDEX w (snd dexes) b a _) as [q2 | ]; cbn [bind];
    [ | discriminate ].
  destruct (tokenOut_of q2) as [o2 | ]; cbn [bind]; [ | discriminate ].
  destruct (leb thr _); intros E; injection E as <-.
  - split; [ simpl; lia | ]. constructor; [ reflexivity | constructor ].
  - split; [ simpl; lia | constructor ].
Qed.

(** With a SaucerSwap quote for the first leg, a round that comes back
    through a mock exchange does not fail. *)
Lemma check_pair_saucer w a b thr second q :
  getQuote w a b "1000" None = Returned q ->
  (second = "HeliSwap" \/ second = "Pangolin") ->
  exists l, check_pair w a b thr ("SaucerSwap", second) = Returned l.
Proof.
  intros G S. unfold check_pair. cbn [fst snd].
  unfold getQuoteFromDEX at 1. cbn [String.eqb Ascii.eqb Bool.eqb].
  unfold getSaucerSwapQuote. rewrite G.
  cbn [map_outcome try_catch bind tokenOut_of].
  destruct S as [-> | ->]; unfold getQuoteFromDEX;
    cbn [String.eqb Ascii.eqb Bool.eqb];
    unfold getHeliSwapQuote, getPangolinQuote; cbn [bind tokenOut_of];
    destruct (leb thr _); eauto.
Qed.

Lemma check_pair_mocks_eq w a b thr :
  check_pair w a b thr ("HeliSwap", "Pangolin")
  = let final :=
      toFixed 6
        (mul (parseFloat (toFixed 6 (mul (parseFloat "1000")
                                         (of_decimal 98 (-2)))))
             (of_decimal 97 (-2))) in
    if leb thr (percentage_of (profit_of final))
    then
      Returned
        [ {| dex1 := "HeliSwap"; dex2 := "Pangolin";
             tokenA := a; tokenB := b;
             initialAmount := "1000";
             finalAmount := final;
             profit := profit_of final;
             profitPercentage := percentage_of (profit_of final);
             route :=
               a ++ " " ++ arrow ++ " " ++ b ++ " (" ++ "HeliSwap"
                 ++ ") " ++ arrow ++ " " ++ a ++ " (" ++ "Pangolin"
                 ++ ")" |} ]
    else Returned [].
Proof. reflexivity. Qed.

(** The round through the two mock exchanges is never reported under a
    threshold that is not negative. *)
Lemma check_pair_mocks w a b thr :
  leb (Fin 0) thr = true ->
  check_pair w a b thr ("HeliSwap", "Pangolin") = Returned [].
Proof.
  intros T.
  destruct mock_round_loses as (k & E & K).
  rewrite check_pair_mocks_eq. cbv zeta. rewrite E.
  now rewrite (below_negative thr k T K).
Qed.

End ArbitrageFacts.

Section ArbitrageProperties.
Import Num Arbitrage ArbitrageFacts.

(** X21: [findArbitrageOpportunities] fails as a whole when SaucerSwap
    has no quote for the first leg, in the first round or in the second:
    the [null] of [getSaucerSwapQuote] is read for its [tokenOut].  The
    round through HeliSwap and Pangolin, which needs no SaucerSwap quote,
    is then not reported either. *)
Lemma X21_search_needs_saucerswap (w : nat -> world)
  (tokenA_ tokenB_ : string) (minProfitThreshold : option number)
  (e : thrown) :
  getQuote (w 0%nat) tokenA_ tokenB_ "1000" None = Threw e
  \/ ((exists q, getQuote (w 0%nat) tokenA_ tokenB_ "1000" None
                 = Returned q)
      /\ getQuote (w 1%nat) tokenA_ tokenB_ "1000" None = Threw e) ->
  findArbitrageOpportunities w tokenA_ tokenB_ minProfitThreshold
  = Threw (ErrorObj
      ("Failed to find arbitrage opportunities: "
       ++ "Cannot read properties of null (reading 'tokenOut')")).
Proof.
  intros [G | [[q G0] G]]; unfold findArbitrageOpportunities;
    cbn [dexPairs check_pairs].
  - unfold check_pair at 1.
    cbn [fst snd]. unfold getQuoteFromDEX at 1.
    cbn [String.eqb Ascii.eqb Bool.eqb].
    unfold getSaucerSwapQuote. rewrite G. reflexivity.
  - destruct (check_pair_saucer (w 0%nat) tokenA_ tokenB_
                match minProfitThreshold with
                | Some x => x
                | None => of_decimal 5 (-1)
                end "HeliSwap" q G0) as [l1 ->]; [ now left | ].
    cbn [bind]. unfold check_pair at 1.
    cbn [fst snd]. unfold getQuoteFromDEX at 1.
    cbn [String.eqb Ascii.eqb Bool.eqb].
    unfold getSaucerSwapQuote. rewrite G. reflexivity.
Qed.

(** The search while the router cannot be reached. *)
Lemma X21_witness :
  findArbitrageOpportunities (fun _ => Samples.offline)
    "0x0000000000000000000000000000000000000000"
    "0x0000000000000000000000000000000000000001" None
  = Threw (ErrorObj
      ("Failed to find arbitrage opportunities: "
       ++ "Cannot read properties of null (reading 'tokenOut')")).
Proof.
  apply (X21_search_needs_saucerswap (fun _ => Samples.offline)
           "0x0000000000000000000000000000000000000000"
           "0x0000000000000000000000000000000000000001" None
           (ErrorObj "Failed to get quote: network unreachable")).
  left. vm_compute. reflexivity.
Defined.

(** X22: when SaucerSwap answers for the first leg in both rounds that
    ask it, the search returns; with a threshold that is not negative
    (the default 0.5 included) it reports at most two opportunities, all
    of them rounds that start on SaucerSwap: the round of 1000 through
    HeliSwap and Pangolin ends at 950.6 and is never profitable. *)
Lemma X22_search_reports_saucerswap_rounds (w : nat -> world)
  (tokenA_ tokenB_ : string) (minProfitThreshold : option number)
  (q0 q1 : quote) :
  getQuote (w 0%nat) tokenA_ tokenB_ "1000" None = Returned q0 ->
  getQuote (w 1%nat) tokenA_ tokenB_ "1000" None = Returned q1 ->
  (forall x, minProfitThreshold = Some x -> leb (Fin 0) x = true) ->
  exists r,
    findArbitrageOpportunities w tokenA_ tokenB_ minProfitThreshold
    = Returned r
    /\ (List.length (opportunities r) <= 2)%nat
    /\ Forall (fun o => dex1 o = "SaucerSwap") (opportunities r).
Proof.
  intros G0 G1 T. unfold findArbitrageOpportunities.
  set (thr := match minProfitThreshold with
              | Some x => x
              | None => of_decimal 5 (-1)
              end).
  assert (P : leb (Fin 0) thr = true).
  { subst thr. destruct minProfitThreshold as [x | ];
      [ now apply T | vm_compute; reflexivity ]. }
  cbn [dexPairs check_pairs].
  destruct (check_pair_saucer (w 0%nat) tokenA_ tokenB_ thr "HeliSwap"
              q0 G0) as [l1 E1]; [ now left | ].
  destruct (check_pair_saucer (w 1%nat) tokenA_ tokenB_ thr "Pangolin"
              q1 G1) as [l2 E2]; [ now right | ].
  rewrite E1; cbn [bind]. rewrite E2; cbn [bind].
  rewrite (check_pair_mocks (w 2%nat) tokenA_ tokenB_ thr P).
  cbn [bind try_catch]. eexists. split; [ reflexivity | ].
  cbn [opportunities].
  destruct (check_pair_shape _ _ _ _ _ _ E1) as [L1 F1].
  destruct (check_pair_shape _ _ _ _ _ _ E2) as [L2 F2].
  rewrite !app_nil_r. split.
  - rewrite length_app. lia.
  - apply Forall_app. split; assumption.
Qed.

(** The search on the sample router, with the default threshold. *)
Lemma X22_witness :
  exists r,
    findArbitrageOpportunities (fun _ => Samples.online)
      "0x0000000000000000000000000000000000000000"
      "0x0000000000000000000000000000000000000001" None
    = Returned r
    /\ (List.length (opportunities r) <= 2)%nat
    /\ Forall (fun o => dex1 o = "SaucerSwap") (opportunities r).
Proof.
  eapply (X22_search_reports_saucerswap_rounds (fun _ => Samples.online)
            "0x0000000000000000000000000000000000000000"
            "0x0000000000000000000000000000000000000001" None).
  - vm_compute. reflexivity.
  - vm_compute. reflexivity.
  - intros x E. discriminate E.
Defined.

End ArbitrageProperties.

Module PortfolioFacts.
Import Portfolio.

(** The three classes of tolerance the allocation distinguishes. *)
Lemma tolerance_class (t : string) :
  t = "low" \/ t = "medium"
  \/ (String.eqb t "low" = false /\ String.eqb t "medium" = false).
Proof.
  destruct (String.eqb_spec t "low") as [-> | _]; [ now left | ].
  destruct (String.eqb_spec t "medium") as [-> | _]; [ right; now left | ].
  right; right. now split.
Qed.

Lemma optimizePortfolio_parts now_ walletAddress t r :
  optimizePortfolio now_ walletAddress (Some t) = Returned r ->
  yieldOpportunities r = getYieldOpportunities now_ t
  /\ optimalAllocation_ r
     = calculateOptimalAllocation (getCurrentPortfolio walletAddress)
         (getYieldOpportunities now_ t) t.
Proof.
  unfold optimizePortfolio.
  destruct (generateRebalanceActions _ _) as [actions | ];
    cbn [bind try_catch]; [ | discriminate ].
  intros E; injection E as <-. split; reflexivity.
Qed.

Lemma shares_high :
  staking "high" = Num.of_decimal 2 (-1)
  /\ farming "high" = Num.of_decimal 7 (-1)
  /\ liquidity "high" = Num.of_decimal 1 (-1).
Proof. repeat split. Qed.

Lemma shares_unnamed (t : string) :
  String.eqb t "low" = false -> String.eqb t "medium" = false ->
  staking t = Num.of_decimal 2 (-1)
  /\ farming t = Num.of_decimal 7 (-1)
  /\ liquidity t = Num.of_decimal 1 (-1).
Proof.
  intros N1 N2. unfold staking, farming, liquidity.
  rewrite N1, N2. repeat split.
Qed.

Lemma HBAR_share_found p o t :
  exists h, HBAR_share (calculateOptimalAllocation p o t) = Some h.
Proof. eexists. reflexivity. Qed.

(** The optimisation never fails. *)
Lemma optimizePortfolio_returns now_ walletAddress riskTolerance :
  exists r, optimizePortfolio now_ walletAddress riskTolerance = Returned r.
Proof.
  unfold optimizePortfolio, generateRebalanceActions.
  match goal with
  | |- context [HBAR_share (calculateOptimalAllocation ?p ?o ?t)] =>
      destruct (HBAR_share_found p o t) as [h ->]
  end.
  destruct (Num.ltb _ _); cbn [bind try_catch]; eauto.
Qed.

End PortfolioFacts.

Section PortfolioProperties.
Import Portfolio PortfolioFacts.

(** X23: [optimizePortfolio] returns for every wallet and every risk
    tolerance (absent: [medium]).  The four allocations add up to the
    value of the portfolio, 4000; the estimated yield is 9.20%, 10.90% or
    12.60% and the only action ever proposed is a purchase of HBAR (1400
    or 600), as the tolerance is [low], [medium] or anything else. *)
Lemma X23_optimizePortfolio_table (now_ walletAddress : string)
  (riskTolerance : option string) :
  let t := match riskTolerance with Some r => r | None => "medium" end in
  exists r,
    optimizePortfolio now_ walletAddress riskTolerance = Returned r
    /\ riskTolerance_ r = t
    /\ totalAllocation (optimalAllocation_ r) = Num.of_Z 4000
    /\ estimatedAPY r
       = (if String.eqb t "low" then "9.20%"
          else if String.eqb t "medium" then "10.90%" else "12.60%")
    /\ List.map (fun a => (a_action a, a_token a, a_amount a))
         (rebalanceActions r)
       = (if String.eqb t "low" then [("buy", "HBAR", "1400.00")]
          else if String.eqb t "medium" then [("buy", "HBAR", "600.00")]
          else []).
Proof.
  intros t. unfold optimizePortfolio. fold t.
  destruct (tolerance_class t) as [E | [E | [N1 N2]]].
  - rewrite E. eexists. split; [ vm_compute; reflexivity | ].
    repeat match goal with |- _ /\ _ => split end; vm_compute; reflexivity.
  - rewrite E. eexists. split; [ vm_compute; reflexivity | ].
    repeat match goal with |- _ /\ _ => split end; vm_compute; reflexivity.
  - unfold calculateOptimalAllocation, staking, farming, liquidity.
    rewrite N1, N2.
    eexists. split; [ vm_compute; reflexivity | ].
    repeat match goal with |- _ /\ _ => split end; vm_compute; reflexivity.
Qed.

(** X24: the strategies accepted for the three named tolerances are
    nested: what [low] accepts [medium] accepts, and what [medium]
    accepts [high] accepts. *)
Lemma X24_accepted_strategies_nested (s : strategy) :
  (accepts "low" s = true -> accepts "medium" s = true)
  /\ (accepts "medium" s = true -> accepts "high" s = true).
Proof.
  unfold accepts. cbn [String.eqb Ascii.eqb Bool.eqb].
  split; [ intros -> | ]; reflexivity.
Qed.

(** The staking of HBAR, of low risk. *)
Lemma X24_witness :
  accepts "medium"
    {| st_name := "Staking HBAR"; apy := "6.5%"; risk := "low";
       tvl := "$10,000,000"; rewards := ["HBAR"];
       requirements := ["Stake HBAR"];
       st_strategy := "Stake HBAR for network rewards" |} = true.
Proof.
  apply (proj1 (X24_accepted_strategies_nested
                  {| st_name := "Staking HBAR"; apy := "6.5%";
                     risk := "low"; tvl := "$10,000,000";
                     rewards := ["HBAR"];
                     requirements := ["Stake HBAR"];
                     st_strategy := "Stake HBAR for network rewards" |})).
  reflexivity.
Defined.

(** X25: a risk tolerance that is none of the three names is not
    rejected: the opportunities are then the two medium-risk strategies
    only (the low-risk one that [medium] accepts is left out), and the
    allocation is that of [high]. *)
Lemma X25_unnamed_tolerance (now_ walletAddress t : string) :
  t <> "low" -> t <> "medium" -> t <> "high" ->
  exists r,
    optimizePortfolio now_ walletAddress (Some t) = Returned r
    /\ List.map st_name (yieldOpportunities r)
       = ["SaucerSwap HBAR-USDC LP"; "HeliSwap HBAR-USDT LP"]
    /\ optimalAllocation_ r
       = calculateOptimalAllocation (getCurrentPortfolio walletAddress)
           (getYieldOpportunities now_ "high") "high".
Proof.
  intros N1 N2 N3.
  destruct (optimizePortfolio_returns now_ walletAddress (Some t))
    as [r E].
  exists r. split; [ exact E | ].
  apply optimizePortfolio_parts in E as [-> ->].
  apply String.eqb_neq in N1, N2, N3.
  split.
  - unfold getYieldOpportunities, accepts. rewrite N1, N2, N3.
    change (sr_strategies (getYieldFarmingStrategies now_)) with strategies.
    reflexivity.
  - unfold calculateOptimalAllocation.
    destruct (shares_unnamed t N1 N2) as (-> & -> & ->).
    destruct shares_high as (-> & -> & ->). reflexivity.
Qed.

(** The tolerance ["HIGH"], in capitals. *)
Lemma X25_witness :
  exists r,
    optimizePortfolio "2025-01-01T00:00:00.000Z" "0.0.1001" (Some "HIGH")
    = Returned r
    /\ List.map st_name (yieldOpportunities r)
       = ["SaucerSwap HBAR-USDC LP"; "HeliSwap HBAR-USDT LP"]
    /\ optimalAllocation_ r
       = calculateOptimalAllocation (getCurrentPortfolio "0.0.1001")
           (getYieldOpportunities "2025-01-01T00:00:00.000Z" "high")
           "high".
Proof.
  apply (X25_unnamed_tolerance "2025-01-01T00:00:00.000Z" "0.0.1001"
           "HIGH"); discriminate.
Defined.

End PortfolioProperties.
